(** * Matrix-style Profile Stream: a shallow embedding of [main.js]

    The development follows the layout of the source file: utilities,
    configuration, the [MatrixRain] class, the [ProfileFactory] closure and
    the [CapsuleManager] class, then the theme, the canvas, the glyph
    sheet and the ticker, followed by the properties established about
    them.

    Conventions of the embedding.
    - A JavaScript number is a value of a type [T] carrying the operations
      of the class [JsNum].  Two instances are given: exact rationals [Q]
      (every operation exact) and IEEE-754 binary64 ([spec_float] with
      precision 53, the arithmetic the engine runs).  A value that the
      source makes integral ([Math.floor], [Math.round], an array length,
      a loop counter) is a [Z].
    - [Math.random()] reads the next cell of a tape [nat -> T]; a function
      that draws random numbers is a computation in the state monad
      [Rand] over that tape.
    - [performance.now()] and [Date.now()] readings, and timer and
      animation-frame callbacks, are supplied by the environment as
      events; the capsule manager is a transition system over them.
    - A string is a byte string; the texts the code builds are ASCII, on
      which bytes, UTF-16 code units and code points coincide.  The glyph
      set and the sparkline blocks, which are not ASCII, are lists of
      characters.
    - Built-ins of the host whose result no property depends on
      ([toString(36)], [toISOString], [JSON.stringify]) are fields of a
      record [Host]. *)

From Stdlib Require Import ZArith QArith Qround Lia Lqa Ascii String List.
From Stdlib Require Import DecimalString DecimalZ DecimalPos.
From Stdlib Require Import Floats.SpecFloat.
From stdpp Require Import base gmap list.
Import ListNotations.

Local Open Scope Z_scope.

(* ------------------------------------------------------------------ *)
(** ** Numbers *)

Class JsNum (T : Type) := {
  ofZ : Z -> T;                (* an integer literal or integral value *)
  add : T -> T -> T;
  sub : T -> T -> T;
  mul : T -> T -> T;
  div : T -> T -> T;
  ltb : T -> T -> bool;        (* [a < b] *)
  leb : T -> T -> bool;        (* [a <= b] *)
  floor : T -> Z;              (* [Math.floor] *)
  round : T -> Z;              (* [Math.round]: nearest, ties upwards *)
}.

(** A decimal literal such as [0.7] is the quotient of two integers; in
    binary64 the correctly rounded quotient is the double nearest to the
    literal. *)
Definition dec {T} `{JsNum T} (n d : Z) : T := div (ofZ n) (ofZ d).

Module Exact.
Definition ltb (a b : Q) : bool := negb (Qle_bool b a).
Definition round (a : Q) : Z := Qfloor (a + (1 # 2))%Q.
End Exact.

#[global] Instance Q_JsNum : JsNum Q := {|
  ofZ := inject_Z;
  add := Qplus;
  sub := Qminus;
  mul := Qmult;
  div := Qdiv;
  ltb := Exact.ltb;
  leb := Qle_bool;
  floor := Qfloor;
  round := Exact.round;
|}.

Module Binary64.
Definition prec : Z := 53.
Definition emax : Z := 1024.

(** The double nearest to the integer [z] ([z] itself below 2^53). *)
Definition ofZ (z : Z) : spec_float :=
  binary_normalize prec emax z 0 false.

(** [floor] and [round] of a finite double [m * 2^e], computed on the
    integers.  Zeros give 0; infinities and NaN, which no call of the
    source produces from finite inputs, are mapped to 0 as well. *)
Definition floor (f : spec_float) : Z :=
  match f with
  | S754_finite s m e =>
      let z := if s then Zneg m else Zpos m in
      if 0 <=? e then Z.shiftl z e else Z.shiftr z (- e)
  | _ => 0
  end.

Definition round (f : spec_float) : Z :=
  match f with
  | S754_finite s m e =>
      let z := if s then Zneg m else Zpos m in
      if 0 <=? e then Z.shiftl z e
      else Z.shiftr (2 * z + Z.shiftl 1 (- e)) (- e + 1)
  | _ => 0
  end.
End Binary64.

#[global] Instance B64_JsNum : JsNum spec_float := {|
  ofZ := Binary64.ofZ;
  add := SFadd Binary64.prec Binary64.emax;
  sub := SFsub Binary64.prec Binary64.emax;
  mul := SFmul Binary64.prec Binary64.emax;
  div := SFdiv Binary64.prec Binary64.emax;
  ltb := SFltb;
  leb := SFleb;
  floor := Binary64.floor;
  round := Binary64.round;
|}.

(* ------------------------------------------------------------------ *)
(** ** The random tape and its monad *)

Definition Tape (T : Type) : Type := nat -> T.

Definition Rand (T A : Type) : Type := Tape T -> A * Tape T.

Definition ret {T A} (a : A) : Rand T A := fun t => (a, t).

Definition bind {T A B} (m : Rand T A) (k : A -> Rand T B) : Rand T B :=
  fun t => let (a, t') := m t in k a t'.

Notation "'let*' x ':=' m 'in' k" := (bind m (fun x => k))
  (at level 10, x name, m at level 100, k at level 200, only parsing).

(** [Math.random()] *)
Definition random {T} : Rand T T := fun t => (t 0%nat, fun n => t (S n)).

Fixpoint mapM {T A B} (f : A -> Rand T B) (l : list A) : Rand T (list B) :=
  match l with
  | [] => ret []
  | a :: l' => let* b := f a in let* bs := mapM f l' in ret (b :: bs)
  end.

(** [Array.from({ length: n }, f)] for a callback that ignores its
    arguments *)
Fixpoint replicateM {T A} (n : nat) (m : Rand T A) : Rand T (list A) :=
  match n with
  | O => ret []
  | S n' => let* a := m in let* l := replicateM n' m in ret (a :: l)
  end.

(* ------------------------------------------------------------------ *)
(** ** Utilities *)

Section Utilities.
Context {T : Type} `{JsNum T}.

Definition rand (min max : T) : Rand T T :=
  let* u := random in ret (add (mul u (sub max min)) min).

Definition randi (min max : T) : Rand T Z :=
  let* x := rand min max in ret (floor x).

(** [arr[randi(0, arr.length)]]; [undef] stands for the [undefined] read
    out of an empty array. *)
Definition choice {A} (undef : A) (arr : list A) : Rand T A :=
  let* i := randi (ofZ 0) (ofZ (Z.of_nat (length arr))) in
  ret (nth (Z.to_nat i) arr undef).

Fixpoint weightedChoice_loop {A} (roll : T) (pairs : list (A * Z))
  : option A :=
  match pairs with
  | [] => None
  | (v, w) :: rest =>
      let roll := sub roll (ofZ w) in
      if leb roll (ofZ 0) then Some v else weightedChoice_loop roll rest
  end.

(** [undef] stands for what an empty [pairs] would give; every call passes
    a non-empty table. *)
Definition weightedChoice {A} (undef : A) (pairs : list (A * Z))
  : Rand T A :=
  let total := fold_left (fun s p => s + snd p) pairs 0 in
  let* u := random in
  let roll := mul u (ofZ total) in
  match weightedChoice_loop roll pairs with
  | Some v => ret v
  | None => ret (fst (List.last pairs (undef, 0)))
  end.
End Utilities.

(** [clamp(v, a, b)]; the comparison is the one of the operands' type. *)
Definition clamp {A} (lt : A -> A -> bool) (v a b : A) : A :=
  if lt v a then a else if lt b v then b else v.

(** Decimal rendering of an integral number, as in a template literal or
    [toString()]. *)
Definition Z_toString (z : Z) : string :=
  NilZero.string_of_int (Z.to_int z).

Definition isDigit (c : ascii) : bool :=
  let n := nat_of_ascii c in (48 <=? n)%nat && (n <=? 57)%nat.

(** [\w] *)
Definition isWordChar (c : ascii) : bool :=
  let n := nat_of_ascii c in
  isDigit c || ((65 <=? n)%nat && (n <=? 90)%nat)
  || ((97 <=? n)%nat && (n <=? 122)%nat) || (n =? 95)%nat.

Definition startsWithDigit (s : list ascii) : bool :=
  match s with
  | c :: _ => isDigit c
  | [] => false
  end.

(** The lookahead [(?=(\d{3})+(?!\d))] at the head of [s]. *)
Fixpoint lookahead_thousands (s : list ascii) : bool :=
  match s with
  | a :: b :: c :: rest =>
      isDigit a && isDigit b && isDigit c
      && (negb (startsWithDigit rest) || lookahead_thousands rest)
  | _ => false
  end.

(** [\B] between [prev] and the head of [s]. *)
Definition nonWordBoundary (prev : option ascii) (s : list ascii) : bool :=
  let w (o : option ascii) :=
    match o with Some c => isWordChar c | None => false end in
  Bool.eqb (w prev) (w (head s)).

(** [s.replace(/\B(?=(\d{3})+(?!\d))/g, ',')], scanning every position. *)
Fixpoint replace_thousands (prev : option ascii) (s : list ascii)
  : list ascii :=
  let here := nonWordBoundary prev s && lookahead_thousands s in
  (if here then [","%char] else [])
  ++ match s with
     | [] => []
     | c :: s' => c :: replace_thousands (Some c) s'
     end.

Definition formatMoneyUSD {T} `{JsNum T} (n : T) : string :=
  let sign := if ltb n (ofZ 0) then "-"%string else EmptyString in
  let x := Z.abs (round n) in
  (sign ++ "$"
   ++ string_of_list_ascii
        (replace_thousands None (list_ascii_of_string (Z_toString x))))%string.

(* ------------------------------------------------------------------ *)
(** ** Config and canvas *)

Record Config (T : Type) := mkConfig {
  densityScale : T;
  speedScale : T;
  capsuleRateScale : T;
  glowIntensity : T;
  showCode : bool;
  allowHexCapsules : bool;
  maxCapsules : Z;
  theme : string;
  showFps : bool;
}.
Arguments mkConfig {T}.
Arguments densityScale {T}.
Arguments speedScale {T}.
Arguments capsuleRateScale {T}.
Arguments glowIntensity {T}.
Arguments showCode {T}.
Arguments allowHexCapsules {T}.
Arguments maxCapsules {T}.
Arguments theme {T}.
Arguments showFps {T}.

Definition CONFIG {T} `{JsNum T} : Config T := {|
  densityScale := ofZ 1;
  speedScale := ofZ 1;
  capsuleRateScale := ofZ 1;
  glowIntensity := dec 6 10;
  showCode := true;
  allowHexCapsules := true;
  maxCapsules := 12;
  theme := "green";
  showFps := false;
|}.

(** The part of the page the code reads: the CSS size of the canvas, the
    window's inner size and the computed [--active] colour. *)
Record Page := mkPage {
  clientWidth : Z;
  clientHeight : Z;
  innerWidth : Z;
  innerHeight : Z;
  activeColor : string;
}.

(* ------------------------------------------------------------------ *)
(** ** Matrix rain *)

Module MatrixRain.

Record Column (T : Type) := mkColumn {
  x : Z;
  y : T;
  speed : T;
  streamLength : Z;
  glyphIndices : list Z;
  drift : T;
}.
Arguments mkColumn {T}.
Arguments x {T}.
Arguments y {T}.
Arguments speed {T}.
Arguments streamLength {T}.
Arguments glyphIndices {T}.
Arguments drift {T}.

(** The glyph sheet without its pixels. *)
Record Sheet := mkSheet { cols : Z; size : Z }.

Record Rain (T : Type) := mkRain {
  columns : list (Column T);
  glyphSize : Z;
  columnCount : Z;
  characters : list N;          (* UTF-16 code units *)
  sheet : Sheet;
}.
Arguments mkRain {T}.
Arguments columns {T}.
Arguments glyphSize {T}.
Arguments columnCount {T}.
Arguments characters {T}.
Arguments sheet {T}.

(** What [draw] sends to the 2D context. *)
Inductive Command (T : Type) :=
| FillRect (fillStyle : string) (rx ry rw rh : Z)
| DrawImage (globalAlpha shadowBlur : T) (shadowColor : string)
    (sx sy sw sh : Z) (dx : Z) (dy : T) (dw dh : Z)
| FillText (globalAlpha : T) (font fillStyle text : string) (tx ty : Z).
Arguments FillRect {T}.
Arguments DrawImage {T}.
Arguments FillText {T}.

Definition codeUnits (s : string) : list N :=
  map N_of_ascii (list_ascii_of_string s).

Definition buildGlyphSet : list N :=
  let latin := "ABCDEFGHIJKLMNOPQRSTUVWXYZabcdefghijklmnopqrstuvwxyz"%string in
  let digits := "0123456789"%string in
  let punct :=
    ("!@#$%^&*" ++ "()_+-=[]{};:"
     ++ String (ascii_of_nat 34) ",./<>?")%string in
  (* the halfwidth katakana U+FF71 .. U+FF9D, in order *)
  let kana := map (fun k => (65393 + N.of_nat k)%N) (seq 0 45) in
  codeUnits (latin ++ digits ++ punct)%string ++ kana.

(** The index expression of [draw]:
    [(i + (len - (i % len))) % len]. *)
Definition glyphSlot (i len : Z) : Z :=
  Z.rem (i + (len - Z.rem i len)) len.

(** [col.glyphIndices[idx] = g]; [idx] comes from
    [randi(0, col.glyphIndices.length)] and is within the array. *)
Definition mutateGlyph {T} (idx : nat) (g : Z) (col : Column T)
  : Column T :=
  {| x := x col; y := y col; speed := speed col;
     streamLength := streamLength col;
     glyphIndices := <[idx := g]> (glyphIndices col);
     drift := drift col |}.

Section WithNumbers.
Context {T : Type} `{JsNum T}.
Variable cfg : Config T.
Variable page : Page.

(** The column count of [resetColumns]. *)
Definition numCols (size : Z) : Z :=
  let w := clientWidth page in
  let density := mul (dec 7 10) (densityScale cfg) in
  Z.max 8 (floor (mul (div (ofZ w) (ofZ size)) density)).

(** The column count of [update]. *)
Definition desiredCols (size : Z) : Z :=
  Z.max 8 (floor (mul (mul (div (ofZ (clientWidth page)) (ofZ size))
                           (dec 7 10))
                      (densityScale cfg))).

Definition spawnColumn (this : Rain T) (index : T) (screenH : Z)
  : Rand T (Column T) :=
  let x := floor (mul index (div (ofZ (clientWidth page))
                                 (ofZ (columnCount this)))) in
  let* y := randi (ofZ (- screenH)) (ofZ 0) in
  let* speed := rand (ofZ 60) (ofZ 180) in
  let* streamLength := randi (ofZ 10) (ofZ 40) in
  let* glyphIndices :=
    replicateM 60
      (randi (ofZ 0) (ofZ (Z.of_nat (length (characters this))))) in
  let* drift := rand (dec (-2) 10) (dec 2 10) in
  ret {| x := x; y := ofZ y; speed := mul speed (speedScale cfg);
         streamLength := streamLength; glyphIndices := glyphIndices;
         drift := drift |}.

Definition resetColumns (this : Rain T) : Rand T (Rain T) :=
  let h := clientHeight page in
  let size := glyphSize this in
  let numCols := numCols size in
  let this := {| columns := []; glyphSize := glyphSize this;
                 columnCount := numCols; characters := characters this;
                 sheet := sheet this |} in
  let* cs := mapM (fun i => spawnColumn this (ofZ (Z.of_nat i)) h)
                  (seq 0 (Z.to_nat numCols)) in
  ret {| columns := cs; glyphSize := glyphSize this;
         columnCount := numCols; characters := characters this;
         sheet := sheet this |}.

Definition constructor : Rand T (Rain T) :=
  resetColumns {| columns := []; glyphSize := 16; columnCount := 0;
                  characters := buildGlyphSet;
                  sheet := {| cols := 32; size := 16 |} |}.

(** The body of the loop of [update], for one column. *)
Definition updateColumn (this : Rain T) (dt : T) (col : Column T)
  : Rand T (Column T) :=
  let h := clientHeight page in
  let size := glyphSize this in
  let col :=
    {| x := x col;
       y := add (y col) (mul (mul (speed col) (speedScale cfg)) dt);
       speed := speed col; streamLength := streamLength col;
       glyphIndices := glyphIndices col; drift := drift col |} in
  let* col :=
    if ltb (ofZ (h + 20)) (sub (y col) (ofZ (streamLength col * size)))
    then (let* u := random in
          spawnColumn this (mul u (ofZ (columnCount this))) h)
    else ret col in
  let* u := random in
  if ltb u (dec 2 10) then
    let* idx :=
      randi (ofZ 0) (ofZ (Z.of_nat (length (glyphIndices col)))) in
    let* g :=
      randi (ofZ 0) (ofZ (Z.of_nat (length (characters this)))) in
    ret (mutateGlyph (Z.to_nat idx) g col)
  else ret col.

Definition update (this : Rain T) (dt : T) : Rand T (Rain T) :=
  let size := glyphSize this in
  if negb (desiredCols size =? columnCount this) then resetColumns this
  else
    let* cs := mapM (updateColumn this dt) (columns this) in
    ret {| columns := cs; glyphSize := glyphSize this;
           columnCount := columnCount this;
           characters := characters this; sheet := sheet this |}.

(** One iteration of the inner loop of [draw]. *)
Definition drawGlyph (this : Rain T) (glow : T) (col : Column T) (i : Z)
  : Command T :=
  let size := glyphSize this in
  let cell := MatrixRain.size (sheet this) in
  let len := Z.of_nat (length (glyphIndices col)) in
  let gi := nth (Z.to_nat (glyphSlot i len)) (glyphIndices col) 0 in
  let sx := Z.rem gi (cols (sheet this)) * cell in
  let sy := (gi / cols (sheet this)) * cell in
  let isHead := i =? 0 in
  let alpha :=
    if isHead then dec 95 100
    else mul (dec 65 100)
             (sub (ofZ 1) (div (ofZ i) (ofZ (streamLength col)))) in
  DrawImage alpha (add (ofZ 8) (mul glow (ofZ 14))) (activeColor page)
    sx sy cell cell (x col) (sub (y col) (ofZ (i * size))) size size.

Definition drawColumn (this : Rain T) (glow : T) (col : Column T)
  : list (Command T) :=
  map (fun i => drawGlyph this glow col (Z.of_nat i))
      (seq 0 (Z.to_nat (streamLength col))).

Definition snippets : list string :=
  [ "if(risk_score>70){alert('!')}";
    "SELECT * FROM agents WHERE mood='flow'";
    "for(let a of actors){a.tick()}";
    "while(load<1.0){optimize()}";
    "pub fn assess(r:u8)->u8{r^42}" ]%string.

Definition draw (this : Rain T) : Rand T (list (Command T)) :=
  let w := clientWidth page in
  let h := clientHeight page in
  let glow := clamp ltb (glowIntensity cfg) (ofZ 0) (ofZ 1) in
  let glyphs := concat (map (drawColumn this glow) (columns this)) in
  let fade := FillRect "rgba(0,0,0,0.18)" 0 0 w h in
  let* noise :=
    if showCode cfg then
      let* u := random in
      if ltb u (dec 6 100) then
        let* s := choice "undefined"%string snippets in
        let* tx := randi (ofZ 0) (ofZ (w - 240)) in
        let* ty := randi (ofZ 0) (ofZ h) in
        ret [FillText (dec 9 10) "12px ui-monospace, monospace"
                      (activeColor page) s tx ty]
      else ret []
    else ret [] in
  ret (fade :: glyphs ++ noise).
End WithNumbers.

End MatrixRain.

(* ------------------------------------------------------------------ *)
(** ** Profile factory *)

Record Profile := mkProfile {
  id : string;
  name : string;
  age : Z;
  gender : string;
  job_title : string;
  industry : string;
  income_usd : Z;
  education : string;
  location_city : string;
  relationship_status : string;
  emotional_state : string;
  activity : string;
  interests : list string;
  risk_score : Z;
  last_active : string;
}.

(** Built-ins of the host that the code calls and the embedding leaves
    abstract. *)
Record Host (T : Type) := mkHost {
  toString36 : T -> string;             (* [Number.prototype.toString(36)] *)
  toISOString : Z -> string;            (* [new Date(ms).toISOString()] *)
  JSON_stringify : Profile -> bool -> string;
                                        (* [true]: with [null, 2] *)
}.
Arguments mkHost {T}.
Arguments toString36 {T}.
Arguments toISOString {T}.
Arguments JSON_stringify {T}.

(** [obj[key]] on an object literal, among its own properties.  The keys
    the code looks up are entries of its own arrays, never the name of a
    member of [Object.prototype], which the lookup of the source would
    find as well. *)
Fixpoint property {A} (key : string) (obj : list (string * A)) : option A :=
  match obj with
  | [] => None
  | (k, v) :: rest => if String.eqb k key then Some v else property key rest
  end.

(** [s.slice(-n)] *)
Definition slice_last (n : nat) (s : string) : string :=
  substring (String.length s - n) n s.

Module ProfileFactory.

Definition firstNames : list string :=
  ["Ava";"Mia";"Liam";"Noah";"Emma";"Oliver";"Lucas";"Amelia";"Ethan";
   "Sofia";"Zoe";"Kai";"Nina";"Leo";"Isla";"Maya";"Ezra";"Ivy";"Mila";
   "Aria";"Theo";"Luna";"Finn";"Mason";"Iris"]%string.
Definition lastNames : list string :=
  ["Kim";"Lee";"Nguyen";"Patel";"Garcia";"Chen";"Smith";"Khan";"Mori";
   "Silva";"Rossi";"Santos";"Brown";"Martin";"Lopez";"Wilson";"Dubois";
   "Kowalski"]%string.
Definition genders : list string := ["female";"male";"non-binary"]%string.
Definition industries : list string :=
  ["Finance";"Healthcare";"Tech";"Education";"Retail";"Energy";"Gaming";
   "Media";"Gov";"Aerospace"]%string.
Definition jobs : list string :=
  ["Engineer";"Designer";"Data Scientist";"Analyst";"PM";"Researcher";
   "Nurse";"Teacher";"Marketer";"Artist";"Security";"Pilot"]%string.
Definition relationship : list string :=
  ["single";"dating";"married";"complicated"]%string.
(** The array [education] of the source. *)
Definition education_levels : list string :=
  ["HS";"Associate";"BSc";"MSc";"PhD"]%string.
Definition emotional : list (string * Z) :=
  [("focused", 3); ("stressed", 2); ("curious", 3); ("flow", 2);
   ("burnout", 1); ("optimistic", 2); ("calm", 2);
   ("distracted", 1)]%string.
Definition cities : list string :=
  ["New York";"Berlin";"Tokyo";"Seoul";"Toronto";"Paris";"Madrid";
   "Sydney";"Sao Paulo";"Nairobi";"Dublin";"Singapore"]%string.
(** The array literal passed to [choice] for [activity]. *)
Definition activities : list string :=
  ["browsing";"coding";"commuting";"meeting";"streaming";"learning";
   "exercising";"shopping"]%string.

(** The table [base] of [sampleIncome]. *)
Definition base : list (string * (Z * Z)) :=
  [("Tech", (80000, 220000)); ("Finance", (70000, 250000));
   ("Healthcare", (50000, 180000)); ("Education", (35000, 120000));
   ("Retail", (30000, 90000)); ("Energy", (60000, 200000));
   ("Gaming", (45000, 150000)); ("Media", (40000, 140000));
   ("Gov", (40000, 120000)); ("Aerospace", (70000, 210000))]%string.

(** [base[industry] || [40000, 120000]] *)
Definition incomeRange (industry : string) : Z * Z :=
  match property industry base with
  | Some r => r
  | None => (40000, 120000)
  end.

Definition moodBias : list (string * Z) :=
  [("burnout", 15); ("stressed", 10); ("distracted", 8); ("focused", -5);
   ("calm", -5); ("flow", -8); ("optimistic", -3); ("curious", 0)]%string.

(** [moodBias[mood] || 0] *)
Definition moodBiasOf (mood : string) : Z :=
  match property mood moodBias with
  | Some b => if b =? 0 then 0 else b
  | None => 0
  end.

Definition pool : list string :=
  ["climbing";"reading";"ai";"music";"crypto";"gardening";"photography";
   "biking";"chess";"vr";"cooking";"yoga";"travel";"gaming"]%string.

Section WithNumbers.
Context {T : Type} `{JsNum T}.
Variable host : Host T.

Definition makeId (dateNow : Z) : Rand T string :=
  let* u := random in
  ret (substring 2 6 (toString36 host u) ++ "-"
       ++ slice_last 4 (toString36 host (ofZ dateNow)))%string.

Definition sampleIncome (industry : string) : Rand T Z :=
  let b := incomeRange industry in
  let* r := rand (ofZ (fst b)) (ofZ (snd b)) in
  ret (round (div r (ofZ 1000)) * 1000).

Definition riskFromIncomeAndMood (income : Z) (mood : string)
  : Rand T Z :=
  let* r := rand (ofZ 10) (ofZ 90) in
  let r := if 150000 <? income then sub r (ofZ 10) else r in
  let r := if income <? 40000 then add r (ofZ 10) else r in
  let r := add r (ofZ (moodBiasOf mood)) in
  ret (clamp Z.ltb (round r) 0 100).

(** The comparator [() => Math.random() - 0.5]. *)
Definition randomOrder : Rand T T :=
  let* u := random in ret (sub u (dec 5 10)).

(** [Array.prototype.sort] with that comparator.  ECMAScript leaves the
    algorithm to the engine; the model is the insertion sort engines
    use on short arrays: each element is moved left past the elements
    the comparator ranks above it.  [sorted] is the sorted prefix, last
    element first. *)
Fixpoint sort_insert {A} (element : A) (sorted : list A)
  : Rand T (list A) :=
  match sorted with
  | [] => ret [element]
  | tmp :: rest =>
      let* order := randomOrder in
      if ltb (ofZ 0) order
      then (let* l := sort_insert element rest in ret (tmp :: l))
      else ret (element :: tmp :: rest)
  end.

Fixpoint sort_loop {A} (sorted todo : list A) : Rand T (list A) :=
  match todo with
  | [] => ret (rev sorted)
  | element :: todo' =>
      let* sorted' := sort_insert element sorted in
      sort_loop sorted' todo'
  end.

Definition sort_random {A} (arr : list A) : Rand T (list A) :=
  sort_loop [] arr.

Definition interestsSet : Rand T (list string) :=
  let* n := randi (ofZ 2) (ofZ 6) in
  let* shuffled := sort_random pool in
  ret (firstn (Z.to_nat n) shuffled).

Definition generate (dateNow : Z) : Rand T Profile :=
  let undef := "undefined"%string in
  let* ind := choice undef industries in
  let* job := choice undef jobs in
  let* mood := weightedChoice undef emotional in
  let* age := randi (ofZ 18) (ofZ 70) in
  let* inc := sampleIncome ind in
  let* risk := riskFromIncomeAndMood inc mood in
  let* id := makeId dateNow in
  let* first := choice undef firstNames in
  let* last := choice undef lastNames in
  let* gender := choice undef genders in
  let* education := choice undef education_levels in
  let* city := choice undef cities in
  let* rel := choice undef relationship in
  let* activity := choice undef activities in
  let* interests := interestsSet in
  let* ago := randi (ofZ 0) (ofZ (3600 * 1000)) in
  ret {| id := id;
         name := (first ++ " " ++ last)%string;
         age := age;
         gender := gender;
         job_title := job;
         industry := ind;
         income_usd := inc;
         education := education;
         location_city := city;
         relationship_status := rel;
         emotional_state := mood;
         activity := activity;
         interests := interests;
         risk_score := risk;
         last_active := toISOString host (dateNow - ago) |}.
End WithNumbers.

End ProfileFactory.

(* ------------------------------------------------------------------ *)
(** ** Capsule manager *)

(** The inline style of a capsule node: the properties the code writes.
    [None] (the empty string for [filter]) is a property never set. *)
Module Css.
Record Style (T : Type) := mkStyle {
  opacity : option T;
  left : option Z;                 (* px *)
  top : option Z;                  (* px *)
  transform : option (T * T);      (* translate3d(x px, y px, 0) *)
  filter : string;
}.
Arguments mkStyle {T}.
Arguments opacity {T}.
Arguments left {T}.
Arguments top {T}.
Arguments transform {T}.
Arguments filter {T}.

Definition empty {T} : Style T :=
  {| opacity := None; left := None; top := None; transform := None;
     filter := EmptyString |}.
End Css.

Module CapsuleManager.

Record Child := mkChild { childClass : string; textContent : string }.

Record Node (T : Type) := mkNode {
  className : string;
  style : Css.Style T;
  children : list Child;
}.
Arguments mkNode {T}.
Arguments className {T}.
Arguments style {T}.
Arguments children {T}.

(** The fields of the class. [pool] is the array, last pushed last. *)
Record Manager (T : Type) := mkManager {
  pool : list nat;
  active : gset nat;
  spawnAccumulator : T;
}.
Arguments mkManager {T}.
Arguments pool {T}.
Arguments active {T}.
Arguments spawnAccumulator {T}.

(** The capsule nodes ever created, and the children of the container
    element. *)
Record Document (T : Type) := mkDocument {
  nodes : gmap nat (Node T);
  nextId : nat;
  container : list nat;
}.
Arguments mkDocument {T}.
Arguments nodes {T}.
Arguments nextId {T}.
Arguments container {T}.

(** The closure of a running [typeText]: characters not yet shown. *)
Record TypeJob (T : Type) := mkTypeJob {
  chars : list ascii;
  secondsPerChar : T;
}.
Arguments mkTypeJob {T}.
Arguments chars {T}.
Arguments secondsPerChar {T}.

(** Callbacks scheduled and not yet run, by node: typewriter steps,
    the revert of a pulse (with the filter to restore), the timeout
    that starts the dissolve (with its delay in ms) and the animation
    frames of a dissolve (with its start time). *)
Record Pending (T : Type) := mkPending {
  typing : gmap nat (TypeJob T);
  pulses : gmap nat string;
  holds : gmap nat Z;
  dissolving : gmap nat T;
}.
Arguments mkPending {T}.
Arguments typing {T}.
Arguments pulses {T}.
Arguments holds {T}.
Arguments dissolving {T}.

Record World (T : Type) := mkWorld {
  cm : Manager T;
  doc : Document T;
  pending : Pending T;
}.
Arguments mkWorld {T}.
Arguments cm {T}.
Arguments doc {T}.
Arguments pending {T}.

(** What the environment delivers. *)
Inductive Event (T : Type) :=
| EvTick (dt : T) (dateNow : Z)   (* [capsules.tick(dt)] from the ticker *)
| EvTypeTimer (n : nat)           (* a [setTimeout(step, ..)] fires *)
| EvPulseTimer (n : nat)          (* the revert of [pulseHighlights] *)
| EvHoldTimer (n : nat) (now : T) (* [dissolve(node)], [nowMs() = now] *)
| EvFrame (n : nat) (now : T).    (* [jitter], [nowMs() = now] *)
Arguments EvTick {T}.
Arguments EvTypeTimer {T}.
Arguments EvPulseTimer {T}.
Arguments EvHoldTimer {T}.
Arguments EvFrame {T}.

Definition blocks : list string :=
  ["▁"; "▂"; "▃"; "▄"; "▅"; "▆"; "▇"; "█"]%string.

(** [arr.join('')]: an [undefined] element contributes nothing. *)
Definition join_cells (cells : list (option string)) : string :=
  String.concat EmptyString (map (fun c => default EmptyString c) cells).

Definition hexDigit (n : N) : ascii :=
  nth (N.to_nat n)
      (list_ascii_of_string "0123456789abcdef") "0"%char.

(** [b.toString(16).padStart(2, '0')] for a byte *)
Definition hexByte (b : N) : string :=
  String (hexDigit (b / 16)) (String (hexDigit (b mod 16)) EmptyString).

Definition setContainer {T} (c : list nat) (d : Document T) : Document T :=
  {| nodes := nodes d; nextId := nextId d; container := c |}.

Definition setNode {T} (n : nat) (nd : Node T) (d : Document T)
  : Document T :=
  {| nodes := <[n := nd]> (nodes d); nextId := nextId d;
     container := container d |}.

(** The node behind a reference held by the code; a reference is never
    dangling, and the default is not reached. *)
Definition getNodeOf {T} (d : Document T) (n : nat) : Node T :=
  default (mkNode EmptyString Css.empty []) (nodes d !! n).

Section WithNumbers.
Context {T : Type} `{JsNum T}.
Variable cfg : Config T.
Variable page : Page.
Variable host : Host T.

Definition makeSparkCells (seed : Z) : Rand T (list (option string)) :=
  let* arr :=
    replicateM 10
      (let* u := random in
       ret (clamp Z.ltb
              (round (add (ofZ seed)
                          (mul (sub u (dec 5 10)) (ofZ 20))))
              0 100)) in
  ret (map (fun v => blocks !! Z.to_nat (floor (div (ofZ v) (dec 125 10))))
           arr).

Definition makeSparkline (seed : Z) : Rand T string :=
  let* cells := makeSparkCells seed in ret (join_cells cells).

Definition pickMode : Rand T string :=
  let modes := ["json"; "inline"]%string in
  let modes :=
    if allowHexCapsules cfg then modes ++ ["hex"%string] else modes in
  choice "undefined"%string modes.

Definition getNode (w : World T) : nat * World T :=
  match last (pool (cm w)) with
  | Some n =>
      (n, {| cm := {| pool := removelast (pool (cm w));
                      active := active (cm w);
                      spawnAccumulator := spawnAccumulator (cm w) |};
             doc := doc w; pending := pending w |})
  | None =>
      let n := nextId (doc w) in
      (n, {| cm := cm w;
             doc := {| nodes := <[n := mkNode EmptyString Css.empty []]>
                                  (nodes (doc w));
                       nextId := S n;
                       container := container (doc w) |};
             pending := pending w |})
  end.

Definition releaseNode (n : nat) (w : World T) : World T :=
  {| cm := {| pool := pool (cm w) ++ [n];
              active := active (cm w);
              spawnAccumulator := spawnAccumulator (cm w) |};
     doc := setContainer
              (base.filter (fun m => m <> n) (container (doc w))) (doc w);
     pending := pending w |}.

(** The text of a capsule, by mode. *)
Definition capsuleText (mode : string) (profile : Profile) : string :=
  if String.eqb mode "json" then JSON_stringify host profile true
  else if String.eqb mode "inline" then
    String.concat " | "
      [ "id=" ++ id profile;
        "age=" ++ Z_toString (age profile);
        "job=" ++ job_title profile;
        "emotional=" ++ emotional_state profile;
        "income=" ++ formatMoneyUSD (ofZ (income_usd profile) : T);
        "risk=" ++ Z_toString (risk_score profile) ]%string
  else
    let raw := JSON_stringify host profile false in
    let bytes :=
      map (fun ch => N.land (N_of_ascii ch) 255)
          (list_ascii_of_string raw) in
    String.concat " " (map hexByte bytes).

(** [content.textContent += s], [content] being the second child *)
Definition appendContent (s : string) (nd : Node T) : Node T :=
  {| className := className nd; style := style nd;
     children :=
       alter (fun c => mkChild (childClass c) (textContent c ++ s)%string)
             1%nat (children nd) |}.

Definition contentText (nd : Node T) : string :=
  default EmptyString (textContent <$> children nd !! 1%nat).

Definition setOpacity (o : T) (nd : Node T) : Node T :=
  let s := style nd in
  {| className := className nd;
     style := {| Css.opacity := Some o; Css.left := Css.left s;
                 Css.top := Css.top s; Css.transform := Css.transform s;
                 Css.filter := Css.filter s |};
     children := children nd |}.

Definition setFilter (f : string) (nd : Node T) : Node T :=
  let s := style nd in
  {| className := className nd;
     style := {| Css.opacity := Css.opacity s; Css.left := Css.left s;
                 Css.top := Css.top s; Css.transform := Css.transform s;
                 Css.filter := f |};
     children := children nd |}.

(** The callback [done] of [spawnRandom]: [pulseHighlights(content)],
    full opacity, and the timeout that will start the dissolve. *)
Definition typeDone (n : nat) (w : World T) : Rand T (World T) :=
  let nd := getNodeOf (doc w) n in
  let pulse := String.eqb (contentText nd) EmptyString in
  let original := Css.filter (style nd) in
  let nd := if pulse then setFilter "brightness(1.5)" nd else nd in
  let nd := setOpacity (ofZ 1) nd in
  let* hold := randi (ofZ 2000) (ofZ 4000) in
  ret {| cm := cm w;
         doc := setNode n nd (doc w);
         pending :=
           {| typing := delete n (typing (pending w));
              pulses := if pulse
                        then <[n := original]> (pulses (pending w))
                        else pulses (pending w);
              holds := <[n := hold]> (holds (pending w));
              dissolving := dissolving (pending w) |} |}.

(** The closure [step] of [typeText]. *)
Definition typeStep (n : nat) (job : TypeJob T) (w : World T)
  : Rand T (World T) :=
  let take :=
    Z.max 1 (floor (div (dec 16 1000) (secondsPerChar job))) in
  let shown := firstn (Z.to_nat take) (chars job) in
  let rest := skipn (Z.to_nat take) (chars job) in
  let nd :=
    appendContent (string_of_list_ascii shown) (getNodeOf (doc w) n) in
  let w :=
    {| cm := cm w; doc := setNode n nd (doc w);
       pending :=
         {| typing := <[n := mkTypeJob rest (secondsPerChar job)]>
                        (typing (pending w));
            pulses := pulses (pending w);
            holds := holds (pending w);
            dissolving := dissolving (pending w) |} |} in
  match rest with
  | [] => typeDone n w
  | _ :: _ => ret w
  end.

Definition spawnRandom (dateNow : Z) (w : World T) : Rand T (World T) :=
  let* profile := ProfileFactory.generate host dateNow in
  let* mode := pickMode in
  let (n, w) := getNode w in
  let* left :=
    randi (ofZ 10) (ofZ (Z.max 20 (innerWidth page - 360))) in
  let* top :=
    randi (ofZ 10) (ofZ (Z.max 20 (innerHeight page - 160))) in
  let old := style (getNodeOf (doc w) n) in
  let css :=
    {| Css.opacity := Some (ofZ 0); Css.left := Some left;
       Css.top := Some top; Css.transform := Css.transform old;
       Css.filter := Css.filter old |} in
  let hdr := mkChild "hdr" "PROFILE_STREAM" in
  let content := mkChild EmptyString EmptyString in
  let* u := random in
  let spark := ltb u (dec 1 10) in
  let text := capsuleText mode profile in
  let* sparkChild :=
    if spark then
      let* line := makeSparkline (risk_score profile) in
      ret [mkChild "spark" ("risk_ticks " ++ line)%string]
    else ret [] in
  let nd := {| className := ("capsule " ++ mode)%string; style := css;
               children := [hdr; content] ++ sparkChild |} in
  let w :=
    {| cm := {| pool := pool (cm w);
                active := {[n]} ∪ active (cm w);
                spawnAccumulator := spawnAccumulator (cm w) |};
       doc := {| nodes := <[n := nd]> (nodes (doc w));
                 nextId := nextId (doc w);
                 container :=
                   base.filter (fun m => m <> n) (container (doc w))
                   ++ [n] |};
       pending := pending w |} in
  let* spc := rand (dec 4 100) (dec 8 100) in
  typeStep n (mkTypeJob (list_ascii_of_string text) spc) w.

Definition tick (dt : T) (dateNow : Z) (w : World T)
  : Rand T (World T) :=
  let baseRate := ofZ 1 in
  let rate := mul baseRate (capsuleRateScale cfg) in
  let acc := add (spawnAccumulator (cm w)) (mul dt rate) in
  let setAcc a :=
    {| cm := {| pool := pool (cm w); active := active (cm w);
                spawnAccumulator := a |};
       doc := doc w; pending := pending w |} in
  let* threshold := rand (dec 6 10) (dec 14 10) in
  if leb threshold acc then
    let w := setAcc (ofZ 0) in
    if Z.of_nat (size (active (cm w))) <? maxCapsules cfg
    then spawnRandom dateNow w
    else ret w
  else ret (setAcc acc).

(** [dissolve(node)] up to its first [requestAnimationFrame]. *)
Definition dissolve (n : nat) (now : T) (w : World T) : World T :=
  {| cm := cm w; doc := doc w;
     pending :=
       {| typing := typing (pending w);
          pulses := pulses (pending w);
          holds := delete n (holds (pending w));
          dissolving := <[n := now]> (dissolving (pending w)) |} |}.

(** The closure [jitter] of [dissolve], started at [start]. *)
Definition jitter (n : nat) (start now : T) (w : World T)
  : Rand T (World T) :=
  let duration := ofZ 500 in
  let t := div (sub now start) duration in
  if leb (ofZ 1) t then
    let w :=
      {| cm := {| pool := pool (cm w);
                  active := active (cm w) ∖ {[n]};
                  spawnAccumulator := spawnAccumulator (cm w) |};
         doc := doc w;
         pending :=
           {| typing := typing (pending w);
              pulses := pulses (pending w);
              holds := holds (pending w);
              dissolving := delete n (dissolving (pending w)) |} |} in
    ret (releaseNode n w)
  else
    let fade := sub (ofZ 1) t in
    let* u1 := random in
    let* u2 := random in
    let nd := getNodeOf (doc w) n in
    let s := style nd in
    let nd :=
      {| className := className nd;
         style :=
           {| Css.opacity := Some fade; Css.left := Css.left s;
              Css.top := Css.top s;
              Css.transform :=
                Some (mul (sub u1 (dec 5 10)) (ofZ 6),
                      mul (sub u2 (dec 5 10)) (ofZ 6));
              Css.filter := Css.filter s |};
         children := children nd |} in
    ret {| cm := cm w; doc := setNode n nd (doc w);
           pending := pending w |}.

(** The timeout of [pulseHighlights] restoring the filter. *)
Definition pulseRevert (n : nat) (original : string) (w : World T)
  : World T :=
  {| cm := cm w;
     doc := setNode n (setFilter original (getNodeOf (doc w) n)) (doc w);
     pending :=
       {| typing := typing (pending w);
          pulses := delete n (pulses (pending w));
          holds := holds (pending w);
          dissolving := dissolving (pending w) |} |}.

(** One callback of the event loop.  An event whose callback was never
    scheduled cannot happen: [None]. *)
Definition step (ev : Event T) (w : World T)
  : Rand T (option (World T)) :=
  match ev with
  | EvTick dt dateNow =>
      let* w' := tick dt dateNow w in ret (Some w')
  | EvTypeTimer n =>
      match typing (pending w) !! n with
      | Some job => let* w' := typeStep n job w in ret (Some w')
      | None => ret None
      end
  | EvPulseTimer n =>
      match pulses (pending w) !! n with
      | Some original => ret (Some (pulseRevert n original w))
      | None => ret None
      end
  | EvHoldTimer n now =>
      match holds (pending w) !! n with
      | Some _ => ret (Some (dissolve n now w))
      | None => ret None
      end
  | EvFrame n now =>
      match dissolving (pending w) !! n with
      | Some start => let* w' := jitter n start now w in ret (Some w')
      | None => ret None
      end
  end.

Fixpoint run (evs : list (Event T)) (w : World T)
  : Rand T (option (World T)) :=
  match evs with
  | [] => ret (Some w)
  | ev :: evs' =>
      let* r := step ev w in
      match r with
      | Some w' => run evs' w'
      | None => ret None
      end
  end.

Definition constructor : World T :=
  {| cm := {| pool := []; active := ∅; spawnAccumulator := ofZ 0 |};
     doc := {| nodes := ∅; nextId := 0; container := [] |};
     pending := {| typing := ∅; pulses := ∅; holds := ∅;
                   dissolving := ∅ |} |}.
End WithNumbers.

End CapsuleManager.

(* ------------------------------------------------------------------ *)
(** ** Vocabulary of the properties *)

(** A tape of [Math.random()] results: every cell lies in [0, 1). *)
Definition unit_tape (t : Tape Q) : Prop :=
  forall n, (0 <= t n /\ t n < 1)%Q.

(** Started on a unit tape, [m] returns a value satisfying [P] and leaves
    a unit tape. *)
Definition post {A} (m : Rand Q A) (P : A -> Prop) : Prop :=
  forall t, unit_tape t -> P (fst (m t)) /\ unit_tape (snd (m t)).

(** Whatever the tape, [m] returns a value satisfying [P]. *)
Definition always {T A} (m : Rand T A) (P : A -> Prop) : Prop :=
  forall t, P (fst (m t)).

(** The risk score as the specification words it. *)
Module Spec.

Definition incomeAdjustment (income : Z) : Z :=
  if 150000 <? income then -10 else if income <? 40000 then 10 else 0.

Definition moodAdjustment (mood : string) : Z :=
  if String.eqb mood "burnout" then 15
  else if String.eqb mood "stressed" then 10
  else if String.eqb mood "distracted" then 8
  else if String.eqb mood "focused" then -5
  else if String.eqb mood "calm" then -5
  else if String.eqb mood "flow" then -8
  else if String.eqb mood "optimistic" then -3
  else if String.eqb mood "curious" then 0
  else 0.

Definition riskScore (jitter : Q) (income : Z) (mood : string) : Z :=
  clamp Z.ltb
    (Exact.round (jitter + inject_Z (incomeAdjustment income)
                  + inject_Z (moodAdjustment mood)))
    0 100.

End Spec.

Definition interests_ok (l : list string) : Prop :=
  (2 <= length l <= 6)%nat /\ NoDup l
  /\ forall s, In s l -> In s ProfileFactory.pool.

Definition risk_ok (p : Profile) : Prop :=
  exists j : Q,
    (10 <= j /\ j < 90)%Q
    /\ risk_score p = Spec.riskScore j (income_usd p) (emotional_state p).

Definition income_ok (p : Profile) : Prop :=
  (1000 | income_usd p)
  /\ fst (ProfileFactory.incomeRange (industry p)) <= income_usd p
     <= snd (ProfileFactory.incomeRange (industry p)).

Section CapsuleVocabulary.
Context {T : Type} `{JsNum T}.
Import CapsuleManager.

(** What a step of the typewriter leaves alone. *)
Definition same_frame (n : nat) (w w' : World T) : Prop :=
  cm w' = cm w
  /\ nextId (doc w') = nextId (doc w)
  /\ container (doc w') = container (doc w)
  /\ Css.transform (style (getNodeOf (doc w') n))
     = Css.transform (style (getNodeOf (doc w) n))
  /\ className (getNodeOf (doc w') n) = className (getNodeOf (doc w) n)
  /\ dissolving (pending w') = dissolving (pending w).

(** What [spawnRandom] does to the manager and to the node it takes, the
    node and the world being those returned by [getNode]. *)
Definition spawn_effect (w : World T) (w' : World T) : Prop :=
  let n := fst (getNode w) in
  let w1 := snd (getNode w) in
  active (cm w') = {[n]} ∪ active (cm w)
  /\ spawnAccumulator (cm w') = spawnAccumulator (cm w)
  /\ pool (cm w') = pool (cm w1)
  /\ nextId (doc w') = nextId (doc w1)
  /\ In n (container (doc w'))
  /\ Css.transform (style (getNodeOf (doc w') n))
     = Css.transform (style (getNodeOf (doc w1) n))
  /\ dissolving (pending w') = dissolving (pending w).

End CapsuleVocabulary.

Section DissolveVocabulary.
Import CapsuleManager.

(** Nothing but the accumulator differs between [w] and [w']. *)
Definition unchanged_but_accumulator (w w' : World Q) : Prop :=
  active (cm w') = active (cm w) /\ pool (cm w') = pool (cm w)
  /\ doc w' = doc w /\ pending w' = pending w.

(** The animation frames of the dissolve of node [n], at [times]. *)
Definition frames (n : nat) (times : list Q) : list (Event Q) :=
  map (EvFrame n) times.

(** The opacity the fade gives at time [now]. *)
Definition fadeAt (start now : Q) : Q := (1 - (now - start) / 500)%Q.

Definition opacityOf (w : World Q) (n : nat) : option Q :=
  Css.opacity (style (getNodeOf (doc w) n)).

End DissolveVocabulary.

(* ------------------------------------------------------------------ *)
(** ** Concrete inputs *)

Definition demoTape : Tape Q := fun n => Z.of_nat (n * 37 mod 101) # 101.

Definition halfTape : Tape Q := fun _ => 1 # 2.

Definition highTape : Tape Q := fun _ => 9 # 10.

Definition halfTape64 : Tape spec_float := fun _ => dec 5 10.

(** The largest double below 1. *)
Definition lastDouble : spec_float := S754_finite false (2 ^ 53 - 1) (-53).

Definition demoHost : Host Q :=
  {| toString36 := fun _ => "0.k3f9zq1xabc"%string;
     toISOString := fun _ => "2025-08-11T09:30:00.000Z"%string;
     JSON_stringify := fun p _ => ("{id:" ++ id p ++ "}")%string |}.

Definition demoHost64 : Host spec_float :=
  {| toString36 := fun _ => "0.k3f9zq1xabc"%string;
     toISOString := fun _ => "2025-08-11T09:30:00.000Z"%string;
     JSON_stringify := fun p _ => ("{id:" ++ id p ++ "}")%string |}.

Definition demoPage : Page :=
  {| clientWidth := 800; clientHeight := 600; innerWidth := 800;
     innerHeight := 600; activeColor := "#00ff66" |}.

Definition demoColumn : MatrixRain.Column Q :=
  {| MatrixRain.x := 48; MatrixRain.y := 120%Q; MatrixRain.speed := 90%Q;
     MatrixRain.streamLength := 12;
     MatrixRain.glyphIndices :=
       map (fun k => Z.of_nat (k * 5 mod 134)) (seq 1 60);
     MatrixRain.drift := 0%Q |}.

Definition demoRain : MatrixRain.Rain Q :=
  {| MatrixRain.columns := [demoColumn]; MatrixRain.glyphSize := 16;
     MatrixRain.columnCount := 8;
     MatrixRain.characters := MatrixRain.buildGlyphSet;
     MatrixRain.sheet := {| MatrixRain.cols := 32; MatrixRain.size := 16 |} |}.

(** The configuration after the [?dense] preset, in binary64, on a
    viewport 1600 px wide. *)
Definition denseConfig : Config spec_float :=
  {| densityScale := dec 16 10; speedScale := ofZ 1;
     capsuleRateScale := ofZ 1; glowIntensity := dec 6 10;
     showCode := true; allowHexCapsules := true; maxCapsules := 12;
     theme := "green"; showFps := false |}.

Definition widePage : Page :=
  {| clientWidth := 1600; clientHeight := 900; innerWidth := 1600;
     innerHeight := 900; activeColor := "#00ff66" |}.

Definition scenarioProfile : Profile :=
  {| id := "x1-abcd"; name := "Ava Kim"; age := 30; gender := "female";
     job_title := "Engineer"; industry := "Tech"; income_usd := 95000;
     education := "BSc"; location_city := "Berlin";
     relationship_status := "single"; emotional_state := "calm";
     activity := "coding"; interests := ["chess"; "vr"]%string;
     risk_score := 40; last_active := "2025-08-11T09:30:00.000Z" |}.

(** *** A recorded session *)

Section Session.
Import CapsuleManager.

Definition sessionConfig : Config Q := CONFIG.

Definition ticks (k : nat) : list (Event Q) :=
  repeat (EvTick (1 # 20)%Q 1754904600000) k.

(** The first capsule: spawned by the 15th tick, typed out by 46 timer
    steps and held; its dissolve starts at 7000 ms. *)
Definition untilDissolve : list (Event Q) :=
  ticks 15 ++ repeat (EvTypeTimer 0) 46 ++ [EvHoldTimer 0 7000%Q].

(** ... and runs on frames 16, 250 and 500 ms later. *)
Definition firstLife : list (Event Q) :=
  untilDissolve ++ frames 0 [7016; 7250; 7500]%Q.

(** The typewriter steps of the second capsule, spawned by 17 more
    ticks. *)
Definition secondTyping : list (Event Q) := repeat (EvTypeTimer 0) 15.

Definition session (evs : list (Event Q)) : option (World Q) * Tape Q :=
  run sessionConfig demoPage demoHost evs constructor demoTape.

Definition styleOf (ow : option (World Q)) (n : nat)
  : option (Css.Style Q) :=
  w ← ow; nd ← nodes (doc w) !! n; Some (style nd).

(** The opacity of node [n] after each event of [evs]. *)
Fixpoint opacityLog (n : nat) (evs : list (Event Q)) (w : World Q)
  (t : Tape Q) : list (option Q) :=
  match evs with
  | [] => []
  | ev :: evs' =>
      match step sessionConfig demoPage demoHost ev w t with
      | (Some w', t') => opacityOf w' n :: opacityLog n evs' w' t'
      | (None, _) => []
      end
  end.

(** Some opacity of the log is zero. *)
Definition reachesZero (log : list (option Q)) : Prop :=
  Exists (fun o => match o with Some q => (q == 0)%Q | None => False end)
         log.

Definition dissolvingWorld : World Q :=
  default constructor (fst (session untilDissolve)).

Definition dissolvingTape : Tape Q := snd (session untilDissolve).

End Session.

(* ------------------------------------------------------------------ *)
(** ** The rest of the page *)

(** [Math.max(a, b)] and [Math.min(a, b)] on numbers other than NaN *)
Definition Math_max {T} `{JsNum T} (a b : T) : T := if ltb a b then b else a.

Definition Math_min {T} `{JsNum T} (a b : T) : T := if ltb b a then b else a.

(** [Math.ceil] *)
Definition Math_ceil {T} `{JsNum T} (a : T) : Z := - floor (sub (ofZ 0) a).

(** [applyTheme(theme)] on the class list of the body, a list of tokens
    without repetition. *)
Module Theme.

Definition themeClasses : list string :=
  ["theme-green"; "theme-cyan"; "theme-magenta"]%string.

(** [classList.remove(...tokens)] *)
Definition classList_remove (tokens classList : list string) : list string :=
  base.filter (fun c => c ∉ tokens) classList.

(** [classList.add(token)] *)
Definition classList_add (token : string) (classList : list string)
  : list string :=
  if decide (token ∈ classList) then classList else classList ++ [token].

Definition applyTheme (theme : string) (classList : list string)
  : list string :=
  let classList := classList_remove themeClasses classList in
  let cls :=
    if String.eqb theme "cyan" then "theme-cyan"%string
    else if String.eqb theme "magenta" then "theme-magenta"%string
    else "theme-green"%string in
  classList_add cls classList.

End Theme.

(** [resizeCanvas()]: the backing store, the CSS size and the scale of the
    transform of the canvas.  [devicePixelRatio] is [None] where the
    window has no such property. *)
Module Canvas.

Record Canvas (T : Type) := mkCanvas {
  width : Z;
  height : Z;
  styleWidth : Z;                 (* px *)
  styleHeight : Z;                (* px *)
  scale : T;                      (* [setTransform(dpr, 0, 0, dpr, 0, 0)] *)
}.
Arguments mkCanvas {T}.
Arguments width {T}.
Arguments height {T}.
Arguments styleWidth {T}.
Arguments styleHeight {T}.
Arguments scale {T}.

Section WithNumbers.
Context {T : Type} `{JsNum T}.

(** [window.devicePixelRatio || 1]: zero and [undefined] are falsy (a
    ratio is never NaN). *)
Definition ratioOrOne (devicePixelRatio : option T) : T :=
  match devicePixelRatio with
  | Some r => if leb r (ofZ 0) && leb (ofZ 0) r then ofZ 1 else r
  | None => ofZ 1
  end.

Definition resizeCanvas (devicePixelRatio : option T) (w h : Z) : Canvas T :=
  let dpr :=
    Math_max (ofZ 1) (Math_min (ofZ 2) (ratioOrOne devicePixelRatio)) in
  {| width := floor (mul (ofZ w) dpr);
     height := floor (mul (ofZ h) dpr);
     styleWidth := w;
     styleHeight := h;
     scale := dpr |}.

End WithNumbers.

End Canvas.

(** [buildGlyphSheet()]: the size of the offscreen canvas and the
    [fillText] calls that paint it, each a character and the centre it is
    drawn at. *)
Module GlyphSheet.

Record Painted (T : Type) := mkPainted {
  sheetWidth : Z;
  sheetHeight : Z;
  texts : list (N * T * T);
  sheet : MatrixRain.Sheet;
}.
Arguments mkPainted {T}.
Arguments sheetWidth {T}.
Arguments sheetHeight {T}.
Arguments texts {T}.
Arguments sheet {T}.

Section WithNumbers.
Context {T : Type} `{JsNum T}.

Definition buildGlyphSheet (size : Z) (characters : list N) : Painted T :=
  let cols := 32 in
  let rows :=
    Math_ceil (div (ofZ (Z.of_nat (length characters))) (ofZ cols)) in
  let half := div (ofZ size) (ofZ 2) in
  {| sheetWidth := cols * size;
     sheetHeight := rows * size;
     texts :=
       imap (fun i ch =>
               (ch,
                add (ofZ (Z.rem (Z.of_nat i) cols * size)) half,
                add (ofZ (Z.of_nat i / cols * size)) half))
            characters;
     sheet := {| MatrixRain.cols := cols; MatrixRain.size := size |} |}.

End WithNumbers.

End GlyphSheet.

(** The ticker: [tick()] of the bootstrap, one animation frame. *)
Module Ticker.

Record Ticker (T : Type) := mkTicker {
  last : T;
  fpsAcc : T;
  fpsCount : Z;
  fpsText : string;               (* [fpsEl.textContent] *)
  rain : MatrixRain.Rain T;
  capsules : CapsuleManager.World T;
}.
Arguments mkTicker {T}.
Arguments last {T}.
Arguments fpsAcc {T}.
Arguments fpsCount {T}.
Arguments fpsText {T}.
Arguments rain {T}.
Arguments capsules {T}.

(** What the browser runs next: an animation frame of the ticker, at
    time [t], or a callback the capsule manager left pending. *)
Inductive Event (T : Type) :=
| Frame (t : T) (dateNow : Z)
| Callback (ev : CapsuleManager.Event T).
Arguments Frame {T}.
Arguments Callback {T}.

Section WithNumbers.
Context {T : Type} `{JsNum T}.
Variable cfg : Config T.
Variable page : Page.
Variable host : Host T.

(** The elapsed time handed to the rain and to the capsules. *)
Definition elapsed (t : T) (k : Ticker T) : T :=
  Math_min (dec 5 100) (div (sub t (last k)) (ofZ 1000)).

(** [tick()], [nowMs()] returning [t] and [Date.now()] returning
    [dateNow]; the result carries what [draw] painted. *)
Definition tick (t : T) (dateNow : Z) (k : Ticker T)
  : Rand T (Ticker T * list (MatrixRain.Command T)) :=
  let dt := elapsed t k in
  let* rain' := MatrixRain.update cfg page (rain k) dt in
  let* painted := MatrixRain.draw cfg page rain' in
  let* capsules' :=
    CapsuleManager.tick cfg page host dt dateNow (capsules k) in
  let acc := add (fpsAcc k) dt in
  let count := fpsCount k + 1 in
  if leb (dec 5 10) acc then
    let fps := round (div (ofZ count) acc) in
    ret ({| last := t; fpsAcc := ofZ 0; fpsCount := 0;
            fpsText := if showFps cfg
                       then (Z_toString fps ++ " fps")%string
                       else fpsText k;
            rain := rain'; capsules := capsules' |}, painted)
  else
    ret ({| last := t; fpsAcc := acc; fpsCount := count;
            fpsText := fpsText k;
            rain := rain'; capsules := capsules' |}, painted).

(** One turn of the event loop; [capsules.tick] is called by the ticker
    only. *)
Definition step (ev : Event T) (k : Ticker T)
  : Rand T (option (Ticker T * list (MatrixRain.Command T))) :=
  match ev with
  | Frame t dateNow => let* r := tick t dateNow k in ret (Some r)
  | Callback (CapsuleManager.EvTick _ _) => ret None
  | Callback ev =>
      let* r := CapsuleManager.step cfg page host ev (capsules k) in
      ret (option_map
             (fun c => ({| last := last k; fpsAcc := fpsAcc k;
                           fpsCount := fpsCount k; fpsText := fpsText k;
                           rain := rain k; capsules := c |}, []))
             r)
  end.

Fixpoint run (evs : list (Event T)) (k : Ticker T)
  : Rand T (option (Ticker T)) :=
  match evs with
  | [] => ret (Some k)
  | ev :: evs' =>
      let* r := step ev k in
      match r with
      | Some (k', _) => run evs' k'
      | None => ret None
      end
  end.


End WithNumbers.

End Ticker.

(** [UI.bind()] and the page as a whole: [CONFIG] is mutable state, the
    controls write it. *)
Module UI.

(** The [input] and [change] events of the controls, each with the value
    the handler reads ([parseFloat(e.target.value)], [e.target.checked],
    [e.target.value]). *)
Inductive Input (T : Type) :=
| Density (value : T)
| Speed (value : T)
| CapsuleRate (value : T)
| Glow (value : T)
| ShowCode (checked : bool)
| ShowHex (checked : bool)
| ThemeSelect (value : string)
| ShowFps (checked : bool).
Arguments Density {T}.
Arguments Speed {T}.
Arguments CapsuleRate {T}.
Arguments Glow {T}.
Arguments ShowCode {T}.
Arguments ShowHex {T}.
Arguments ThemeSelect {T}.
Arguments ShowFps {T}.

(** The page: [CONFIG], the state of the ticker, the class list of the
    body, the number written to the custom property [--glow] and the
    inline opacity of the FPS element ([None]: never written). *)
Record App (T : Type) := mkApp {
  config : Config T;
  ticker : Ticker.Ticker T;
  bodyClassList : list string;
  glowProperty : option T;
  fpsOpacity : option string;
}.
Arguments mkApp {T}.
Arguments config {T}.
Arguments ticker {T}.
Arguments bodyClassList {T}.
Arguments glowProperty {T}.
Arguments fpsOpacity {T}.

(** What happens next on the page: the browser runs a frame or a
    callback, or the user moves a control. *)
Inductive Event (T : Type) :=
| Browser (ev : Ticker.Event T)
| User (ev : Input T).
Arguments Browser {T}.
Arguments User {T}.

Section WithNumbers.
Context {T : Type} `{JsNum T}.
Variable page : Page.
Variable host : Host T.

Definition setConfig (c : Config T) (a : App T) : App T :=
  {| config := c; ticker := ticker a; bodyClassList := bodyClassList a;
     glowProperty := glowProperty a; fpsOpacity := fpsOpacity a |}.

Definition setRain (r : MatrixRain.Rain T) (k : Ticker.Ticker T)
  : Ticker.Ticker T :=
  {| Ticker.last := Ticker.last k; Ticker.fpsAcc := Ticker.fpsAcc k;
     Ticker.fpsCount := Ticker.fpsCount k;
     Ticker.fpsText := Ticker.fpsText k; Ticker.rain := r;
     Ticker.capsules := Ticker.capsules k |}.

(** The listeners of [bind]. *)
Definition handle (ev : Input T) (a : App T) : Rand T (App T) :=
  let c := config a in
  match ev with
  | Density v =>
      let c' :=
        {| densityScale := v; speedScale := speedScale c;
           capsuleRateScale := capsuleRateScale c;
           glowIntensity := glowIntensity c; showCode := showCode c;
           allowHexCapsules := allowHexCapsules c;
           maxCapsules := maxCapsules c; theme := theme c;
           showFps := showFps c |} in
      let* rain := MatrixRain.resetColumns c' page (Ticker.rain (ticker a)) in
      ret {| config := c'; ticker := setRain rain (ticker a);
             bodyClassList := bodyClassList a;
             glowProperty := glowProperty a; fpsOpacity := fpsOpacity a |}
  | Speed v =>
      ret (setConfig
             {| densityScale := densityScale c; speedScale := v;
                capsuleRateScale := capsuleRateScale c;
                glowIntensity := glowIntensity c; showCode := showCode c;
                allowHexCapsules := allowHexCapsules c;
                maxCapsules := maxCapsules c; theme := theme c;
                showFps := showFps c |} a)
  | CapsuleRate v =>
      ret (setConfig
             {| densityScale := densityScale c; speedScale := speedScale c;
                capsuleRateScale := v;
                glowIntensity := glowIntensity c; showCode := showCode c;
                allowHexCapsules := allowHexCapsules c;
                maxCapsules := maxCapsules c; theme := theme c;
                showFps := showFps c |} a)
  | Glow v =>
      ret {| config :=
               {| densityScale := densityScale c;
                  speedScale := speedScale c;
                  capsuleRateScale := capsuleRateScale c;
                  glowIntensity := v; showCode := showCode c;
                  allowHexCapsules := allowHexCapsules c;
                  maxCapsules := maxCapsules c; theme := theme c;
                  showFps := showFps c |};
             ticker := ticker a; bodyClassList := bodyClassList a;
             glowProperty := Some v; fpsOpacity := fpsOpacity a |}
  | ShowCode b =>
      ret (setConfig
             {| densityScale := densityScale c; speedScale := speedScale c;
                capsuleRateScale := capsuleRateScale c;
                glowIntensity := glowIntensity c; showCode := b;
                allowHexCapsules := allowHexCapsules c;
                maxCapsules := maxCapsules c; theme := theme c;
                showFps := showFps c |} a)
  | ShowHex b =>
      ret (setConfig
             {| densityScale := densityScale c; speedScale := speedScale c;
                capsuleRateScale := capsuleRateScale c;
                glowIntensity := glowIntensity c; showCode := showCode c;
                allowHexCapsules := b;
                maxCapsules := maxCapsules c; theme := theme c;
                showFps := showFps c |} a)
  | ThemeSelect v =>
      ret {| config :=
               {| densityScale := densityScale c;
                  speedScale := speedScale c;
                  capsuleRateScale := capsuleRateScale c;
                  glowIntensity := glowIntensity c; showCode := showCode c;
                  allowHexCapsules := allowHexCapsules c;
                  maxCapsules := maxCapsules c; theme := v;
                  showFps := showFps c |};
             ticker := ticker a;
             bodyClassList := Theme.applyTheme v (bodyClassList a);
             glowProperty := glowProperty a; fpsOpacity := fpsOpacity a |}
  | ShowFps b =>
      ret {| config :=
               {| densityScale := densityScale c;
                  speedScale := speedScale c;
                  capsuleRateScale := capsuleRateScale c;
                  glowIntensity := glowIntensity c; showCode := showCode c;
                  allowHexCapsules := allowHexCapsules c;
                  maxCapsules := maxCapsules c; theme := theme c;
                  showFps := b |};
             ticker := ticker a; bodyClassList := bodyClassList a;
             glowProperty := glowProperty a;
             fpsOpacity := Some (if b then "0.9" else "0")%string |}
  end.




Definition step (ev : Event T) (a : App T) : Rand T (option (App T)) :=
  match ev with
  | Browser ev =>
      let* r := Ticker.step (config a) page host ev (ticker a) in
      ret (option_map
             (fun r => {| config := config a; ticker := fst r;
                          bodyClassList := bodyClassList a;
                          glowProperty := glowProperty a;
                          fpsOpacity := fpsOpacity a |})
             r)
  | User ev => let* a' := handle ev a in ret (Some a')
  end.

Fixpoint run (evs : list (Event T)) (a : App T) : Rand T (option (App T)) :=
  match evs with
  | [] => ret (Some a)
  | ev :: evs' =>
      let* r := step ev a in
      match r with
      | Some a' => run evs' a'
      | None => ret None
      end
  end.

End WithNumbers.

End UI.

(* ------------------------------------------------------------------ *)
(** ** Vocabulary of the further properties *)


(** The sum of the weights of a table of [weightedChoice]. *)
Definition totalWeight {A} (pairs : list (A * Z)) : Z :=
  fold_right (fun p s => snd p + s) 0 pairs.

(** Reading back the text of a hex capsule. *)
Definition hexValue (c : ascii) : option N :=
  let n := N_of_ascii c in
  if (48 <=? n)%N && (n <=? 57)%N then Some (n - 48)%N
  else if (97 <=? n)%N && (n <=? 102)%N then Some (n - 87)%N
  else None.

Fixpoint hexDecode (s : list ascii) : option (list N) :=
  match s with
  | [] => Some []
  | a :: b :: rest =>
      match hexValue a, hexValue b with
      | Some hi, Some lo =>
          match rest with
          | [] => Some [(16 * hi + lo)%N]
          | sep :: rest' =>
              if Ascii.eqb sep " "%char
              then match hexDecode rest' with
                   | Some l => Some ((16 * hi + lo)%N :: l)
                   | None => None
                   end
              else None
          end
      | _, _ => None
      end
  | _ => None
  end.



Section ManagerInvariant.
Context {T : Type} `{JsNum T}.
Import CapsuleManager.

(** 1 when a callback for node [n] is pending in [m], else 0. *)
Definition scheduled {A} (m : gmap nat A) (n : nat) : nat :=
  match m !! n with Some _ => 1%nat | None => 0%nat end.

(** The number of phases (typing, held, dissolving) node [n] is in. *)
Definition phaseCount (w : World T) (n : nat) : nat :=
  (scheduled (typing (pending w)) n + scheduled (holds (pending w)) n
   + scheduled (dissolving (pending w)) n)%nat.

(** The markup [spawnRandom] gives a panel. *)
Definition panel (nd : Node T) : Prop :=
  exists mode content rest,
    className nd = ("capsule " ++ mode)%string
    /\ children nd = mkChild "hdr" "PROFILE_STREAM" :: content :: rest
    /\ childClass content = EmptyString
    /\ Forall (fun c => childClass c = "spark"%string) rest
    /\ (length rest <= 1)%nat.

(** The nodes: every node ever created is live or pooled, never both and
    never twice; the container holds the live ones; no more than
    [cap] nodes were created. *)
Definition wf_nodes (cap : Z) (w : World T) : Prop :=
  NoDup (pool (cm w))
  /\ (forall n, n ∈ pool (cm w) -> n ∉ active (cm w))
  /\ nextId (doc w) = (size (active (cm w)) + length (pool (cm w)))%nat
  /\ (forall n, is_Some (nodes (doc w) !! n) <-> (n < nextId (doc w))%nat)
  /\ (forall n, n ∈ active (cm w) \/ n ∈ pool (cm w) ->
                (n < nextId (doc w))%nat)
  /\ NoDup (container (doc w))
  /\ (forall n, n ∈ container (doc w) <-> n ∈ active (cm w))
  /\ (forall n, is_Some (pulses (pending w) !! n) ->
                (n < nextId (doc w))%nat)
  /\ (forall n, n ∈ active (cm w) -> panel (getNodeOf (doc w) n))
  /\ Z.of_nat (nextId (doc w)) <= Z.max 0 cap.

(** The callbacks: a live panel is in exactly one phase, any other node
    in none. *)
Definition wf_phases (w : World T) : Prop :=
  forall n,
    phaseCount w n = if decide (n ∈ active (cm w)) then 1%nat else 0%nat.

(** A typewriter left pending has characters to show. *)
Definition wf_jobs (w : World T) : Prop :=
  forall n job, typing (pending w) !! n = Some job -> chars job <> [].

Definition wf (cap : Z) (w : World T) : Prop :=
  wf_nodes cap w /\ wf_phases w /\ wf_jobs w.

(** The characters one step of the typewriter shows. *)
Definition takeOf (secondsPerChar : T) : nat :=
  Z.to_nat (Z.max 1 (floor (div (dec 16 1000) secondsPerChar))).

End ManagerInvariant.

Section TimingVocabulary.
Import CapsuleManager.
Variable page : Page.



End TimingVocabulary.

Section PageVocabulary.
Variable cfg : Config Q.
Variable page : Page.







End PageVocabulary.

Section AppVocabulary.
Variable page : Page.


End AppVocabulary.

(* ------------------------------------------------------------------ *)
(** ** Further concrete inputs *)

(** The session after its 15th tick: the first capsule is being typed. *)
Definition typingWorld : CapsuleManager.World Q :=
  default CapsuleManager.constructor (fst (session (ticks 15))).

Definition typingJob : CapsuleManager.TypeJob Q :=
  default (CapsuleManager.mkTypeJob [] 0%Q)
          (CapsuleManager.typing (CapsuleManager.pending typingWorld)
             !! 0%nat).







(* ------------------------------------------------------------------ *)
(** ** Properties *)

(** *** Reasoning on the random monad *)

Lemma post_ret {A} (a : A) (P : A -> Prop) : P a -> post (ret a) P.
Proof. intros Ha t Ht. split; [exact Ha | exact Ht]. Qed.

Lemma post_bind {A B} (m : Rand Q A) (k : A -> Rand Q B)
  (P : A -> Prop) (R : B -> Prop) :
  post m P -> (forall a, P a -> post (k a) R) -> post (bind m k) R.
Proof.
  intros Hm Hk t Ht. unfold bind.
  destruct (Hm t Ht) as [Ha Ht'].
  destruct (m t) as [a t']. simpl in *.
  exact (Hk a Ha t' Ht').
Qed.

Lemma post_weaken {A} (m : Rand Q A) (P R : A -> Prop) :
  post m P -> (forall a, P a -> R a) -> post m R.
Proof.
  intros Hm HPR t Ht. destruct (Hm t Ht). split; auto.
Qed.

Lemma post_random : post random (fun u => (0 <= u /\ u < 1)%Q).
Proof.
  intros t Ht. split; simpl; [apply Ht | intros n; apply Ht].
Qed.

Lemma post_rand (a b : Q) :
  (a < b)%Q -> post (rand a b) (fun x => (a <= x /\ x < b)%Q).
Proof.
  intros Hab. unfold rand.
  eapply post_bind; [apply post_random |].
  intros u [Hu0 Hu1]. apply post_ret. simpl. split; nra.
Qed.

Lemma post_rand_any (a b : Q) : post (rand a b) (fun _ => True).
Proof.
  unfold rand. eapply post_bind; [apply post_random |].
  intros u _. apply post_ret. exact I.
Qed.

Lemma post_randi (a b : Z) :
  a < b -> post (randi (inject_Z a) (inject_Z b)) (fun i => a <= i < b).
Proof.
  intros Hab. unfold randi.
  eapply post_bind.
  - apply post_rand. rewrite <- Zlt_Qlt. exact Hab.
  - intros x [Hlo Hhi]. apply post_ret. simpl. split.
    + rewrite <- (Qfloor_Z a). apply Qfloor_resp_le. exact Hlo.
    + rewrite Zlt_Qlt. eapply Qle_lt_trans; [apply Qfloor_le | exact Hhi].
Qed.

Lemma post_randi_any (a b : Q) : post (randi a b) (fun _ => True).
Proof.
  unfold randi. eapply post_bind; [apply post_rand_any |].
  intros x _. apply post_ret. exact I.
Qed.

Lemma post_choice {A} (undef : A) (arr : list A) :
  arr <> [] -> post (choice undef arr) (fun a => In a arr).
Proof.
  intros Hne. unfold choice.
  eapply post_bind.
  - apply (post_randi 0 (Z.of_nat (length arr))).
    destruct arr; [congruence | simpl; lia].
  - intros i Hi. cbv beta in Hi. apply post_ret. apply nth_In. lia.
Qed.

Lemma post_choice_any {A} (undef : A) (arr : list A) :
  post (choice undef arr) (fun _ => True).
Proof.
  unfold choice. eapply post_bind; [apply post_randi_any |].
  intros i _. apply post_ret. exact I.
Qed.

Lemma weightedChoice_loop_In {A} (pairs : list (A * Z)) (roll : Q) (v : A) :
  weightedChoice_loop roll pairs = Some v -> In v (map fst pairs).
Proof.
  revert roll. induction pairs as [| [v' w] rest IH]; intros roll;
    cbn [weightedChoice_loop map].
  - discriminate.
  - destruct (leb _ _).
    + intros [= <-]. left. reflexivity.
    + intros Hrest. right. exact (IH _ Hrest).
Qed.

Lemma post_weightedChoice {A} (undef : A) (pairs : list (A * Z)) :
  pairs <> [] ->
  post (weightedChoice undef pairs) (fun v => In v (map fst pairs)).
Proof.
  intros Hne. unfold weightedChoice.
  eapply post_bind; [apply post_random |].
  intros u _.
  destruct (weightedChoice_loop _ _) as [v |] eqn:Hloop; apply post_ret.
  - exact (weightedChoice_loop_In _ _ _ Hloop).
  - apply in_map.
    destruct (exists_last Hne) as (l & p & ->).
    rewrite List.last_last. apply in_or_app. right. left. reflexivity.
Qed.

(** *** Income *)

Lemma incomeRange_shape (industry : string) :
  let b := ProfileFactory.incomeRange industry in
  (1000 | fst b) /\ (1000 | snd b) /\ fst b < snd b.
Proof.
  unfold ProfileFactory.incomeRange, ProfileFactory.base, property.
  repeat match goal with
         | |- context [String.eqb ?a ?b] => destruct (String.eqb a b)
         end;
    cbn [fst snd]; (split; [| split]);
    try lia; apply Z.mod_divide; try lia; reflexivity.
Qed.

Lemma round_thousands (lo hi : Z) (r : Q) :
  (1000 | lo) -> (1000 | hi) ->
  (inject_Z lo <= r)%Q -> (r < inject_Z hi)%Q ->
  let inc := Exact.round (r / inject_Z 1000) * 1000 in
  (1000 | inc) /\ lo <= inc <= hi.
Proof.
  intros [a ->] [b ->] Hlo Hhi inc. subst inc.
  split; [apply Z.divide_factor_r |].
  assert (Ha : a <= Exact.round (r / inject_Z 1000)).
  { unfold Exact.round.
    rewrite <- (Qfloor_Z a). apply Qfloor_resp_le.
    rewrite inject_Z_mult in Hlo.
    apply Qle_trans with (r / inject_Z 1000)%Q.
    - apply Qle_shift_div_l; [reflexivity | exact Hlo].
    - change (inject_Z 1000) with 1000%Q. lra. }
  assert (Hb : Exact.round (r / inject_Z 1000) <= b).
  { unfold Exact.round.
    assert (Hq : (r / inject_Z 1000 < inject_Z b)%Q).
    { apply Qlt_shift_div_r; [reflexivity |].
      rewrite <- inject_Z_mult. exact Hhi. }
    assert (Hf : Qfloor (r / inject_Z 1000 + (1 # 2)) < b + 1).
    { rewrite Zlt_Qlt. eapply Qle_lt_trans; [apply Qfloor_le |].
      rewrite inject_Z_plus. change (inject_Z 1) with 1%Q. lra. }
    lia. }
  lia.
Qed.

Lemma post_sampleIncome (industry : string) :
  post (ProfileFactory.sampleIncome industry)
       (fun inc =>
          (1000 | inc) /\
          fst (ProfileFactory.incomeRange industry) <= inc
            <= snd (ProfileFactory.incomeRange industry)).
Proof.
  destruct (incomeRange_shape industry) as (Hlo & Hhi & Hlt).
  unfold ProfileFactory.sampleIncome.
  eapply post_bind.
  - apply post_rand. rewrite <- Zlt_Qlt. exact Hlt.
  - intros r Hr. cbv beta in Hr. destruct Hr as [Hr1 Hr2].
    apply post_ret. apply round_thousands; assumption.
Qed.

(** *** Risk *)

Lemma clamp_Z_range (v a b : Z) : a <= b -> a <= clamp Z.ltb v a b <= b.
Proof.
  intros Hab. unfold clamp.
  destruct (Z.ltb_spec v a); [lia |].
  destruct (Z.ltb_spec b v); lia.
Qed.

Lemma moodBiasOf_spec (mood : string) :
  ProfileFactory.moodBiasOf mood = Spec.moodAdjustment mood.
Proof.
  unfold ProfileFactory.moodBiasOf, ProfileFactory.moodBias, property,
    Spec.moodAdjustment.
  rewrite !(String.eqb_sym mood).
  repeat match goal with
         | |- context [String.eqb ?a ?b] => destruct (String.eqb a b)
         end; reflexivity.
Qed.

Lemma bind_run {A B} (m : Rand Q A) (k : A -> Rand Q B) (t : Tape Q) :
  bind m k t = k (fst (m t)) (snd (m t)).
Proof. unfold bind. destruct (m t); reflexivity. Qed.

Lemma risk_refines (income : Z) (mood : string) (t : Tape Q) :
  fst (ProfileFactory.riskFromIncomeAndMood income mood t)
  = Spec.riskScore (fst (rand (inject_Z 10) (inject_Z 90) t)) income mood.
Proof.
  unfold ProfileFactory.riskFromIncomeAndMood, Spec.riskScore.
  rewrite bind_run. cbn [fst ret ofZ Q_JsNum].
  set (r := fst (rand (inject_Z 10) (inject_Z 90) t)).
  f_equal.
  rewrite moodBiasOf_spec. unfold Spec.incomeAdjustment.
  cbn [round add sub ofZ Q_JsNum]. unfold Exact.round.
  apply Qfloor_comp.
  destruct (Z.ltb_spec 150000 income), (Z.ltb_spec income 40000);
    try lia; cbn [inject_Z]; ring.
Qed.

Lemma post_risk (income : Z) (mood : string) :
  post (ProfileFactory.riskFromIncomeAndMood income mood)
       (fun r => exists j : Q,
            (10 <= j /\ j < 90)%Q /\ r = Spec.riskScore j income mood).
Proof.
  intros t Ht. split.
  - rewrite risk_refines.
    exists (fst (rand (inject_Z 10) (inject_Z 90) t)). split; [| reflexivity].
    apply (post_rand (inject_Z 10) (inject_Z 90)); [reflexivity | exact Ht].
  - unfold ProfileFactory.riskFromIncomeAndMood.
    assert (Hp : post (rand (inject_Z 10) (inject_Z 90)) (fun _ => True))
      by apply post_rand_any.
    rewrite bind_run. destruct (Hp t Ht) as [_ Ht']. exact Ht'.
Qed.

(** *** Interests *)

Lemma post_randomOrder : post ProfileFactory.randomOrder (fun _ => True).
Proof.
  unfold ProfileFactory.randomOrder.
  eapply post_bind; [apply post_random |].
  intros u _. apply post_ret. exact I.
Qed.

Lemma post_sort_insert {A} (element : A) (sorted : list A) :
  post (ProfileFactory.sort_insert element sorted)
       (fun l => Permutation (element :: sorted) l).
Proof.
  induction sorted as [| tmp rest IH]; cbn [ProfileFactory.sort_insert].
  - apply post_ret. reflexivity.
  - eapply post_bind; [apply post_randomOrder |].
    intros order _.
    destruct (ltb (ofZ 0) order).
    + eapply post_bind; [apply IH |].
      intros l Hl. apply post_ret.
      rewrite perm_swap. constructor. exact Hl.
    + apply post_ret. reflexivity.
Qed.

Lemma post_sort_loop {A} (todo sorted : list A) :
  post (ProfileFactory.sort_loop sorted todo)
       (fun l => Permutation (sorted ++ todo) l).
Proof.
  revert sorted.
  induction todo as [| element todo IH]; intros sorted;
    cbn [ProfileFactory.sort_loop].
  - apply post_ret. rewrite app_nil_r. apply Permutation_rev.
  - eapply post_bind; [apply post_sort_insert |].
    intros sorted' Hs. cbv beta in Hs.
    eapply post_weaken; [apply IH |].
    intros l Hl. cbv beta in Hl.
    rewrite <- Hl, <- Hs. symmetry. apply Permutation_middle.
Qed.

Lemma post_sort_random {A} (arr : list A) :
  post (ProfileFactory.sort_random arr) (fun l => Permutation arr l).
Proof. apply (post_sort_loop arr []). Qed.

Lemma pool_NoDup : NoDup ProfileFactory.pool.
Proof.
  apply NoDup_ListNoDup.
  unfold ProfileFactory.pool.
  repeat (constructor; [cbn; intuition discriminate |]). constructor.
Qed.

Lemma post_interestsSet :
  post ProfileFactory.interestsSet
       (fun l => interests_ok l /\ (length l <= 5)%nat).
Proof.
  unfold ProfileFactory.interestsSet.
  eapply post_bind; [apply (post_randi 2 6); lia |].
  intros n Hn. cbv beta in Hn.
  eapply post_bind; [apply post_sort_random |].
  intros shuffled Hs. cbv beta in Hs.
  apply post_ret.
  assert (Hlen : length shuffled = 14%nat).
  { rewrite <- (Permutation_length Hs). reflexivity. }
  assert (Hf : length (firstn (Z.to_nat n) shuffled) = Z.to_nat n).
  { rewrite length_firstn. (*rewrite Hlen.*) lia. }
  split; [| lia].
  split; [lia |]. split.
  - apply NoDup_ListNoDup.
    assert (Hnd : List.NoDup shuffled).
    { eapply Permutation_NoDup; [exact Hs |].
      apply NoDup_ListNoDup. apply pool_NoDup. }
    rewrite <- (firstn_skipn (Z.to_nat n) shuffled) in Hnd.
    apply NoDup_app_remove_r in Hnd. exact Hnd.
  - intros s Hin. eapply Permutation_in; [symmetry; exact Hs |].
    rewrite <- (firstn_skipn (Z.to_nat n) shuffled).
    apply in_or_app. left. exact Hin.
Qed.

(** *** Generated profiles *)

Lemma post_makeId (host : Host Q) (dateNow : Z) :
  post (ProfileFactory.makeId host dateNow) (fun _ => True).
Proof.
  unfold ProfileFactory.makeId.
  eapply post_bind; [apply post_random |].
  intros u _. apply post_ret. exact I.
Qed.

Ltac post_skip lem :=
  eapply post_bind; [apply lem | intros ? _].

Lemma post_generate (host : Host Q) (dateNow : Z) :
  post (ProfileFactory.generate host dateNow)
       (fun p => risk_ok p /\ income_ok p
                 /\ In (industry p) ProfileFactory.industries
                 /\ In (emotional_state p)
                       (map fst ProfileFactory.emotional)
                 /\ interests_ok (interests p)
                 /\ (length (interests p) <= 5)%nat).
Proof.
  unfold ProfileFactory.generate.
  eapply post_bind; [apply post_choice; discriminate |].
  intros ind Hind. cbv beta in Hind.
  post_skip @post_choice_any.
  eapply post_bind; [apply post_weightedChoice; discriminate |].
  intros mood Hmood. cbv beta in Hmood.
  post_skip post_randi_any.
  eapply post_bind; [apply post_sampleIncome |].
  intros inc Hinc. cbv beta in Hinc.
  eapply post_bind; [apply post_risk |].
  intros risk Hrisk. cbv beta in Hrisk.
  post_skip post_makeId.
  do 7 post_skip @post_choice_any.
  eapply post_bind; [apply post_interestsSet |].
  intros ints [Hints Hlen].
  post_skip post_randi_any.
  apply post_ret. cbn.
  repeat split; try assumption; try apply Hinc; try apply Hints.
Qed.

Lemma demoTape_unit : unit_tape demoTape.
Proof.
  intros n. unfold demoTape, Qle, Qlt. cbn [Qnum Qden].
  pose proof (Nat.mod_upper_bound (n * 37) 101). lia.
Qed.

Lemma industries_configured (ind : string) :
  In ind ProfileFactory.industries ->
  property ind ProfileFactory.base = Some (ProfileFactory.incomeRange ind).
Proof.
  unfold ProfileFactory.industries. cbn [In].
  intros Hin.
  repeat (destruct Hin as [<- | Hin]; [reflexivity |]).
  destruct Hin.
Qed.

(** Claim C1.  On a tape of values in [0, 1), the risk score computed by
    [riskFromIncomeAndMood] for a mood of the table is the specification's
    clamp(round(jitter + incomeAdjustment + moodAdjustment), 0, 100), the
    jitter being the draw of [rand(10, 90)], in [10, 90); the profile
    returned by [generate] carries such a score for its own income and
    mood, and the score lies in [0, 100].  Numbers are exact rationals. *)
Theorem risk_score_formula (host : Host Q) (dateNow : Z) (t : Tape Q) :
  unit_tape t ->
  (forall income mood,
      In mood (map fst ProfileFactory.emotional) ->
      let jitter := (t 0%nat * (90 - 10) + 10)%Q in
      (10 <= jitter /\ jitter < 90)%Q
      /\ fst (ProfileFactory.riskFromIncomeAndMood income mood t)
         = Spec.riskScore jitter income mood)
  /\ (let p := fst (ProfileFactory.generate host dateNow t) in
      In (emotional_state p) (map fst ProfileFactory.emotional)
      /\ (exists jitter : Q,
            (10 <= jitter /\ jitter < 90)%Q
            /\ risk_score p
               = Spec.riskScore jitter (income_usd p) (emotional_state p))
      /\ 0 <= risk_score p <= 100).
Proof.
  intros Ht. split.
  - intros income mood _ jitter. split.
    + apply (post_rand (inject_Z 10) (inject_Z 90)); [reflexivity | exact Ht].
    + apply risk_refines.
  - destruct (post_generate host dateNow t Ht)
      as [(Hrisk & _ & _ & Hmood & _) _].
    cbv zeta. split; [exact Hmood |]. split; [exact Hrisk |].
    destruct Hrisk as (j & _ & ->). apply clamp_Z_range. lia.
Qed.

Lemma risk_score_formula_witness :
  unit_tape demoTape
  /\ (let p := fst (ProfileFactory.generate demoHost 1754904600000 demoTape) in
      In (emotional_state p) (map fst ProfileFactory.emotional)
      /\ (exists jitter : Q,
            (10 <= jitter /\ jitter < 90)%Q
            /\ risk_score p
               = Spec.riskScore jitter (income_usd p) (emotional_state p))
      /\ 0 <= risk_score p <= 100).
Proof.
  split; [exact demoTape_unit |].
  exact (proj2 (risk_score_formula demoHost 1754904600000 demoTape
                  demoTape_unit)).
Defined.

(** Claim C6.  On a tape of values in [0, 1), [sampleIncome] returns, for
    an industry of the list, a multiple of 1000 within the range it looks
    up for that industry; the profile returned by [generate] has an
    industry that is a key of the table [base], and its income is a
    multiple of 1000 between the low and the high bound configured for
    that industry.  Numbers are exact rationals. *)
Theorem income_within_industry_range
  (host : Host Q) (dateNow : Z) (t : Tape Q) :
  unit_tape t ->
  (forall industry,
      In industry ProfileFactory.industries ->
      let inc := fst (ProfileFactory.sampleIncome industry t) in
      (exists k : Z, inc = 1000 * k)
      /\ fst (ProfileFactory.incomeRange industry) <= inc
         <= snd (ProfileFactory.incomeRange industry))
  /\ (let p := fst (ProfileFactory.generate host dateNow t) in
      exists low high : Z,
        property (industry p) ProfileFactory.base = Some (low, high)
        /\ (exists k : Z, income_usd p = 1000 * k)
        /\ low <= income_usd p <= high).
Proof.
  intros Ht. split.
  - intros industry _ inc.
    destruct (post_sampleIncome industry t Ht) as [[[k Hk] Hrange] _].
    split; [exists k; subst inc; lia | exact Hrange].
  - destruct (post_generate host dateNow t Ht)
      as [(_ & (Hdiv & Hrange) & Hind & _) _].
    cbv zeta.
    exists (fst (ProfileFactory.incomeRange
                   (industry (fst (ProfileFactory.generate host dateNow t))))),
           (snd (ProfileFactory.incomeRange
                   (industry (fst (ProfileFactory.generate host dateNow t))))).
    split; [| split].
    + rewrite <- surjective_pairing. apply industries_configured. exact Hind.
    + destruct Hdiv as [k Hk]. exists k. lia.
    + exact Hrange.
Qed.

Lemma income_within_industry_range_witness :
  unit_tape demoTape
  /\ (let p := fst (ProfileFactory.generate demoHost 1754904600000 demoTape) in
      exists low high : Z,
        property (industry p) ProfileFactory.base = Some (low, high)
        /\ (exists k : Z, income_usd p = 1000 * k)
        /\ low <= income_usd p <= high).
Proof.
  split; [exact demoTape_unit |].
  exact (proj2 (income_within_industry_range demoHost 1754904600000 demoTape
                  demoTape_unit)).
Defined.

(** Claim C5.  On a tape of values in [0, 1), the interests of the profile
    returned by [generate] number between 2 and 6, are pairwise distinct
    and all belong to the pool of [interestsSet].  Numbers are exact
    rationals. *)
Theorem interests_unique_from_pool
  (host : Host Q) (dateNow : Z) (t : Tape Q) :
  unit_tape t ->
  let p := fst (ProfileFactory.generate host dateNow t) in
  (2 <= length (interests p) <= 6)%nat
  /\ NoDup (interests p)
  /\ (forall s, In s (interests p) -> In s ProfileFactory.pool).
Proof.
  intros Ht.
  destruct (post_generate host dateNow t Ht)
    as [(_ & _ & _ & _ & Hints & _) _].
  exact Hints.
Qed.

Lemma interests_unique_from_pool_witness :
  unit_tape demoTape
  /\ (let p := fst (ProfileFactory.generate demoHost 1754904600000 demoTape) in
      (2 <= length (interests p) <= 6)%nat
      /\ NoDup (interests p)
      /\ (forall s, In s (interests p) -> In s ProfileFactory.pool)).
Proof.
  split; [exact demoTape_unit |].
  exact (interests_unique_from_pool demoHost 1754904600000 demoTape
           demoTape_unit).
Defined.

(** The count drawn by [randi(2, 6)] stays below 6 in exact arithmetic. *)
Lemma interests_at_most_five (host : Host Q) (dateNow : Z) (t : Tape Q) :
  unit_tape t ->
  (length (interests (fst (ProfileFactory.generate host dateNow t))) <= 5)%nat.
Proof.
  intros Ht.
  destruct (post_generate host dateNow t Ht)
    as [(_ & _ & _ & _ & _ & Hlen) _].
  exact Hlen.
Qed.

(** *** Rain *)

Lemma glyphSlot_zero (i len : Z) :
  0 <= i -> 0 < len -> MatrixRain.glyphSlot i len = 0.
Proof.
  intros Hi Hlen. unfold MatrixRain.glyphSlot.
  rewrite (Z.rem_mod_nonneg i len) by lia.
  pose proof (Z.mod_pos_bound i len Hlen) as Hm.
  rewrite Z.rem_mod_nonneg by lia.
  replace (i + (len - i mod len)) with ((i / len + 1) * len).
  - apply Z.mod_mul. lia.
  - pose proof (Z.div_mod i len). lia.
Qed.

Lemma drawGlyph_mutate {T} `{JsNum T} (page : Page)
  (this : MatrixRain.Rain T) (glow : T) (col : MatrixRain.Column T)
  (idx : nat) (g i : Z) :
  idx <> 0%nat -> 0 <= i ->
  MatrixRain.drawGlyph page this glow (MatrixRain.mutateGlyph idx g col) i
  = MatrixRain.drawGlyph page this glow col i.
Proof.
  intros Hidx Hi. unfold MatrixRain.drawGlyph, MatrixRain.mutateGlyph.
  cbn [MatrixRain.glyphIndices MatrixRain.x MatrixRain.y
       MatrixRain.streamLength].
  rewrite length_insert.
  destruct (MatrixRain.glyphIndices col) as [| g0 rest] eqn:Hgl.
  - destruct idx; reflexivity.
  - rewrite glyphSlot_zero by (cbn [length]; lia).
    destruct idx; [congruence | reflexivity].
Qed.

Lemma post_replicateM {A} (n : nat) (m : Rand Q A) (P : A -> Prop) :
  post m P ->
  post (replicateM n m) (fun l => length l = n /\ Forall P l).
Proof.
  intros Hm. induction n as [| n IH]; cbn [replicateM].
  - apply post_ret. split; [reflexivity | constructor].
  - eapply post_bind; [exact Hm |]. intros a Ha.
    eapply post_bind; [exact IH |]. intros l [Hl HP].
    apply post_ret.
    split; [cbn [length]; congruence | constructor; assumption].
Qed.

(** Every column made by [spawnColumn] has 60 glyph indices and a stream
    length in [10, 40). *)
Lemma spawnColumn_shape (cfg : Config Q) (page : Page)
  (this : MatrixRain.Rain Q) (index : Q) (screenH : Z) :
  post (MatrixRain.spawnColumn cfg page this index screenH)
       (fun col =>
          length (MatrixRain.glyphIndices col) = 60%nat
          /\ 10 <= MatrixRain.streamLength col < 40).
Proof.
  unfold MatrixRain.spawnColumn.
  eapply post_bind; [apply post_randi_any | intros y _].
  eapply post_bind; [apply post_rand_any | intros speed _].
  eapply post_bind; [apply (post_randi 10 40); lia | intros len Hlen].
  eapply post_bind;
    [apply (post_replicateM 60 _ (fun _ => True)); apply post_randi_any |].
  intros gl [Hgl _].
  eapply post_bind; [apply post_rand_any | intros drift _].
  apply post_ret. split; [exact Hgl | exact Hlen].
Qed.

(** Claim C9.  For a column whose [glyphIndices] has 60 entries and whose
    [streamLength] is below 60, the index expression of [draw] is 0 at
    every trail position, so that every glyph of the column is cut from
    the sheet at the cell of [glyphIndices[0]]; and overwriting any entry
    of [glyphIndices] other than the first, as [update] does, leaves what
    [draw] emits for the column unchanged.  Holds for any arithmetic on
    numbers. *)
Theorem draw_reads_only_first_glyph {T} `{JsNum T} (page : Page)
  (this : MatrixRain.Rain T) (glow : T) (col : MatrixRain.Column T) :
  length (MatrixRain.glyphIndices col) = 60%nat ->
  MatrixRain.streamLength col < 60 ->
  (forall i, 0 <= i < MatrixRain.streamLength col ->
     MatrixRain.glyphSlot i
       (Z.of_nat (length (MatrixRain.glyphIndices col))) = 0)
  /\ (forall i, 0 <= i < MatrixRain.streamLength col ->
        let g0 := nth 0 (MatrixRain.glyphIndices col) 0 in
        let cell := MatrixRain.size (MatrixRain.sheet this) in
        let cols := MatrixRain.cols (MatrixRain.sheet this) in
        exists alpha blur,
          MatrixRain.drawGlyph page this glow col i
          = MatrixRain.DrawImage alpha blur (activeColor page)
              (Z.rem g0 cols * cell) (g0 / cols * cell) cell cell
              (MatrixRain.x col)
              (sub (MatrixRain.y col) (ofZ (i * MatrixRain.glyphSize this)))
              (MatrixRain.glyphSize this) (MatrixRain.glyphSize this))
  /\ (forall (idx : nat) (g : Z), idx <> 0%nat ->
        MatrixRain.drawColumn page this glow
          (MatrixRain.mutateGlyph idx g col)
        = MatrixRain.drawColumn page this glow col).
Proof.
  intros Hlen Hstream. split; [| split].
  - intros i Hi. apply glyphSlot_zero; lia.
  - intros i Hi g0 cell cols. unfold MatrixRain.drawGlyph.
    rewrite glyphSlot_zero by lia.
    eexists. eexists. reflexivity.
  - intros idx g Hidx. unfold MatrixRain.drawColumn.
    change (MatrixRain.streamLength (MatrixRain.mutateGlyph idx g col))
      with (MatrixRain.streamLength col).
    apply map_ext. intros k. apply drawGlyph_mutate; [exact Hidx | lia].
Qed.

Lemma draw_reads_only_first_glyph_witness :
  (forall i, 0 <= i < MatrixRain.streamLength demoColumn ->
     MatrixRain.glyphSlot i
       (Z.of_nat (length (MatrixRain.glyphIndices demoColumn))) = 0)
  /\ (forall (idx : nat) (g : Z), idx <> 0%nat ->
        MatrixRain.drawColumn demoPage demoRain (6 # 10)%Q
          (MatrixRain.mutateGlyph idx g demoColumn)
        = MatrixRain.drawColumn demoPage demoRain (6 # 10)%Q demoColumn).
Proof.
  destruct (draw_reads_only_first_glyph demoPage demoRain (6 # 10)%Q
              demoColumn)
    as (Hslot & _ & Hdraw).
  - reflexivity.
  - reflexivity.
  - split; [exact Hslot | exact Hdraw].
Defined.

(** *** Column count *)

(** Claim C2 fails in binary64.  With [densityScale = 1.6] and a canvas
    1600 px wide, [resetColumns] computes [(w / 16) * (0.7 * 1.6)] and
    gets 111 columns, while [update] computes [((w / 16) * 0.7) * 1.6] and
    wants 112. *)
Theorem column_count_paths_diverge :
  MatrixRain.numCols denseConfig widePage 16 = 111
  /\ MatrixRain.desiredCols denseConfig widePage 16 = 112.
Proof. split; vm_compute; reflexivity. Qed.

Lemma column_count_scenario :
  MatrixRain.numCols (CONFIG : Config spec_float) demoPage 16 = 35
  /\ MatrixRain.desiredCols (CONFIG : Config spec_float) demoPage 16 = 35.
Proof. split; vm_compute; reflexivity. Qed.


Lemma dense_rain_rebuilt_every_frame
  (this : MatrixRain.Rain spec_float) (dt : spec_float) :
  MatrixRain.glyphSize this = 16 ->
  MatrixRain.columnCount this = MatrixRain.numCols denseConfig widePage 16 ->
  MatrixRain.update denseConfig widePage this dt
  = MatrixRain.resetColumns denseConfig widePage this.
Proof.
  intros Hsize Hcount. unfold MatrixRain.update.
  rewrite Hsize, Hcount.
  replace (MatrixRain.desiredCols denseConfig widePage 16) with 112
    by (vm_compute; reflexivity).
  replace (MatrixRain.numCols denseConfig widePage 16) with 111
    by (vm_compute; reflexivity).
  reflexivity.
Qed.

(** *** Capsule text *)

(** Claim C4.  For a profile with id x1-abcd, age 30, job Engineer, mood
    calm, income 95000 and risk 40, whatever its other fields, the text of
    an inline capsule is the line of the scenario, in exact arithmetic and
    in binary64. *)
Theorem inline_capsule_scenario
  (hostQ : Host Q) (host64 : Host spec_float) (p : Profile) :
  id p = "x1-abcd"%string -> age p = 30 -> job_title p = "Engineer"%string ->
  emotional_state p = "calm"%string -> income_usd p = 95000 ->
  risk_score p = 40 ->
  CapsuleManager.capsuleText hostQ "inline" p
  = "id=x1-abcd | age=30 | job=Engineer | emotional=calm | income=$95,000 | risk=40"%string
  /\ CapsuleManager.capsuleText host64 "inline" p
     = "id=x1-abcd | age=30 | job=Engineer | emotional=calm | income=$95,000 | risk=40"%string.
Proof.
  intros Hid Hage Hjob Hmood Hinc Hrisk.
  unfold CapsuleManager.capsuleText.
  rewrite Hid, Hage, Hjob, Hmood, Hinc, Hrisk.
  split; vm_compute; reflexivity.
Qed.

Lemma inline_capsule_scenario_witness :
  CapsuleManager.capsuleText demoHost "inline" scenarioProfile
  = "id=x1-abcd | age=30 | job=Engineer | emotional=calm | income=$95,000 | risk=40"%string
  /\ CapsuleManager.capsuleText demoHost64 "inline" scenarioProfile
     = "id=x1-abcd | age=30 | job=Engineer | emotional=calm | income=$95,000 | risk=40"%string.
Proof.
  apply (inline_capsule_scenario demoHost demoHost64 scenarioProfile);
    reflexivity.
Defined.

(** *** Sparkline *)

(** Claim C10 fails at the sampled value 100.  [100 / 12.5] is 8, one past
    the last of the 8 blocks; with seed 100 and [Math.random()] returning
    0.5 every cell of the sparkline is [undefined] and the joined string
    is empty.  A score of 100 is produced by [riskFromIncomeAndMood]. *)
Theorem sparkline_block_index_overflow :
  floor (div (ofZ 100) (dec 125 10) : spec_float) = 8
  /\ length CapsuleManager.blocks = 8%nat
  /\ fst (CapsuleManager.makeSparkCells 100 halfTape64) = repeat None 10
  /\ fst (CapsuleManager.makeSparkline 100 halfTape64) = EmptyString
  /\ fst (CapsuleManager.makeSparkCells 100 halfTape) = repeat None 10
  /\ fst (CapsuleManager.makeSparkline 100 halfTape) = EmptyString
  /\ fst (ProfileFactory.riskFromIncomeAndMood 30000 "burnout" highTape)
     = 100.
Proof. repeat split; vm_compute; reflexivity. Qed.

Lemma sparkline_index_bounds (v : Z) :
  0 <= v <= 100 ->
  let k := floor (div (ofZ v) (dec 125 10) : Q) in
  0 <= k <= 8 /\ (k = 8 <-> v = 100).
Proof.
  intros Hv k.
  assert (Hk : k = (2 * v) / 25).
  { subst k. unfold dec. cbn [floor div ofZ Q_JsNum].
    rewrite Zdiv_Qdiv. apply Qfloor_comp. rewrite inject_Z_mult.
    change (inject_Z 2) with 2%Q. change (inject_Z 25) with 25%Q.
    change (inject_Z 125) with 125%Q. change (inject_Z 10) with 10%Q.
    field. }
  rewrite Hk.
  assert (0 <= 2 * v / 25 <= 8).
  { split; [apply Z.div_pos; lia | apply Z.div_le_upper_bound; lia]. }
  split; [assumption |]. split.
  - intros H8. pose proof (Z.mul_div_le (2 * v) 25). lia.
  - intros ->. reflexivity.
Qed.

(** *** Capsule manager *)

Lemma always_ret {T A} (a : A) (P : A -> Prop) :
  P a -> always (ret (T:=T) a) P.
Proof. intros Ha t. exact Ha. Qed.

Lemma always_bind {T A B} (m : Rand T A) (k : A -> Rand T B)
  (P : A -> Prop) (R : B -> Prop) :
  always m P -> (forall a, P a -> always (k a) R) -> always (bind m k) R.
Proof.
  intros Hm Hk t. unfold bind. specialize (Hm t).
  destruct (m t) as [a t']. exact (Hk a Hm t').
Qed.

Lemma always_any {T A} (m : Rand T A) : always m (fun _ => True).
Proof. intros t. exact I. Qed.

Ltac always_skip := eapply always_bind; [apply always_any | intros ? _].

Section CapsuleFacts.
Context {T : Type} `{JsNum T}.
Variable cfg : Config T.
Variable page : Page.
Variable host : Host T.

Import CapsuleManager.

Lemma getNodeOf_setNode (n : nat) (nd : Node T) (d : Document T) :
  getNodeOf (setNode n nd d) n = nd.
Proof. unfold getNodeOf, setNode. cbn [nodes]. by rewrite lookup_insert_eq. Qed.

Lemma always_typeDone (n : nat) (w : World T) :
  always (typeDone n w) (same_frame n w).
Proof.
  unfold typeDone.
  eapply always_bind; [apply always_any | intros hold _].
  apply always_ret. unfold same_frame. cbn [cm doc pending dissolving].
  rewrite getNodeOf_setNode.
  repeat split; destruct (String.eqb _ _); reflexivity.
Qed.

Lemma always_typeStep (n : nat) (job : TypeJob T) (w : World T) :
  always (typeStep n job w) (same_frame n w).
Proof.
  unfold typeStep.
  set (w1 := {| cm := cm w; doc := _; pending := _ |}).
  assert (Hw1 : same_frame n w w1).
  { unfold same_frame, w1. cbn [cm doc pending dissolving].
    rewrite getNodeOf_setNode. repeat split. }
  destruct (skipn _ _).
  - intros t. pose proof (always_typeDone n w1 t) as Hd.
    unfold same_frame in *. intuition congruence.
  - apply always_ret. exact Hw1.
Qed.

Lemma getNode_frame (w : World T) :
  active (cm (snd (getNode w))) = active (cm w)
  /\ spawnAccumulator (cm (snd (getNode w))) = spawnAccumulator (cm w)
  /\ container (doc (snd (getNode w))) = container (doc w)
  /\ pending (snd (getNode w)) = pending w.
Proof.
  unfold getNode. destruct (last (pool (cm w))); cbn; repeat split.
Qed.

Lemma always_spawnRandom (dateNow : Z) (w : World T) :
  always (spawnRandom cfg page host dateNow w) (spawn_effect w).
Proof.
  unfold spawnRandom, spawn_effect.
  destruct (getNode_frame w) as (Hact & Hacc & Hcont & Hpend).
  destruct (getNode w) as [n w1]. cbn [fst snd] in *.
  do 4 always_skip.
  eapply always_bind; [apply always_any | intros u _].
  eapply always_bind; [apply always_any | intros sparkChild _].
  eapply always_bind; [apply always_any | intros spc _].
  intros t.
  match goal with
  | |- context [typeStep n ?job ?w2] =>
      pose proof (always_typeStep n job w2 t) as Hs
  end.
  destruct Hs as (Hcm & Hid & Hc & Htr & _ & Hdis).
  rewrite Hcm, Hid, Hc, Htr, Hdis. cbn [cm doc pending active pool
    spawnAccumulator nextId container nodes].
  rewrite Hact, Hacc, Hpend.
  repeat split.
  - apply in_or_app. right. left. reflexivity.
  - unfold getNodeOf at 1. cbn [nodes]. by rewrite lookup_insert_eq.
Qed.
End CapsuleFacts.

Section TickGate.
Import CapsuleManager.
Variable cfg : Config Q.
Variable page : Page.
Variable host : Host Q.

Lemma threshold_range (t : Tape Q) :
  unit_tape t ->
  let threshold := fst (rand (dec 6 10) (dec 14 10) t) in
  (6 # 10 <= threshold /\ threshold < 14 # 10)%Q.
Proof.
  intros Ht threshold.
  assert (Hr : (dec 6 10 <= threshold /\ threshold < dec 14 10)%Q).
  { apply (post_rand (dec 6 10) (dec 14 10)); [reflexivity | exact Ht]. }
  assert (H6 : (dec 6 10 == 6 # 10)%Q) by reflexivity.
  assert (H14 : (dec 14 10 == 14 # 10)%Q) by reflexivity.
  rewrite H6, H14 in Hr. exact Hr.
Qed.

(** Claim C3.  On a tape of values in [0, 1) the threshold drawn by [tick]
    lies in [0.6, 1.4).  When the accumulator reaches it the accumulator
    becomes 0, whether or not a capsule is spawned; otherwise only the
    accumulator changes.  With [maxCapsules] or more live panels [tick]
    changes nothing but the accumulator; the set of live panels changes
    only on a crossing with fewer than [maxCapsules] live panels, and then
    gains the node taken by [getNode]; a count within the cap stays within
    the cap.  Numbers are exact rationals. *)
Theorem tick_spawn_gate (dt : Q) (dateNow : Z) (w : World Q) (t : Tape Q) :
  unit_tape t ->
  let threshold := fst (rand (dec 6 10) (dec 14 10) t) in
  let acc :=
    (spawnAccumulator (cm w) + dt * (1 * capsuleRateScale cfg))%Q in
  let live := Z.of_nat (size (active (cm w))) in
  let w' := fst (tick cfg page host dt dateNow w t) in
  (6 # 10 <= threshold /\ threshold < 14 # 10)%Q
  /\ ((threshold <= acc)%Q -> spawnAccumulator (cm w') = 0%Q)
  /\ (~ (threshold <= acc)%Q ->
      spawnAccumulator (cm w') = acc /\ unchanged_but_accumulator w w')
  /\ (maxCapsules cfg <= live -> unchanged_but_accumulator w w')
  /\ (active (cm w') <> active (cm w) ->
      (threshold <= acc)%Q /\ live < maxCapsules cfg)
  /\ ((threshold <= acc)%Q -> live < maxCapsules cfg ->
      active (cm w') = {[fst (getNode w)]} ∪ active (cm w))
  /\ (live <= maxCapsules cfg ->
      Z.of_nat (size (active (cm w'))) <= maxCapsules cfg).
Proof.
  intros Ht threshold acc live w'.
  split; [apply threshold_range; exact Ht |].
  subst w'. unfold tick. rewrite bind_run.
  fold threshold.
  change (add (spawnAccumulator (cm w))
            (mul dt (mul (ofZ 1) (capsuleRateScale cfg)))) with acc.
  change (leb threshold acc) with (Qle_bool threshold acc).
  destruct (Qle_bool threshold acc) eqn:Hcross.
  - apply Qle_bool_iff in Hcross.
    cbn [cm active].
    fold live.
    set (w0 := {| cm := {| pool := pool (cm w); active := active (cm w);
                           spawnAccumulator := ofZ 0 |};
                  doc := doc w; pending := pending w |}).
    destruct (Z.ltb_spec live (maxCapsules cfg)) as [Hlt | Hge].
    + pose proof (always_spawnRandom cfg page host dateNow w0
                    (snd (rand (dec 6 10) (dec 14 10) t))) as Hs.
      destruct Hs as (Hact & Hacc & _).
      assert (Hn : fst (getNode w0) = fst (getNode w)).
      { unfold getNode, w0. cbn [cm pool doc nextId].
        destruct (last (pool (cm w))); reflexivity. }
      rewrite Hn in Hact. cbn [cm active spawnAccumulator] in Hact, Hacc.
      rewrite Hact, Hacc. unfold w0. cbn [cm active spawnAccumulator].
      split; [reflexivity |].
      split; [tauto |].
      split; [intros; lia |].
      split; [intros _; split; [exact Hcross | exact Hlt] |].
      split; [reflexivity |].
      intros _.
      rewrite size_union_alt, size_singleton.
      assert (Hs : active (cm w) ∖ {[fst (getNode w)]} ⊆ active (cm w)).
      { intros m Hm. apply elem_of_difference in Hm. tauto. }
      apply subseteq_size in Hs. subst live. lia.
    + cbn [fst ret cm active spawnAccumulator pool doc pending].
      unfold unchanged_but_accumulator. cbn [cm active pool doc pending].
      repeat split; try (intros; lia); try tauto.
  - assert (Hno : ~ (threshold <= acc)%Q).
    { intros Hc. apply Qle_bool_iff in Hc. congruence. }
    cbn [fst ret cm active spawnAccumulator pool doc pending].
    unfold unchanged_but_accumulator. cbn [cm active pool doc pending].
    repeat split; try tauto; try congruence.
Qed.
End TickGate.

Section Dissolve.
Import CapsuleManager.
Variable cfg : Config Q.
Variable page : Page.
Variable host : Host Q.

Lemma jitter_early (n : nat) (start now : Q) (w : World Q) (t : Tape Q) :
  ((now - start) / 500 < 1)%Q ->
  let w' := fst (jitter n start now w t) in
  cm w' = cm w /\ pending w' = pending w
  /\ nextId (doc w') = nextId (doc w)
  /\ container (doc w') = container (doc w)
  /\ opacityOf w' n = Some (fadeAt start now).
Proof.
  intros Ht. unfold jitter.
  change (leb (ofZ 1) (div (sub now start) (ofZ 500)))
    with (Qle_bool 1 ((now - start) / 500)).
  destruct (Qle_bool 1 ((now - start) / 500)) eqn:Hle.
  - apply Qle_bool_iff in Hle. lra.
  - rewrite !bind_run. unfold opacityOf. cbn [fst ret cm doc pending].
    rewrite getNodeOf_setNode. repeat split.
Qed.

Lemma jitter_final (n : nat) (start now : Q) (w : World Q) (t : Tape Q) :
  (1 <= (now - start) / 500)%Q ->
  let w' := fst (jitter n start now w t) in
  active (cm w') = active (cm w) ∖ {[n]}
  /\ pool (cm w') = pool (cm w) ++ [n]
  /\ container (doc w') = base.filter (fun m => m <> n) (container (doc w))
  /\ nodes (doc w') = nodes (doc w)
  /\ nextId (doc w') = nextId (doc w)
  /\ dissolving (pending w') = delete n (dissolving (pending w)).
Proof.
  intros Ht. unfold jitter.
  change (leb (ofZ 1) (div (sub now start) (ofZ 500)))
    with (Qle_bool 1 ((now - start) / 500)).
  apply Qle_bool_iff in Ht. rewrite Ht.
  cbn. repeat split.
Qed.

Lemma run_app (evs1 evs2 : list (Event Q)) (w : World Q) (t : Tape Q) :
  run cfg page host (evs1 ++ evs2) w t
  = match fst (run cfg page host evs1 w t) with
    | Some w1 =>
        run cfg page host evs2 w1 (snd (run cfg page host evs1 w t))
    | None => (None, snd (run cfg page host evs1 w t))
    end.
Proof.
  revert w t. induction evs1 as [| ev evs1 IH]; intros w t.
  - reflexivity.
  - cbn [app run]. rewrite !bind_run.
    destruct (fst (step cfg page host ev w t)) as [w1 |].
    + apply IH.
    + reflexivity.
Qed.

Lemma run_early_frames (n : nat) (start : Q) (early : list Q)
  (w : World Q) (t : Tape Q) :
  dissolving (pending w) !! n = Some start ->
  Forall (fun now => ((now - start) / 500 < 1)%Q) early ->
  exists w1,
    fst (run cfg page host (frames n early) w t) = Some w1
    /\ cm w1 = cm w /\ pending w1 = pending w
    /\ nextId (doc w1) = nextId (doc w)
    /\ container (doc w1) = container (doc w)
    /\ opacityOf w1 n
       = match last early with
         | Some now => Some (fadeAt start now)
         | None => opacityOf w n
         end.
Proof.
  intros Hd Hearly. revert w t Hd.
  induction Hearly as [| now early Hnow Hearly IH]; intros w t Hd.
  - exists w. repeat split.
  - cbn [frames map run]. rewrite bind_run.
    cbn [step]. rewrite Hd. rewrite bind_run. cbn [fst snd ret].
    destruct (jitter_early n start now w t Hnow)
      as (Hcm & Hpend & Hid & Hcont & Hop).
    set (w1 := fst (jitter n start now w t)) in *.
    destruct (IH w1 (snd (jitter n start now w t))) as (w2 & Hrun & H2).
    { rewrite Hpend. exact Hd. }
    exists w2. split; [exact Hrun |].
    destruct H2 as (Hcm2 & Hpend2 & Hid2 & Hcont2 & Hop2).
    repeat split; try congruence.
    rewrite Hop2. destruct early as [| now' early']; [exact Hop |].
    change (last (now :: now' :: early')) with (last (now' :: early')).
    destruct (last (now' :: early')) eqn:Hl; [reflexivity |].
    apply last_None in Hl. discriminate.
Qed.
End Dissolve.

Section DissolveClaim.
Import CapsuleManager.
Variable cfg : Config Q.
Variable page : Page.
Variable host : Host Q.

Lemma getNode_pooled (w : World Q) (n : nat) (rest : list nat) :
  pool (cm w) = rest ++ [n] ->
  fst (getNode w) = n
  /\ pool (cm (snd (getNode w))) = rest
  /\ doc (snd (getNode w)) = doc w.
Proof.
  intros Hp. unfold getNode. rewrite Hp, last_snoc, removelast_last.
  repeat split.
Qed.

(** A node taken from the pool keeps, through [spawnRandom], whatever
    transform it had. *)
Lemma spawnRandom_keeps_transform
  (dateNow : Z) (w : World Q) (n : nat) (rest : list nat) (t : Tape Q) :
  pool (cm w) = rest ++ [n] ->
  Css.transform
    (style (getNodeOf (doc (fst (spawnRandom cfg page host dateNow w t))) n))
  = Css.transform (style (getNodeOf (doc w) n)).
Proof.
  intros Hp.
  destruct (getNode_pooled w n rest Hp) as (Hn & _ & Hdoc).
  destruct (always_spawnRandom cfg page host dateNow w t)
    as (_ & _ & _ & _ & _ & Htr & _).
  rewrite Hn, Hdoc in Htr. exact Htr.
Qed.

(** Claim C8, amended.  For a node whose dissolve started at [start]:
    every frame earlier than 500 ms after [start] sets the opacity to
    [1 - (now - start) / 500], a positive value, and leaves the node
    live; the first frame at or after 500 ms writes no opacity, removes
    the node from the live set and from the container and pushes it on
    the pool, so that [getNode], and the next [spawnRandom], take this
    node and create none. *)
Theorem dissolve_fades_then_releases
  (n : nat) (start : Q) (early : list Q) (final : Q) (dateNow : Z)
  (w : World Q) (t : Tape Q) :
  dissolving (pending w) !! n = Some start ->
  Forall (fun now => ((now - start) / 500 < 1)%Q) early ->
  (1 <= (final - start) / 500)%Q ->
  let shown :=
    match last early with
    | Some now => Some (fadeAt start now)
    | None => opacityOf w n
    end in
  Forall (fun now => (0 < fadeAt start now)%Q) early
  /\ (exists w1,
        fst (run cfg page host (frames n early) w t) = Some w1
        /\ cm w1 = cm w /\ container (doc w1) = container (doc w)
        /\ dissolving (pending w1) !! n = Some start
        /\ opacityOf w1 n = shown)
  /\ (exists w2,
        fst (run cfg page host (frames n (early ++ [final])) w t) = Some w2
        /\ opacityOf w2 n = shown
        /\ (n ∉ active (cm w2))
        /\ ~ In n (container (doc w2))
        /\ dissolving (pending w2) !! n = None
        /\ pool (cm w2) = pool (cm w) ++ [n]
        /\ fst (getNode w2) = n
        /\ nextId (doc (snd (getNode w2))) = nextId (doc w)
        /\ forall t',
             let w3 := fst (spawnRandom cfg page host dateNow w2 t') in
             active (cm w3) = {[n]} ∪ active (cm w2)
             /\ pool (cm w3) = pool (cm w)
             /\ nextId (doc w3) = nextId (doc w)).
Proof.
  intros Hd Hearly Hfinal shown.
  destruct (run_early_frames cfg page host n start early w t Hd Hearly)
    as (w1 & Hrun1 & Hcm1 & Hpend1 & Hid1 & Hcont1 & Hop1).
  split; [| split].
  - eapply Forall_impl; [exact Hearly |].
    intros now Hnow. unfold fadeAt. cbv beta in Hnow. lra.
  - exists w1. repeat split; try assumption. rewrite Hpend1. exact Hd.
  - unfold frames. rewrite map_app. rewrite run_app.
    fold (frames n early). rewrite Hrun1.
    cbn [map run]. rewrite bind_run. cbn [step].
    rewrite Hpend1, Hd. rewrite bind_run. cbn [fst snd ret].
    set (t1 := snd (run cfg page host (frames n early) w t)).
    destruct (jitter_final n start final w1 t1 Hfinal)
      as (Hact & Hpool & Hcont & Hnodes & Hid & Hdis).
    set (w2 := fst (jitter n start final w1 t1)) in *.
    exists w2. split; [reflexivity |].
    assert (Hp2 : pool (cm w2) = pool (cm w) ++ [n])
      by (rewrite Hpool, Hcm1; reflexivity).
    destruct (getNode_pooled w2 n (pool (cm w)) Hp2) as (Hg1 & Hg2 & Hg3).
    repeat split.
    + unfold shown. rewrite <- Hop1. unfold opacityOf, getNodeOf.
      rewrite Hnodes.
      reflexivity.
    + rewrite Hact. intros Hin. apply elem_of_difference in Hin.
      destruct Hin as [_ Hn]. apply Hn. apply elem_of_singleton.
      reflexivity.
    + rewrite Hcont. intros Hin. apply list_elem_of_In in Hin.
      apply list_elem_of_filter in Hin. destruct Hin as [Hne _].
      congruence.
    + rewrite Hdis. apply lookup_delete_eq.
    + exact Hp2.
    + exact Hg1.
    + rewrite Hg3, Hid, Hid1. reflexivity.
    + destruct (always_spawnRandom cfg page host dateNow w2 t')
        as (Ha & _). rewrite Hg1 in Ha. exact Ha.
    + destruct (always_spawnRandom cfg page host dateNow w2 t')
        as (_ & _ & Hp & _). rewrite Hp. exact Hg2.
    + destruct (always_spawnRandom cfg page host dateNow w2 t')
        as (_ & _ & _ & Hi & _). rewrite Hi, Hg3, Hid, Hid1. reflexivity.
Qed.
End DissolveClaim.

(** *** A recorded session *)

(** Claim C7 fails.  In the recorded session the node of the first capsule
    is released with the transform of its last jitter frame; the next
    spawn takes it from the pool, resets its class, opacity, position and
    children, and the capsule is typed out and shown at full opacity with
    that transform still set. *)
Theorem pool_reuse_keeps_transform :
  let released := fst (session firstLife) in
  let reused := fst (session (firstLife ++ ticks 17)) in
  let shown := fst (session (firstLife ++ ticks 17 ++ secondTyping)) in
  (CapsuleManager.pool <$> (CapsuleManager.cm <$> released)) = Some [0%nat]
  /\ styleOf released 0
     = Some {| Css.opacity := Some (250 # 500)%Q; Css.left := Some 73;
               Css.top := Some 231;
               Css.transform := Some (1290 # 1010, -2550 # 1010)%Q;
               Css.filter := EmptyString |}
  /\ (CapsuleManager.pool <$> (CapsuleManager.cm <$> reused)) = Some []
  /\ (elements <$> (CapsuleManager.active <$> (CapsuleManager.cm <$> reused)))
     = Some [0%nat]
  /\ (CapsuleManager.nextId <$> (CapsuleManager.doc <$> reused)) = Some 1%nat
  /\ styleOf reused 0
     = Some {| Css.opacity := Some 0%Q; Css.left := Some 265;
               Css.top := Some 422;
               Css.transform := Some (1290 # 1010, -2550 # 1010)%Q;
               Css.filter := EmptyString |}
  /\ styleOf shown 0
     = Some {| Css.opacity := Some 1%Q; Css.left := Some 265;
               Css.top := Some 422;
               Css.transform := Some (1290 # 1010, -2550 # 1010)%Q;
               Css.filter := EmptyString |}.
Proof. repeat split; vm_compute; reflexivity. Qed.

(** Claim C8 as stated fails: in the recorded session the opacities
    written during the dissolve are 0.968, 0.5 and again 0.5 after the
    closing frame, the node is back in the pool, and no opacity is 0. *)
Lemma dissolve_opacity_stays_positive :
  opacityLog 0 (frames 0 [7016; 7250; 7500]%Q) dissolvingWorld dissolvingTape
  = [Some (1 - (7016 - 7000) / 500); Some (1 - (7250 - 7000) / 500);
     Some (1 - (7250 - 7000) / 500)]%Q
  /\ (CapsuleManager.pool <$> (CapsuleManager.cm <$> fst (session firstLife)))
     = Some [0%nat]
  /\ ~ reachesZero
         (opacityLog 0 (frames 0 [7016; 7250; 7500]%Q)
            dissolvingWorld dissolvingTape).
Proof.
  assert (Hlog :
    opacityLog 0 (frames 0 [7016; 7250; 7500]%Q) dissolvingWorld dissolvingTape
    = [Some (1 - (7016 - 7000) / 500); Some (1 - (7250 - 7000) / 500);
       Some (1 - (7250 - 7000) / 500)]%Q)
    by (vm_compute; reflexivity).
  split; [exact Hlog |]. split; [vm_compute; reflexivity |].
  rewrite Hlog. unfold reachesZero. intros Hex.
  repeat (apply Exists_cons in Hex; destruct Hex as [Hex | Hex];
          [vm_compute in Hex; discriminate |]).
  apply Exists_nil in Hex. exact Hex.
Qed.

Lemma tick_spawn_gate_witness :
  unit_tape demoTape
  /\ (let threshold := fst (rand (dec 6 10) (dec 14 10) demoTape) in
      let w' :=
        fst (CapsuleManager.tick sessionConfig demoPage demoHost (1 # 20)%Q
               1754904600000 CapsuleManager.constructor demoTape) in
      (6 # 10 <= threshold /\ threshold < 14 # 10)%Q
      /\ Z.of_nat (size (CapsuleManager.active (CapsuleManager.cm w')))
         <= maxCapsules sessionConfig).
Proof.
  split; [exact demoTape_unit |].
  destruct (tick_spawn_gate sessionConfig demoPage demoHost (1 # 20)%Q
              1754904600000 CapsuleManager.constructor demoTape
              demoTape_unit)
    as (Hrange & _ & _ & _ & _ & _ & Hcap).
  split; [exact Hrange |].
  apply Hcap. vm_compute. discriminate.
Defined.

Lemma dissolve_fades_then_releases_witness :
  CapsuleManager.dissolving (CapsuleManager.pending dissolvingWorld) !! 0%nat
  = Some 7000%Q
  /\ Forall (fun now => ((now - 7000) / 500 < 1)%Q) [7016; 7250]%Q
  /\ (1 <= (7500 - 7000) / 500)%Q
  /\ exists w2,
       fst (CapsuleManager.run sessionConfig demoPage demoHost
              (frames 0 ([7016; 7250] ++ [7500])%Q)
              dissolvingWorld dissolvingTape) = Some w2
       /\ opacityOf w2 0 = Some (fadeAt 7000 7250)
       /\ fst (CapsuleManager.getNode w2) = 0%nat.
Proof.
  assert (Hd : CapsuleManager.dissolving
                 (CapsuleManager.pending dissolvingWorld) !! 0%nat
               = Some 7000%Q) by (vm_compute; reflexivity).
  assert (He : Forall (fun now => ((now - 7000) / 500 < 1)%Q) [7016; 7250]%Q)
    by (repeat constructor).
  assert (Hf : (1 <= (7500 - 7000) / 500)%Q) by (vm_compute; discriminate).
  split; [exact Hd |]. split; [exact He |]. split; [exact Hf |].
  destruct (dissolve_fades_then_releases sessionConfig demoPage demoHost
              0 7000%Q [7016; 7250]%Q 7500%Q 1754904600000
              dissolvingWorld dissolvingTape Hd He Hf)
    as (_ & _ & w2 & Hrun & Hop & _ & _ & _ & _ & Hnode & _).
  exists w2. split; [exact Hrun |]. split; [exact Hop | exact Hnode].
Defined.

(** In binary64 the last step of [rand] rounds: when [Math.random()]
    returns the largest double below 1, [randi(2, 6)] is 6 and
    [rand(0.6, 1.4)] is the double [1.4]. *)
Lemma rand_rounds_up_binary64 :
  fst (randi (ofZ 2) (ofZ 6) (fun _ => lastDouble)) = 6
  /\ fst (rand (dec 6 10) (dec 14 10) (fun _ => lastDouble))
     = (dec 14 10 : spec_float).
Proof. split; vm_compute; reflexivity. Qed.

(* ------------------------------------------------------------------ *)
(** ** Further properties *)

(** *** Money *)












Lemma list_ascii_app (a b : string) :
  list_ascii_of_string (a ++ b)%string
  = list_ascii_of_string a ++ list_ascii_of_string b.
Proof.
  induction a as [| c a IH]; simpl; [reflexivity | f_equal; exact IH].
Qed.



(** *** Random utilities *)

Lemma Qfloor_lower (z : Z) (x : Q) : (inject_Z z <= x)%Q -> z <= Qfloor x.
Proof.
  intros Hx. rewrite <- (Qfloor_Z z). apply Qfloor_resp_le. exact Hx.
Qed.

Lemma Qfloor_upper (z : Z) (x : Q) : (x <= inject_Z z)%Q -> Qfloor x <= z.
Proof.
  intros Hx. rewrite <- (Qfloor_Z z). apply Qfloor_resp_le. exact Hx.
Qed.

Lemma Qfloor_below (z : Z) (x : Q) : (x < inject_Z z)%Q -> Qfloor x < z.
Proof.
  intros Hx. rewrite Zlt_Qlt. eapply Qle_lt_trans; [apply Qfloor_le | exact Hx].
Qed.

Lemma randi_range (a b : Z) :
  post (randi (inject_Z a) (inject_Z b))
       (fun i => (a < b -> a <= i < b) /\ (b <= a -> b <= i <= a)).
Proof.
  intros t Ht. destruct (Ht 0%nat) as [Hu0 Hu1].
  split; [| intros n; apply Ht].
  change (fst (randi (inject_Z a) (inject_Z b) t))
    with (Qfloor (t 0%nat * (inject_Z b - inject_Z a) + inject_Z a)).
  set (u := t 0%nat) in *.
  split; intros Hab.
  - assert (Hq : (inject_Z a < inject_Z b)%Q) by (rewrite <- Zlt_Qlt; lia).
    split; [apply Qfloor_lower | apply Qfloor_below]; nra.
  - assert (Hq : (inject_Z b <= inject_Z a)%Q) by (rewrite <- Zle_Qle; lia).
    split; [apply Qfloor_lower | apply Qfloor_upper]; nra.
Qed.


(** Property X4.
    [choice(arr)] on a non-empty array reads within the array, at the
    index [i] with [i <= Math.random() * arr.length < i + 1]: every index
    gets an interval of draws of the same width.  On an empty array it
    reads [undefined]. *)
Theorem choice_index {A} (undef : A) (arr : list A) (t : Tape Q) :
  unit_tape t ->
  let len := Z.of_nat (length arr) in
  (arr = [] -> fst (choice undef arr t) = undef)
  /\ (arr <> [] ->
      exists i : nat,
        (i < length arr)%nat
        /\ arr !! i = Some (fst (choice undef arr t))
        /\ (inject_Z (Z.of_nat i) <= t 0%nat * inject_Z len
            /\ t 0%nat * inject_Z len < inject_Z (Z.of_nat i + 1))%Q).
Proof.
  intros Ht len. destruct (Ht 0%nat) as [Hu0 Hu1].
  change (fst (choice undef arr t))
    with (nth (Z.to_nat
                 (Qfloor (t 0%nat * (inject_Z len - inject_Z 0) + inject_Z 0)))
              arr undef).
  set (u := t 0%nat) in *.
  assert (Hx : (u * (inject_Z len - inject_Z 0) + inject_Z 0
                == u * inject_Z len)%Q) by (change (inject_Z 0) with 0%Q; ring).
  rewrite (Qfloor_comp _ _ Hx).
  split.
  - intros ->. destruct (Z.to_nat _); reflexivity.
  - intros Hne.
    assert (Hlen : 0 < len)
      by (subst len; destruct arr; [congruence | cbn; lia]).
    assert (Hq : (0 < inject_Z len)%Q)
      by (change 0%Q with (inject_Z 0); rewrite <- Zlt_Qlt; exact Hlen).
    set (i := Qfloor (u * inject_Z len)).
    assert (Hi0 : 0 <= i)
      by (apply Qfloor_lower; change (inject_Z 0) with 0%Q; nra).
    assert (Hi1 : i < len) by (apply Qfloor_below; nra).
    exists (Z.to_nat i). split; [subst len; lia |]. split.
    + destruct (nth_lookup_or_length arr (Z.to_nat i) undef) as [Hl | Hl];
        [exact Hl | subst len; lia].
    + rewrite Z2Nat.id by exact Hi0. split.
      * apply Qfloor_le.
      * apply Qlt_floor.
Qed.

Lemma fold_left_totalWeight {A} (pairs : list (A * Z)) (a : Z) :
  fold_left (fun s p => s + snd p) pairs a = a + totalWeight pairs.
Proof.
  revert a. induction pairs as [| p rest IH]; intros a; cbn [fold_left].
  - cbn. lia.
  - rewrite IH. cbn [totalWeight fold_right]. fold (totalWeight rest). lia.
Qed.

Lemma weightedChoice_loop_Some {A} (pairs : list (A * Z)) (r : Q) (v : A) :
  weightedChoice_loop r pairs = Some v ->
  exists pre w rest,
    pairs = pre ++ (v, w) :: rest
    /\ (r <= inject_Z (totalWeight pre + w))%Q
    /\ (pre = [] \/ (inject_Z (totalWeight pre) < r)%Q).
Proof.
  revert r. induction pairs as [| [v' w'] rest IH]; intros r;
    cbn [weightedChoice_loop]; [discriminate |].
  cbn [leb sub ofZ Q_JsNum].
  destruct (Qle_bool (r - inject_Z w') (inject_Z 0)) eqn:Hle.
  - intros [= <-]. apply Qle_bool_iff in Hle.
    exists [], w', rest. split; [reflexivity |]. split; [| left; reflexivity].
    cbn [totalWeight fold_right]. change (inject_Z 0) with 0%Q in Hle.
    change (0 + w') with w'. lra.
  - intros Hrest. destruct (IH _ Hrest) as (pre & w & post & -> & Hup & Hlo).
    assert (Hgt : (inject_Z w' < r)%Q).
    { apply Qnot_le_lt. intros Hc.
      assert (Hb : Qle_bool (r - inject_Z w') (inject_Z 0) = true)
        by (apply Qle_bool_iff; change (inject_Z 0) with 0%Q; lra).
      congruence. }
    exists ((v', w') :: pre), w, post. split; [reflexivity |].
    cbn [totalWeight fold_right snd]. fold (totalWeight pre).
    rewrite <- Z.add_assoc, !inject_Z_plus in *. split; [lra |].
    right. destruct Hlo as [-> | Hlo].
    + cbn. change (inject_Z 0) with 0%Q. lra.
    + lra.
Qed.

Lemma weightedChoice_loop_None {A} (pairs : list (A * Z)) (r : Q) :
  pairs <> [] -> weightedChoice_loop r pairs = None ->
  (inject_Z (totalWeight pairs) < r)%Q.
Proof.
  revert r. induction pairs as [| [v' w'] rest IH]; intros r Hne;
    [congruence |].
  cbn [weightedChoice_loop leb sub ofZ Q_JsNum].
  destruct (Qle_bool (r - inject_Z w') (inject_Z 0)) eqn:Hle; [discriminate |].
  assert (Hgt : (inject_Z w' < r)%Q).
  { apply Qnot_le_lt. intros Hc.
    assert (Hb : Qle_bool (r - inject_Z w') (inject_Z 0) = true)
      by (apply Qle_bool_iff; change (inject_Z 0) with 0%Q; lra).
    congruence. }
  intros Hrest. cbn [totalWeight fold_right snd]. fold (totalWeight rest).
  rewrite inject_Z_plus.
  destruct rest as [| p rest'].
  - cbn. change (inject_Z 0) with 0%Q. lra.
  - specialize (IH _ ltac:(discriminate) Hrest). lra.
Qed.

Lemma totalWeight_nonneg {A} (pairs : list (A * Z)) :
  Forall (fun p => 0 <= snd p) pairs -> 0 <= totalWeight pairs.
Proof.
  induction 1 as [| p rest Hp _ IH]; cbn [totalWeight fold_right];
    [lia | fold (totalWeight rest); lia].
Qed.

(** Property X5.
    [weightedChoice(pairs)] on a non-empty table of non-negative weights
    returns the first entry whose running total of weights reaches the
    roll [Math.random() * total]; the closing [return] of the last entry
    is never reached.  An entry of weight [w] is thus chosen on an
    interval of rolls of width [w]. *)
Theorem weightedChoice_interval {A} (undef : A) (pairs : list (A * Z))
  (t : Tape Q) :
  unit_tape t -> pairs <> [] -> Forall (fun p => 0 <= snd p) pairs ->
  let roll := (t 0%nat * inject_Z (totalWeight pairs))%Q in
  exists pre v w rest,
    pairs = pre ++ (v, w) :: rest
    /\ fst (weightedChoice undef pairs t) = v
    /\ (roll <= inject_Z (totalWeight pre + w))%Q
    /\ (pre = [] \/ (inject_Z (totalWeight pre) < roll)%Q).
Proof.
  intros Ht Hne Hw roll. destruct (Ht 0%nat) as [Hu0 Hu1].
  pose proof (totalWeight_nonneg pairs Hw) as Htot.
  assert (Hq : (0 <= inject_Z (totalWeight pairs))%Q)
    by (change 0%Q with (inject_Z 0); rewrite <- Zle_Qle; exact Htot).
  unfold weightedChoice. rewrite bind_run.
  rewrite fold_left_totalWeight. change (0 + totalWeight pairs)
    with (totalWeight pairs).
  change (mul (fst (random t)) (ofZ (totalWeight pairs))) with roll.
  destruct (weightedChoice_loop roll pairs) as [v |] eqn:Hloop.
  - destruct (weightedChoice_loop_Some _ _ _ Hloop)
      as (pre & w & rest & Hp & Hup & Hlo).
    exists pre, v, w, rest. repeat split; assumption.
  - pose proof (weightedChoice_loop_None _ _ Hne Hloop) as Hc.
    exfalso. subst roll. nra.
Qed.

(** *** Hex capsules *)

Lemma hexValue_hexDigit (k : N) :
  (k < 16)%N -> hexValue (CapsuleManager.hexDigit k) = Some k.
Proof.
  intros Hk. rewrite <- (N2Nat.id k).
  assert (Hn : (N.to_nat k < 16)%nat) by lia.
  generalize dependent (N.to_nat k). intros n Hn.
  do 16 (destruct n as [| n]; [reflexivity |]). lia.
Qed.

Lemma hexByte_chars (b : N) :
  list_ascii_of_string (CapsuleManager.hexByte b)
  = [CapsuleManager.hexDigit (b / 16); CapsuleManager.hexDigit (b mod 16)].
Proof. reflexivity. Qed.

Lemma concat_cons_cons (sep x y : string) (l : list string) :
  String.concat sep (x :: y :: l)
  = (x ++ sep ++ String.concat sep (y :: l))%string.
Proof. reflexivity. Qed.

Lemma hexDecode_encode (bytes : list N) :
  Forall (fun b => (b < 256)%N) bytes ->
  hexDecode
    (list_ascii_of_string
       (String.concat " " (map CapsuleManager.hexByte bytes)))
  = Some bytes.
Proof.
  induction 1 as [| b rest Hb _ IH]; [reflexivity |].
  assert (Hhi : (b / 16 < 16)%N) by (apply N.Div0.div_lt_upper_bound; lia).
  assert (Hlo : (b mod 16 < 16)%N) by (apply N.mod_lt; lia).
  assert (Hval : (16 * (b / 16) + b mod 16 = b)%N)
    by (symmetry; apply N.div_mod; lia).
  destruct rest as [| b' rest'].
  - cbn [map String.concat]. rewrite hexByte_chars. cbn [hexDecode].
    rewrite (hexValue_hexDigit _ Hhi), (hexValue_hexDigit _ Hlo), Hval.
    reflexivity.
  - cbn [map] in *. rewrite concat_cons_cons, !list_ascii_app, hexByte_chars.
    cbn [app list_ascii_of_string hexDecode].
    rewrite (hexValue_hexDigit _ Hhi), (hexValue_hexDigit _ Hlo), Hval.
    cbn [Ascii.eqb Bool.eqb]. rewrite IH. reflexivity.
Qed.

Lemma land_255_ascii (c : ascii) : N.land (N_of_ascii c) 255 = N_of_ascii c.
Proof.
  change 255%N with (N.ones 8). rewrite N.land_ones.
  apply N.mod_small. apply N_ascii_bounded.
Qed.

Lemma string_length_app (a b : string) :
  String.length (a ++ b)%string = (String.length a + String.length b)%nat.
Proof.
  induction a as [| c a IH]; simpl; [reflexivity | f_equal; exact IH].
Qed.

Lemma hex_length (bytes : list N) :
  bytes <> [] ->
  String.length (String.concat " " (map CapsuleManager.hexByte bytes))
  = (3 * length bytes - 1)%nat.
Proof.
  induction bytes as [| b rest IH]; [congruence | intros _].
  destruct rest as [| b' rest'].
  - reflexivity.
  - cbn [map] in *. rewrite concat_cons_cons, !string_length_app.
    rewrite IH by discriminate.
    cbn [length String.length CapsuleManager.hexByte].
    lia.
Qed.

(** Property X6.
    The text of a hex capsule reads back, two hex digits at a time, as the
    bytes of [JSON.stringify(profile)], and a record of [n > 0] bytes
    gives [3n - 1] characters.  (The strings of the embedding are byte
    strings, so [& 0xff] drops nothing; the tables of the factory hold
    ASCII only.) *)
Theorem hex_capsule_decodes {T} `{JsNum T} (host : Host T)
  (profile : Profile) :
  let raw := list_ascii_of_string (JSON_stringify host profile false) in
  let text := CapsuleManager.capsuleText host "hex" profile in
  hexDecode (list_ascii_of_string text) = Some (map N_of_ascii raw)
  /\ (raw <> [] -> String.length text = (3 * length raw - 1)%nat).
Proof.
  intros raw text. subst text. unfold CapsuleManager.capsuleText.
  change (String.eqb "hex" "json") with false.
  change (String.eqb "hex" "inline") with false. cbv iota.
  fold raw.
  assert (Hmap : map (fun ch => N.land (N_of_ascii ch) 255) raw
                 = map N_of_ascii raw).
  { apply map_ext. intros c. apply land_255_ascii. }
  rewrite Hmap. split.
  - apply hexDecode_encode. apply Forall_map, Forall_forall.
    intros c _. apply N_ascii_bounded.
  - intros Hraw. rewrite hex_length.
    + rewrite length_map. reflexivity.
    + destruct raw; [congruence | discriminate].
Qed.

(** *** Sparkline and modes *)

Lemma post_sparkValue (seed : Z) :
  post (let* u := random in
        ret (clamp Z.ltb
               (round (add (ofZ seed) (mul (sub u (dec 5 10)) (ofZ 20))))
               0 100))
       (fun v => 0 <= v <= 100 /\ (seed <= 89 -> v <= 99)
                 /\ (0 <= seed <= 100 -> seed - 10 <= v <= seed + 10)).
Proof.
  eapply post_bind; [apply post_random |].
  intros u [Hu0 Hu1]. apply post_ret.
  set (x := add (ofZ seed) (mul (sub u (dec 5 10)) (ofZ 20))).
  assert (Hx : (inject_Z (seed - 10) <= x + (1 # 2)
                /\ x + (1 # 2) < inject_Z (seed + 11))%Q).
  { subst x. unfold dec. cbn [add mul sub div ofZ Q_JsNum].
    replace (seed - 10) with (seed + -10) by lia.
    rewrite !inject_Z_plus. change (inject_Z (-10)) with (-10)%Q.
    change (inject_Z 5) with 5%Q. change (inject_Z 10) with 10%Q.
    change (inject_Z 20) with 20%Q. change (inject_Z 11) with 11%Q.
    assert (Hd : (5 / 10 == 1 # 2)%Q) by reflexivity. rewrite Hd.
    split; lra. }
  assert (Hr : seed - 10 <= round x <= seed + 10).
  { change (round x) with (Qfloor (x + (1 # 2))). destruct Hx as [Hlo Hhi].
    split; [apply Qfloor_lower; exact Hlo |].
    apply Qfloor_below in Hhi. lia. }
  unfold clamp.
  destruct (Z.ltb_spec (round x) 0); [lia |].
  destruct (Z.ltb_spec 100 (round x)); lia.
Qed.

Lemma post_makeSparkCells (seed : Z) :
  post (CapsuleManager.makeSparkCells seed)
       (fun cells =>
          exists values,
            cells
            = map (fun v =>
                     CapsuleManager.blocks
                       !! Z.to_nat (floor (div (ofZ v) (dec 125 10) : Q)))
                  values
            /\ length values = 10%nat
            /\ Forall (fun v => 0 <= v <= 100 /\ (seed <= 89 -> v <= 99)
                                /\ (0 <= seed <= 100
                                    -> seed - 10 <= v <= seed + 10))
                      values).
Proof.
  unfold CapsuleManager.makeSparkCells.
  eapply post_bind;
    [apply post_replicateM; apply (post_sparkValue seed) |].
  intros values [Hlen Hvs]. apply post_ret.
  exists values. repeat split; assumption.
Qed.

(** Property X7.
    [makeSparkline(seed)] draws 10 values, each in [0, 100] and, for a
    seed in [0, 100], within 10 of it.  For a seed of at most 89 every
    value is below 100, every cell is one of the 8 blocks and the line is
    the 10 blocks joined; a cell is never anything but a block or
    [undefined]. *)
Theorem sparkline_blocks_below_90 (seed : Z) (t : Tape Q) :
  unit_tape t ->
  let cells := fst (CapsuleManager.makeSparkCells seed t) in
  length cells = 10%nat
  /\ Forall (fun c => forall b, c = Some b -> In b CapsuleManager.blocks) cells
  /\ (seed <= 89 ->
      exists bs,
        cells = map Some bs /\ Forall (fun b => In b CapsuleManager.blocks) bs
        /\ fst (CapsuleManager.makeSparkline seed t)
           = String.concat EmptyString bs).
Proof.
  intros Ht cells.
  destruct (post_makeSparkCells seed t Ht)
    as [(values & Hcells & Hlen & Hvs) _].
  fold cells in Hcells.
  split; [rewrite Hcells, length_map; exact Hlen |].
  split.
  - rewrite Hcells. apply Forall_map. apply Forall_forall. intros v _ b Hb.
    cbv beta in Hb. apply list_elem_of_lookup_2 in Hb.
    apply list_elem_of_In. exact Hb.
  - intros Hseed.
    assert (Hdef : Forall (fun v => is_Some (CapsuleManager.blocks
                     !! Z.to_nat (floor (div (ofZ v) (dec 125 10) : Q))))
                     values).
    { eapply Forall_impl; [exact Hvs |]. intros v (Hv & H99 & _).
      cbv beta. apply lookup_lt_is_Some.
      destruct (sparkline_index_bounds v Hv) as [Hk H8].
      cbv zeta in Hk, H8. specialize (H99 Hseed).
      change (length CapsuleManager.blocks) with 8%nat.
      assert (floor (div (ofZ v) (dec 125 10) : Q) <> 8) by (rewrite H8; lia).
      lia. }
    exists (map (fun v => default EmptyString
                   (CapsuleManager.blocks
                      !! Z.to_nat (floor (div (ofZ v) (dec 125 10) : Q))))
                values).
    split; [| split].
    + rewrite Hcells, map_map. apply map_ext_Forall.
      eapply Forall_impl; [exact Hdef |]. intros v [b Hb]. cbv beta.
      rewrite Hb. reflexivity.
    + apply Forall_map. eapply Forall_impl; [exact Hdef |].
      intros v [b Hb]. cbv beta. rewrite Hb. cbn [default].
      apply list_elem_of_In. eapply list_elem_of_lookup_2. exact Hb.
    + unfold CapsuleManager.makeSparkline. rewrite bind_run.
      fold cells. rewrite Hcells. cbn [fst ret].
      unfold CapsuleManager.join_cells. rewrite map_map. reflexivity.
Qed.

Lemma sparkline_blocks_below_90_witness :
  let cells := fst (CapsuleManager.makeSparkCells 40 demoTape) in
  length cells = 10%nat
  /\ Forall (fun c => forall b, c = Some b -> In b CapsuleManager.blocks) cells
  /\ (40 <= 89 ->
      exists bs,
        cells = map Some bs /\ Forall (fun b => In b CapsuleManager.blocks) bs
        /\ fst (CapsuleManager.makeSparkline 40 demoTape)
           = String.concat EmptyString bs).
Proof. exact (sparkline_blocks_below_90 40 demoTape demoTape_unit). Defined.

(** Property X8.
    [pickMode()] returns json, inline or hex, and hex only when
    [CONFIG.allowHexCapsules] is set. *)
Theorem pickMode_modes (cfg : Config Q) (t : Tape Q) :
  unit_tape t ->
  let mode := fst (CapsuleManager.pickMode cfg t) in
  (mode = "json" \/ mode = "inline" \/ mode = "hex")%string
  /\ (allowHexCapsules cfg = false -> mode <> "hex"%string).
Proof.
  intros Ht mode. subst mode. unfold CapsuleManager.pickMode.
  destruct (allowHexCapsules cfg).
  - destruct (post_choice "undefined"%string ["json"; "inline"; "hex"]%string
                ltac:(discriminate) t Ht) as [Hin _].
    cbn [app]. cbn [In] in Hin.
    split; [| discriminate].
    destruct Hin as [Hc | [Hc | [Hc | []]]]; rewrite <- Hc; auto.
  - destruct (post_choice "undefined"%string ["json"; "inline"]%string
                ltac:(discriminate) t Ht) as [Hin _].
    cbn [In] in Hin.
    destruct Hin as [Hc | [Hc | []]]; rewrite <- Hc;
      (split; [auto | discriminate]).
Qed.

Lemma pickMode_modes_witness :
  let mode := fst (CapsuleManager.pickMode CONFIG demoTape) in
  (mode = "json" \/ mode = "inline" \/ mode = "hex")%string
  /\ (allowHexCapsules (CONFIG (T:=Q)) = false -> mode <> "hex"%string).
Proof. exact (pickMode_modes CONFIG demoTape demoTape_unit). Defined.

(** *** Dissolve frames *)

Section DissolveFrames.
Import CapsuleManager.

(** Property X9.
    A frame of the dissolve before its end, on a clock that does not run
    backwards, rewrites the opacity of the node to a value in (0, 1] and
    its transform to an offset in [-3, 3) px on both axes; its class,
    children, position and filter, every other node, the manager and the
    pending callbacks stay as they were. *)
Theorem jitter_frame_offsets (n : nat) (start now : Q) (w : World Q)
  (t : Tape Q) :
  unit_tape t -> (start <= now)%Q -> ((now - start) / 500 < 1)%Q ->
  let w' := fst (jitter n start now w t) in
  let nd := getNodeOf (doc w) n in
  let nd' := getNodeOf (doc w') n in
  (exists o dx dy,
      Css.opacity (style nd') = Some o /\ (0 < o /\ o <= 1)%Q
      /\ Css.transform (style nd') = Some (dx, dy)
      /\ (-3 <= dx /\ dx < 3 /\ -3 <= dy /\ dy < 3)%Q)
  /\ className nd' = className nd /\ children nd' = children nd
  /\ Css.left (style nd') = Css.left (style nd)
  /\ Css.top (style nd') = Css.top (style nd)
  /\ Css.filter (style nd') = Css.filter (style nd)
  /\ (forall m, m <> n -> nodes (doc w') !! m = nodes (doc w) !! m)
  /\ cm w' = cm w /\ pending w' = pending w.
Proof.
  intros Ht Hclock Hearly w' nd nd'. subst w' nd'. unfold jitter.
  change (leb (ofZ 1) (div (sub now start) (ofZ 500)))
    with (Qle_bool 1 ((now - start) / 500)).
  destruct (Qle_bool 1 ((now - start) / 500)) eqn:Hle.
  { apply Qle_bool_iff in Hle. lra. }
  rewrite !bind_run. cbn [fst ret cm doc pending].
  rewrite getNodeOf_setNode. cbn [style className children Css.opacity
    Css.transform Css.left Css.top Css.filter].
  fold nd.
  split.
  - destruct (post_random t Ht) as [[Hu0 Hu1] Ht1].
    destruct (post_random _ Ht1) as [[Hv0 Hv1] _].
    set (u1 := fst (random t)) in *.
    set (u2 := fst (random (snd (random t)))) in *.
    eexists _, _, _. split; [reflexivity |].
    split; [| split; [reflexivity |]].
    + unfold dec. cbn [sub div ofZ Q_JsNum].
      change (inject_Z 1) with 1%Q. change (inject_Z 500) with 500%Q.
      split; [lra |].
      assert (0 <= (now - start) / 500)%Q; [| lra].
      apply Qle_shift_div_l; lra.
    + unfold dec. cbn [sub mul div ofZ Q_JsNum].
      assert (Hd : (inject_Z 5 / inject_Z 10 == 1 # 2)%Q) by reflexivity.
      rewrite Hd. change (inject_Z 6) with 6%Q.
      repeat split; lra.
  - repeat split. intros m Hm. unfold setNode. cbn [nodes].
    by rewrite lookup_insert_ne.
Qed.

End DissolveFrames.

Lemma jitter_frame_offsets_witness :
  let w' :=
    fst (CapsuleManager.jitter 0 7000%Q 7250%Q dissolvingWorld demoTape) in
  (7000 <= 7250)%Q /\ ((7250 - 7000) / 500 < 1)%Q
  /\ CapsuleManager.cm w' = CapsuleManager.cm dissolvingWorld
  /\ CapsuleManager.pending w' = CapsuleManager.pending dissolvingWorld.
Proof.
  assert (H1 : (7000 <= 7250)%Q) by lra.
  assert (H2 : ((7250 - 7000) / 500 < 1)%Q) by reflexivity.
  split; [exact H1 | split; [exact H2 |]].
  apply (jitter_frame_offsets 0 7000%Q 7250%Q dissolvingWorld demoTape
           demoTape_unit H1 H2).
Defined.

(** *** Spawn timing *)

Section QuietTicks.
Import CapsuleManager.
Variable cfg : Config Q.
Variable page : Page.
Variable host : Host Q.

Lemma tick_quiet (dt : Q) (dateNow : Z) (w : World Q) (t : Tape Q) :
  unit_tape t ->
  let acc :=
    (spawnAccumulator (cm w) + dt * (1 * capsuleRateScale cfg))%Q in
  (acc < 6 # 10)%Q ->
  fst (tick cfg page host dt dateNow w t)
  = {| cm := {| pool := pool (cm w); active := active (cm w);
                spawnAccumulator := acc |};
       doc := doc w; pending := pending w |}
  /\ unit_tape (snd (tick cfg page host dt dateNow w t)).
Proof.
  intros Ht acc Hacc.
  destruct (threshold_range t Ht) as [Hlo _]. cbv zeta in Hlo.
  assert (Hout : unit_tape (snd (rand (dec 6 10) (dec 14 10) t))).
  { apply (post_rand_any (dec 6 10) (dec 14 10) t Ht). }
  unfold tick. rewrite bind_run.
  set (threshold := fst (rand (dec 6 10) (dec 14 10) t)) in *.
  change (add (spawnAccumulator (cm w))
            (mul dt (mul (ofZ 1) (capsuleRateScale cfg)))) with acc.
  change (leb threshold acc) with (Qle_bool threshold acc).
  destruct (Qle_bool threshold acc) eqn:Hcross.
  - apply Qle_bool_iff in Hcross. lra.
  - split; [reflexivity | exact Hout].
Qed.

(** Property X10.
    No capsule is spawned before the accumulated [dt * rate] reaches 0.6:
    a run of ticks with non-negative [dt] whose accumulator ends below 0.6
    changes nothing but the accumulator, which is the running sum. *)
Theorem ticks_below_threshold_spawn_nothing (dts : list Q) (dateNow : Z)
  (w : World Q) (t : Tape Q) :
  unit_tape t -> (0 <= capsuleRateScale cfg)%Q ->
  Forall (fun dt => (0 <= dt)%Q) dts ->
  let total :=
    fold_left (fun acc dt => (acc + dt * (1 * capsuleRateScale cfg))%Q)
              dts (spawnAccumulator (cm w)) in
  (total < 6 # 10)%Q ->
  exists w',
    fst (run cfg page host (map (fun dt => EvTick dt dateNow) dts) w t)
    = Some w'
    /\ unchanged_but_accumulator w w'
    /\ spawnAccumulator (cm w') = total.
Proof.
  intros Ht Hrate Hdts. revert w t Ht.
  induction Hdts as [| dt dts Hdt Hdts IH]; intros w t Ht total Htotal.
  - exists w. repeat split.
  - cbn [map run]. rewrite bind_run. cbn [step]. rewrite bind_run.
    cbn [fst snd ret].
    set (acc := (spawnAccumulator (cm w)
                 + dt * (1 * capsuleRateScale cfg))%Q).
    assert (Hmono : forall l a,
               Forall (fun dt => (0 <= dt)%Q) l ->
               (a <= fold_left
                       (fun acc dt =>
                          (acc + dt * (1 * capsuleRateScale cfg))%Q) l a)%Q).
    { clear - Hrate. intros l a Hl. revert a.
      induction Hl as [| d l Hd Hl IHl]; intros a; cbn [fold_left].
      - lra.
      - eapply Qle_trans; [| apply IHl]. nra. }
    assert (Hacc : (acc < 6 # 10)%Q).
    { eapply Qle_lt_trans; [apply (Hmono dts acc Hdts) | exact Htotal]. }
    destruct (tick_quiet dt dateNow w t Ht Hacc) as [Hw1 Ht1].
    rewrite Hw1.
    rewrite Hw1 in Ht1 || idtac.
    set (w1 := {| cm := _; doc := doc w; pending := pending w |}).
    destruct (IH w1 _ Ht1 Htotal) as (w' & Hrun & Hsame & Hsum).
    exists w'. split; [exact Hrun |]. split; [| exact Hsum].
    unfold unchanged_but_accumulator in *. subst w1.
    cbn [cm doc pending active pool] in Hsame. exact Hsame.
Qed.

End QuietTicks.

Lemma ticks_below_threshold_spawn_nothing_witness :
  exists w',
    fst (CapsuleManager.run CONFIG demoPage demoHost
           (map (fun dt => CapsuleManager.EvTick dt 0) (repeat (1 # 20)%Q 11))
           CapsuleManager.constructor demoTape)
    = Some w'
    /\ unchanged_but_accumulator CapsuleManager.constructor w'.
Proof.
  assert (H1 : (0 <= capsuleRateScale (CONFIG (T:=Q)))%Q)
    by (vm_compute; discriminate).
  assert (H2 : Forall (fun dt => (0 <= dt)%Q) (repeat (1 # 20)%Q 11)).
  { repeat constructor; lra. }
  assert (H3 : (fold_left
                  (fun acc dt =>
                     (acc + dt * (1 * capsuleRateScale (CONFIG (T:=Q))))%Q)
                  (repeat (1 # 20)%Q 11)
                  (CapsuleManager.spawnAccumulator
                     (CapsuleManager.cm CapsuleManager.constructor))
                < 6 # 10)%Q) by reflexivity.
  destruct (ticks_below_threshold_spawn_nothing CONFIG demoPage demoHost
              (repeat (1 # 20)%Q 11) 0 CapsuleManager.constructor demoTape
              demoTape_unit H1 H2 H3) as (w' & Hrun & Hsame & _).
  exists w'. split; assumption.
Defined.

(** *** Pulse *)

Section Pulse.
Context {T : Type} `{JsNum T}.
Variable cfg : Config T.
Variable page : Page.
Variable host : Host T.
Import CapsuleManager.

(** Property X11.
    [pulseHighlights] acts only on a panel whose typed text is empty.
    Then the filter of the panel becomes brightness(1.5) and the timer it
    leaves restores the filter the panel had; after any non-empty text the
    filter is not touched and no timer is left.  Either way the panel ends
    at opacity 1. *)
Theorem pulse_only_on_empty_text (n : nat) (w : World T) (t t' : Tape T) :
  let nd := getNodeOf (doc w) n in
  let w1 := fst (typeDone n w t) in
  let filterOf (x : World T) := Css.filter (style (getNodeOf (doc x) n)) in
  Css.opacity (style (getNodeOf (doc w1) n)) = Some (ofZ 1)
  /\ (contentText nd = EmptyString ->
      filterOf w1 = "brightness(1.5)"%string
      /\ exists w2,
          fst (step cfg page host (EvPulseTimer n) w1 t') = Some w2
          /\ filterOf w2 = filterOf w
          /\ pulses (pending w2) !! n = None
          /\ Css.opacity (style (getNodeOf (doc w2) n)) = Some (ofZ 1))
  /\ (contentText nd <> EmptyString ->
      filterOf w1 = filterOf w
      /\ pulses (pending w1) = pulses (pending w)).
Proof.
  intros nd w1 filterOf. subst w1 filterOf. unfold typeDone.
  fold nd. unfold bind.
  destruct (randi (ofZ 2000) (ofZ 4000) t) as [hold t1].
  cbn [fst ret doc pending pulses].
  rewrite getNodeOf_setNode.
  destruct (String.eqb_spec (contentText nd) EmptyString) as [He | Hne].
  - split; [reflexivity |]. split; [| congruence].
    intros _. split; [reflexivity |].
    cbn [step pending pulses]. rewrite lookup_insert_eq.
    eexists. split; [reflexivity |].
    unfold pulseRevert. cbn [doc pending pulses].
    rewrite !getNodeOf_setNode. rewrite lookup_delete_eq.
    repeat split.
  - split; [reflexivity |]. split; [congruence |].
    intros _. split; reflexivity.
Qed.

End Pulse.

(** *** The invariant of the capsule manager *)

Lemma scheduled_insert {A} (m : gmap nat A) (n k : nat) (x : A) :
  scheduled (<[n := x]> m) k
  = if decide (n = k) then 1%nat else scheduled m k.
Proof.
  unfold scheduled. rewrite lookup_insert.
  destruct (decide (n = k)); reflexivity.
Qed.

Lemma scheduled_delete {A} (m : gmap nat A) (n k : nat) :
  scheduled (delete n m) k
  = if decide (n = k) then 0%nat else scheduled m k.
Proof.
  unfold scheduled. rewrite lookup_delete.
  destruct (decide (n = k)); reflexivity.
Qed.

Lemma scheduled_Some {A} (m : gmap nat A) (n : nat) (x : A) :
  m !! n = Some x -> scheduled m n = 1%nat.
Proof. unfold scheduled. intros ->. reflexivity. Qed.

Lemma scheduled_None {A} (m : gmap nat A) (n : nat) :
  m !! n = None -> scheduled m n = 0%nat.
Proof. unfold scheduled. intros ->. reflexivity. Qed.

Lemma scheduled_zero {A} (m : gmap nat A) (n : nat) :
  scheduled m n = 0%nat -> m !! n = None.
Proof. unfold scheduled. destruct (m !! n); [discriminate | reflexivity]. Qed.

Lemma scheduled_le {A} (m : gmap nat A) (n : nat) :
  (scheduled m n <= 1)%nat.
Proof. unfold scheduled. destruct (m !! n); lia. Qed.

Section Invariant.
Context {T : Type} `{JsNum T}.
Variable cfg : Config T.
Variable page : Page.
Variable host : Host T.
Import CapsuleManager.

Lemma getNodeOf_setNode_ne (n m : nat) (nd : Node T) (d : Document T) :
  m <> n -> getNodeOf (setNode n nd d) m = getNodeOf d m.
Proof.
  intros Hm. unfold getNodeOf, setNode. cbn [nodes].
  by rewrite lookup_insert_ne.
Qed.

Lemma panel_ext (nd nd' : Node T) :
  className nd' = className nd -> children nd' = children nd ->
  panel nd -> panel nd'.
Proof.
  intros Hc Hk (mode & content & rest & H1 & H2 & H3).
  exists mode, content, rest. rewrite Hc, Hk. auto.
Qed.

Lemma panel_appendContent (s : string) (nd : Node T) :
  panel nd -> panel (appendContent s nd).
Proof.
  intros (mode & content & rest & H1 & H2 & H3 & H4).
  exists mode, (mkChild (childClass content) (textContent content ++ s)), rest.
  unfold appendContent. cbn [className children]. rewrite H2.
  repeat split; try assumption; apply H4.
Qed.

Lemma wf_constructor (cap : Z) : wf cap (constructor (T:=T)).
Proof.
  unfold wf, wf_nodes, wf_phases, wf_jobs, constructor.
  cbn [cm doc pending pool active nodes nextId container typing pulses].
  assert (Hnil : forall n : nat, n ∉ ([] : list nat))
    by (intros n; apply not_elem_of_nil).
  assert (Hemp : forall n : nat, n ∉ (∅ : gset nat))
    by (intros n; apply not_elem_of_empty).
  assert (Hno : forall A (n : nat), ~ is_Some ((∅ : gmap nat A) !! n)).
  { intros A n [x Hx]. rewrite lookup_empty in Hx. discriminate. }
  split; [| split].
  - split; [constructor |].
    split; [intros n Hn; destruct (Hnil n Hn) |].
    split; [rewrite size_empty; reflexivity |].
    split; [intros n; split; [intros Hs; destruct (Hno _ n Hs) | lia] |].
    split;
      [intros n [Hn | Hn]; [destruct (Hemp n Hn) | destruct (Hnil n Hn)] |].
    split; [constructor |].
    split; [intros n; split; intros Hn;
            [destruct (Hnil n Hn) | destruct (Hemp n Hn)] |].
    split; [intros n Hs; destruct (Hno _ n Hs) |].
    split; [intros n Hn; destruct (Hemp n Hn) | cbn; lia].
  - intros n. unfold phaseCount, scheduled.
    cbn [pending typing holds dissolving cm active].
    rewrite !lookup_empty.
    destruct (decide (n ∈ (∅ : gset nat))) as [Hn | _];
      [destruct (Hemp n Hn) | reflexivity].
  - intros n job Hj. rewrite lookup_empty in Hj. discriminate.
Qed.

(** Replacing the node [n], already created, by one that is still a panel
    if [n] is live, keeps the invariant of the nodes. *)
Lemma wf_nodes_update (cap : Z) (n : nat) (nd' : Node T) (w w' : World T) :
  wf_nodes cap w -> (n < nextId (doc w))%nat ->
  cm w' = cm w -> nextId (doc w') = nextId (doc w) ->
  container (doc w') = container (doc w) ->
  nodes (doc w') = <[n := nd']> (nodes (doc w)) ->
  (forall k, is_Some (pulses (pending w') !! k) ->
             k = n \/ is_Some (pulses (pending w) !! k)) ->
  (n ∈ active (cm w) -> panel nd') ->
  wf_nodes cap w'.
Proof.
  intros (Hnd & Hdisj & Hcount & Hdom & Hlt & Hcnd & Hcont & Hpul & Hpan
          & Hcap) Hn Hcm Hid Hc Hnodes Hp Hpanel.
  unfold wf_nodes. rewrite Hcm, Hid, Hc, Hnodes.
  repeat split; try assumption.
  - rewrite lookup_insert_is_Some. intros [-> | [_ Hs]]; [exact Hn |].
    apply Hdom. exact Hs.
  - intros Hk. rewrite lookup_insert_is_Some.
    destruct (decide (n = n0)); [left; assumption | right].
    split; [assumption | apply Hdom; exact Hk].
  - apply Hcont.
  - apply Hcont.
  - intros k Hk. destruct (Hp k Hk) as [-> | Hk']; [exact Hn | auto].
  - intros k Hk. unfold getNodeOf. rewrite Hnodes, lookup_insert.
    destruct (decide (n = k)) as [-> | Hne]; cbn [default].
    + apply Hpanel. exact Hk.
    + apply (Hpan k Hk).
Qed.

Lemma typeDone_wf (cap : Z) (n : nat) (w : World T) :
  wf_nodes cap w -> n ∈ active (cm w) ->
  holds (pending w) !! n = None -> dissolving (pending w) !! n = None ->
  (forall m, m <> n ->
     phaseCount w m = if decide (m ∈ active (cm w)) then 1%nat else 0%nat) ->
  (forall m job, m <> n -> typing (pending w) !! m = Some job ->
                 chars job <> []) ->
  always (typeDone n w) (wf cap).
Proof.
  intros Hnodes Hn Hh Hd Hph Hjobs. unfold typeDone.
  eapply always_bind; [apply always_any | intros hold _].
  apply always_ret.
  assert (Hlt : (n < nextId (doc w))%nat).
  { destruct Hnodes as (_ & _ & _ & _ & Hlt & _). apply Hlt. left. exact Hn. }
  split; [| split].
  - eapply (wf_nodes_update cap n _ w); try exact Hnodes; try exact Hlt;
      try reflexivity.
    + cbn [pending pulses]. intros k.
      destruct (String.eqb _ _); [| auto].
      rewrite lookup_insert_is_Some. intros [<- | [_ Hk]]; auto.
    + intros _.
      destruct Hnodes as (_ & _ & _ & _ & _ & _ & _ & _ & Hpan & _).
      eapply panel_ext; [| | apply (Hpan n Hn)];
        destruct (String.eqb _ _); reflexivity.
  - intros m. unfold phaseCount. cbn [pending typing holds dissolving cm].
    rewrite scheduled_delete, scheduled_insert.
    destruct (decide (n = m)) as [<- | Hne].
    + rewrite (scheduled_None _ _ Hd).
      destruct (decide (n ∈ active (cm w))); [reflexivity | contradiction].
    + rewrite <- (Hph m) by congruence. reflexivity.
  - intros m job. cbn [pending typing]. rewrite lookup_delete.
    destruct (decide (n = m)) as [<- | Hne]; [discriminate |].
    apply Hjobs. congruence.
Qed.

Lemma typeStep_wf (cap : Z) (n : nat) (job : TypeJob T) (w : World T) :
  wf_nodes cap w -> n ∈ active (cm w) ->
  holds (pending w) !! n = None -> dissolving (pending w) !! n = None ->
  (forall m, m <> n ->
     phaseCount w m = if decide (m ∈ active (cm w)) then 1%nat else 0%nat) ->
  (forall m job, m <> n -> typing (pending w) !! m = Some job ->
                 chars job <> []) ->
  always (typeStep n job w) (wf cap).
Proof.
  intros Hnodes Hn Hh Hd Hph Hjobs. unfold typeStep.
  set (rest := skipn _ (chars job)).
  set (w1 := {| cm := cm w; doc := _; pending := _ |}).
  assert (Hlt : (n < nextId (doc w))%nat).
  { destruct Hnodes as (_ & _ & _ & _ & Hlt & _). apply Hlt. left. exact Hn. }
  assert (Hnodes1 : wf_nodes cap w1).
  { eapply (wf_nodes_update cap n _ w); try exact Hnodes; try exact Hlt;
      try reflexivity.
    - cbn [w1 pending pulses]. auto.
    - intros _.
      destruct Hnodes as (_ & _ & _ & _ & _ & _ & _ & _ & Hpan & _).
      apply panel_appendContent. apply (Hpan n Hn). }
  assert (Hph1 : forall m, m <> n ->
            phaseCount w1 m
            = if decide (m ∈ active (cm w1)) then 1%nat else 0%nat).
  { intros m Hm. unfold phaseCount, w1.
    cbn [pending typing holds dissolving cm].
    rewrite scheduled_insert.
    destruct (decide (n = m)); [congruence |]. apply (Hph m Hm). }
  assert (Hjobs1 : forall m j, m <> n -> typing (pending w1) !! m = Some j ->
                               chars j <> []).
  { intros m j Hm. unfold w1. cbn [pending typing].
    rewrite lookup_insert_ne by congruence. apply Hjobs. exact Hm. }
  destruct rest as [| c rest'] eqn:Hrest.
  - apply typeDone_wf; assumption.
  - apply always_ret. split; [exact Hnodes1 | split].
    + intros m.
      destruct (decide (m = n)) as [-> | Hm]; [| apply Hph1; exact Hm].
      unfold phaseCount, w1. cbn [pending typing holds dissolving cm].
      rewrite scheduled_insert.
      destruct (decide (n = n)); [| congruence].
      rewrite (scheduled_None _ _ Hh), (scheduled_None _ _ Hd).
      destruct (decide (n ∈ active (cm w))); [reflexivity | contradiction].
    + intros m j. destruct (decide (m = n)) as [-> | Hm];
        [| apply Hjobs1; exact Hm].
      unfold w1. cbn [pending typing]. rewrite lookup_insert_eq.
      intros [= <-]. cbn [chars]. discriminate.
Qed.

Lemma getNode_facts (cap : Z) (w : World T) :
  wf cap w -> Z.of_nat (size (active (cm w))) < cap ->
  let n := fst (getNode w) in
  let w1 := snd (getNode w) in
  active (cm w1) = active (cm w)
  /\ spawnAccumulator (cm w1) = spawnAccumulator (cm w)
  /\ container (doc w1) = container (doc w)
  /\ pending w1 = pending w
  /\ (n ∉ active (cm w)) /\ (n ∉ pool (cm w1))
  /\ NoDup (pool (cm w1))
  /\ (forall m, m ∈ pool (cm w1) -> m ∉ active (cm w))
  /\ nextId (doc w1)
     = (1 + size (active (cm w)) + length (pool (cm w1)))%nat
  /\ (forall m, is_Some (nodes (doc w1) !! m) <-> (m < nextId (doc w1))%nat)
  /\ (forall m, m ∈ active (cm w) \/ m ∈ pool (cm w1) \/ m = n ->
                (m < nextId (doc w1))%nat)
  /\ (forall m, is_Some (pulses (pending w) !! m) ->
                (m < nextId (doc w1))%nat)
  /\ (forall m, m ∈ active (cm w) -> panel (getNodeOf (doc w1) m))
  /\ Z.of_nat (nextId (doc w1)) <= Z.max 0 cap.
Proof.
  intros ((Hnd & Hdisj & Hcount & Hdom & Hlt & Hcnd & Hcont & Hpul & Hpan
           & Hcap) & Hph & Hjobs) Hlive n w1.
  subst n w1. unfold getNode.
  destruct (pool (cm w)) as [| x l _] eqn:Hpool using rev_ind.
  - cbn [last fst snd cm doc pending active pool nodes nextId container
         spawnAccumulator].
    rewrite Hpool in *. cbn [length] in Hcount.
    assert (Hfresh : nextId (doc w) ∉ active (cm w)).
    { intros Hin. pose proof (Hlt _ (or_introl Hin)). lia. }
    repeat split; try assumption; try reflexivity.
    + apply not_elem_of_nil.
    + cbn [length]. lia.
    + rewrite lookup_insert_is_Some. intros [<- | [_ Hs]]; [lia |].
      apply Hdom in Hs. lia.
    + intros Hm. rewrite lookup_insert_is_Some.
      destruct (decide (nextId (doc w) = m)); [left; assumption | right].
      split; [assumption | apply Hdom; lia].
    + intros m [Hm | [Hm | ->]]; [| destruct (not_elem_of_nil m Hm) | lia].
      pose proof (Hlt _ (or_introl Hm)). lia.
    + intros m Hm. pose proof (Hpul m Hm). lia.
    + intros m Hm. unfold getNodeOf. cbn [nodes].
      rewrite lookup_insert_ne; [apply (Hpan m Hm) |].
      intros Heq. subst m. contradiction.
    + lia.
  - rewrite last_snoc, removelast_last.
    cbn [fst snd cm doc pending active pool nodes nextId container
         spawnAccumulator].
    apply NoDup_app in Hnd. destruct Hnd as (Hl & Hlx & _).
    rewrite length_app in Hcount. cbn [length] in Hcount.
    assert (Hx : x ∈ l ++ [x]) by (apply elem_of_app; right; constructor).
    repeat split; try assumption; try reflexivity.
    + apply Hdisj. exact Hx.
    + intros Hin. apply (Hlx x Hin). constructor.
    + intros m Hm. apply Hdisj. apply elem_of_app. left. exact Hm.
    + lia.
    + apply Hdom.
    + apply Hdom.
    + intros m [Hm | [Hm | ->]]; apply Hlt.
      * left. exact Hm.
      * right. apply elem_of_app. left. exact Hm.
      * right. exact Hx.
Qed.

Lemma spawnRandom_wf (cap : Z) (dateNow : Z) (w : World T) :
  wf cap w -> Z.of_nat (size (active (cm w))) < cap ->
  always (spawnRandom cfg page host dateNow w) (wf cap).
Proof.
  intros Hwf Hlive. unfold spawnRandom.
  pose proof (getNode_facts cap w Hwf Hlive) as Hg. cbv zeta in Hg.
  destruct Hwf as (Hnodes & Hph & Hjobs).
  destruct (getNode w) as [n w1]. cbn [fst snd] in Hg.
  destruct Hg as (Hact & Hacc & Hcont1 & Hpend & Hn & Hnp & Hnd & Hdisj
                  & Hcount & Hdom & Hlt & Hpul & Hpan & Hcap).
  destruct Hnodes as (_ & _ & _ & _ & _ & Hcnd & Hcont & _).
  do 2 always_skip.
  eapply always_bind; [apply always_any | intros left _].
  eapply always_bind; [apply always_any | intros top _].
  eapply always_bind; [apply always_any | intros u _].
  eapply (always_bind _ _
            (fun sparkChild =>
               Forall (fun c => childClass c = "spark"%string) sparkChild
               /\ (length sparkChild <= 1)%nat)).
  { destruct (ltb u (dec 1 10)).
    - eapply always_bind; [apply always_any | intros line _].
      apply always_ret. split; [repeat constructor | cbn; lia].
    - apply always_ret. split; [constructor | cbn; lia]. }
  intros sparkChild [Hspark Hlen].
  eapply always_bind; [apply always_any | intros spc _].
  assert (Hzero : phaseCount w n = 0%nat).
  { rewrite Hph. destruct (decide (n ∈ active (cm w))); [contradiction |].
    reflexivity. }
  unfold phaseCount in Hzero.
  apply typeStep_wf.
  - unfold wf_nodes.
    cbn [cm doc pending pool active nodes nextId container].
    rewrite Hact, Hcont1, Hpend.
    split; [exact Hnd |].
    split.
    { intros m Hm Hin. apply elem_of_union in Hin.
      destruct Hin as [Hin | Hin].
      - apply elem_of_singleton in Hin. subst m. contradiction.
      - exact (Hdisj m Hm Hin). }
    split.
    { rewrite size_union, size_singleton; [lia |].
      intros m Hm1 Hm2. apply elem_of_singleton in Hm1. subst m.
      contradiction. }
    split.
    { intros m. rewrite lookup_insert_is_Some. split.
      - intros [<- | [_ Hs]]; [apply Hlt; auto | apply Hdom; exact Hs].
      - intros Hm. destruct (decide (n = m)); [left; assumption | right].
        split; [assumption | apply Hdom; exact Hm]. }
    split.
    { intros m [Hm | Hm]; apply Hlt.
      - apply elem_of_union in Hm. destruct Hm as [Hm | Hm]; [| auto].
        apply elem_of_singleton in Hm. auto.
      - auto. }
    split.
    { apply NoDup_app. split; [apply NoDup_filter; exact Hcnd |].
      split; [| apply NoDup_singleton].
      intros m Hm Hin. apply list_elem_of_filter in Hm.
      apply list_elem_of_singleton in Hin. tauto. }
    split.
    { intros m. rewrite elem_of_app, list_elem_of_filter,
        list_elem_of_singleton, elem_of_union, elem_of_singleton, Hcont.
      destruct (decide (m = n)); tauto. }
    split; [exact Hpul |].
    split; [| exact Hcap].
    intros m Hm. unfold getNodeOf. cbn [nodes]. rewrite lookup_insert.
    destruct (decide (n = m)) as [<- | Hne]; cbn [default].
    + eexists _, _, sparkChild. cbn [className children app].
      do 3 (split; [reflexivity |]). split; assumption.
    + apply elem_of_union in Hm. destruct Hm as [Hm | Hm].
      * apply elem_of_singleton in Hm. congruence.
      * apply (Hpan m Hm).
  - cbn [cm active]. apply elem_of_union. left. apply elem_of_singleton.
    reflexivity.
  - cbn [pending]. rewrite Hpend. apply scheduled_zero. lia.
  - cbn [pending]. rewrite Hpend. apply scheduled_zero. lia.
  - intros m Hm. unfold phaseCount. cbn [pending cm active].
    rewrite Hpend, Hact. fold (phaseCount w m). rewrite Hph.
    destruct (decide (m ∈ active (cm w))) as [Hin | Hin];
      destruct (decide (m ∈ {[n]} ∪ active (cm w))) as [Hin' | Hin'];
      try reflexivity.
    + exfalso. apply Hin'. apply elem_of_union. auto.
    + exfalso. apply elem_of_union in Hin'. destruct Hin' as [Hs | Hs];
        [apply elem_of_singleton in Hs; contradiction | contradiction].
  - intros m job _. cbn [pending]. rewrite Hpend. apply Hjobs.
Qed.

Lemma tick_wf (cap : Z) (dt : T) (dateNow : Z) (w : World T) :
  cap = maxCapsules cfg -> wf cap w ->
  always (tick cfg page host dt dateNow w) (wf cap).
Proof.
  intros -> Hwf. unfold tick.
  eapply always_bind; [apply always_any | intros threshold _].
  destruct (leb threshold _); [| apply always_ret; exact Hwf].
  cbn [cm active].
  destruct (Z.ltb_spec (Z.of_nat (size (active (cm w)))) (maxCapsules cfg))
    as [Hlt | Hge]; [| apply always_ret; exact Hwf].
  apply spawnRandom_wf; [exact Hwf | exact Hlt].
Qed.

Lemma phase_active (cap : Z) (w : World T) (n : nat) :
  wf cap w -> (0 < phaseCount w n)%nat ->
  n ∈ active (cm w) /\ phaseCount w n = 1%nat.
Proof.
  intros (_ & Hph & _) Hpos. rewrite Hph in *.
  destruct (decide (n ∈ active (cm w))); [auto | lia].
Qed.

Lemma typeTimer_wf (cap : Z) (n : nat) (job : TypeJob T) (w : World T) :
  wf cap w -> typing (pending w) !! n = Some job ->
  always (typeStep n job w) (wf cap).
Proof.
  intros Hwf Hjob.
  pose proof (scheduled_Some _ _ _ Hjob) as Hs.
  pose proof (scheduled_le (holds (pending w)) n).
  pose proof (scheduled_le (dissolving (pending w)) n).
  destruct (phase_active cap w n Hwf) as [Hn Hone];
    [unfold phaseCount; lia |].
  unfold phaseCount in Hone.
  destruct Hwf as (Hnodes & Hph & Hjobs).
  apply typeStep_wf; try assumption.
  - apply scheduled_zero. lia.
  - apply scheduled_zero. lia.
  - intros m _. apply Hph.
  - intros m j _. apply Hjobs.
Qed.

Lemma pulseRevert_wf (cap : Z) (n : nat) (original : string) (w : World T) :
  wf cap w -> pulses (pending w) !! n = Some original ->
  wf cap (pulseRevert n original w).
Proof.
  intros (Hnodes & Hph & Hjobs) Hp.
  assert (Hlt : (n < nextId (doc w))%nat).
  { destruct Hnodes as (_ & _ & _ & _ & _ & _ & _ & Hpul & _).
    apply Hpul. rewrite Hp. eexists. reflexivity. }
  split; [| split; [exact Hph | exact Hjobs]].
  eapply (wf_nodes_update cap n _ w); try exact Hnodes; try exact Hlt;
    try reflexivity.
  - cbn [pulseRevert pending pulses]. intros k.
    rewrite lookup_delete_is_Some. tauto.
  - intros Hn.
    destruct Hnodes as (_ & _ & _ & _ & _ & _ & _ & _ & Hpan & _).
    eapply panel_ext; [| | apply (Hpan n Hn)]; reflexivity.
Qed.

Lemma dissolve_wf (cap : Z) (n : nat) (now : T) (delay : Z) (w : World T) :
  wf cap w -> holds (pending w) !! n = Some delay ->
  wf cap (dissolve n now w).
Proof.
  intros Hwf Hh.
  pose proof (scheduled_Some _ _ _ Hh) as Hs.
  pose proof (scheduled_le (typing (pending w)) n).
  pose proof (scheduled_le (dissolving (pending w)) n).
  destruct (phase_active cap w n Hwf) as [Hn Hone];
    [unfold phaseCount; lia |].
  unfold phaseCount in Hone.
  destruct Hwf as (Hnodes & Hph & Hjobs).
  split; [exact Hnodes | split; [| exact Hjobs]].
  intros m. unfold phaseCount, dissolve.
  cbn [pending typing holds dissolving cm].
  rewrite scheduled_delete, scheduled_insert.
  destruct (decide (n = m)) as [<- | Hne]; [| apply Hph].
  destruct (decide (n ∈ active (cm w))); [lia | contradiction].
Qed.

Lemma jitter_wf (cap : Z) (n : nat) (start now : T) (w : World T) :
  wf cap w -> dissolving (pending w) !! n = Some start ->
  always (jitter n start now w) (wf cap).
Proof.
  intros Hwf Hd.
  pose proof (scheduled_Some _ _ _ Hd) as Hs.
  pose proof (scheduled_le (typing (pending w)) n).
  pose proof (scheduled_le (holds (pending w)) n).
  destruct (phase_active cap w n Hwf) as [Hn Hone];
    [unfold phaseCount; lia |].
  unfold phaseCount in Hone.
  destruct Hwf as (Hnodes & Hph & Hjobs).
  unfold jitter. destruct (leb (ofZ 1) _).
  - apply always_ret. unfold releaseNode.
    cbn [cm doc pending pool active spawnAccumulator].
    destruct Hnodes as (Hnd & Hdisj & Hcount & Hdom & Hlt & Hcnd & Hcont
                        & Hpul & Hpan & Hcap).
    split; [| split].
    + unfold wf_nodes, setContainer.
      cbn [cm doc pending pool active nodes nextId container pulses].
      split.
      { apply NoDup_app. split; [exact Hnd |].
        split; [| apply NoDup_singleton].
        intros m Hm Hin. apply list_elem_of_singleton in Hin. subst m.
        exact (Hdisj n Hm Hn). }
      split.
      { intros m Hm Hin. apply elem_of_difference in Hin.
        destruct Hin as [Hin Hne]. apply elem_of_app in Hm.
        destruct Hm as [Hm | Hm]; [exact (Hdisj m Hm Hin) |].
        apply list_elem_of_singleton in Hm. apply Hne.
        apply elem_of_singleton. exact Hm. }
      split.
      { rewrite size_difference, size_singleton, length_app.
        - cbn [length].
          assert (0 < size (active (cm w)))%nat; [| lia].
          assert (Hsub : {[n]} ⊆ active (cm w)).
          { intros m Hm. apply elem_of_singleton in Hm. subst m. exact Hn. }
          apply subseteq_size in Hsub. rewrite size_singleton in Hsub. lia.
        - intros m Hm. apply elem_of_singleton in Hm. subst m. exact Hn. }
      split; [exact Hdom |].
      split.
      { intros m [Hm | Hm]; apply Hlt.
        - apply elem_of_difference in Hm. tauto.
        - apply elem_of_app in Hm. destruct Hm as [Hm | Hm]; [auto |].
          apply list_elem_of_singleton in Hm. subst m. auto. }
      split; [apply NoDup_filter; exact Hcnd |].
      split.
      { intros m. rewrite list_elem_of_filter, elem_of_difference,
          elem_of_singleton, Hcont. tauto. }
      split; [exact Hpul |].
      split; [| exact Hcap].
      intros m Hm. apply elem_of_difference in Hm. apply Hpan. tauto.
    + intros m. unfold phaseCount.
      cbn [pending typing holds dissolving cm active].
      rewrite scheduled_delete.
      destruct (decide (n = m)) as [<- | Hne].
      * destruct (decide (n ∈ active (cm w) ∖ {[n]})) as [Hin | _]; [| lia].
        apply elem_of_difference in Hin. destruct Hin as [_ Hin].
        exfalso. apply Hin. apply elem_of_singleton. reflexivity.
      * fold (phaseCount w m). rewrite Hph.
        destruct (decide (m ∈ active (cm w))) as [Hin | Hin];
          destruct (decide (m ∈ active (cm w) ∖ {[n]})) as [Hin' | Hin'];
          try reflexivity.
        -- exfalso. apply Hin'. apply elem_of_difference.
           split; [exact Hin |]. intros Hs'. apply elem_of_singleton in Hs'.
           congruence.
        -- exfalso. apply elem_of_difference in Hin'. tauto.
    + exact Hjobs.
  - eapply always_bind; [apply always_any | intros u1 _].
    eapply always_bind; [apply always_any | intros u2 _].
    apply always_ret.
    split; [| split; [exact Hph | exact Hjobs]].
    assert (Hlt : (n < nextId (doc w))%nat).
    { destruct Hnodes as (_ & _ & _ & _ & Hlt & _). apply Hlt. auto. }
    eapply (wf_nodes_update cap n _ w); try exact Hnodes; try exact Hlt;
      try reflexivity.
    + cbn [pending]. auto.
    + intros _.
      destruct Hnodes as (_ & _ & _ & _ & _ & _ & _ & _ & Hpan & _).
      eapply panel_ext; [| | apply (Hpan n Hn)]; reflexivity.
Qed.

Lemma step_wf (ev : Event T) (w : World T) :
  wf (maxCapsules cfg) w ->
  always (step cfg page host ev w)
         (fun r => match r with
                   | Some w' => wf (maxCapsules cfg) w'
                   | None => True
                   end).
Proof.
  intros Hwf. destruct ev as [dt dateNow | n | n | n now | n now];
    cbn [step].
  - eapply always_bind; [apply (tick_wf _ dt dateNow w eq_refl Hwf) |].
    intros w' Hw'. apply always_ret. exact Hw'.
  - destruct (typing (pending w) !! n) as [job |] eqn:Hjob;
      [| apply always_ret; exact I].
    eapply always_bind; [apply (typeTimer_wf _ n job w Hwf Hjob) |].
    intros w' Hw'. apply always_ret. exact Hw'.
  - destruct (pulses (pending w) !! n) as [original |] eqn:Hp;
      apply always_ret; [| exact I].
    apply pulseRevert_wf; assumption.
  - destruct (holds (pending w) !! n) as [delay |] eqn:Hh;
      apply always_ret; [| exact I].
    eapply dissolve_wf; eassumption.
  - destruct (dissolving (pending w) !! n) as [start |] eqn:Hd;
      [| apply always_ret; exact I].
    eapply always_bind; [apply (jitter_wf _ n start now w Hwf Hd) |].
    intros w' Hw'. apply always_ret. exact Hw'.
Qed.

Lemma run_wf (evs : list (Event T)) (w : World T) :
  wf (maxCapsules cfg) w ->
  always (run cfg page host evs w)
         (fun r => match r with
                   | Some w' => wf (maxCapsules cfg) w'
                   | None => True
                   end).
Proof.
  revert w. induction evs as [| ev evs IH]; intros w Hwf; cbn [run].
  - apply always_ret. exact Hwf.
  - eapply always_bind; [apply (step_wf ev w Hwf) |].
    intros [w' |] Hw'; [apply IH; exact Hw' | apply always_ret; exact I].
Qed.

(** Property X12.
    Whatever events the page delivers to a fresh manager, in any order
    and with any results of [Math.random()], in any number arithmetic:
    the nodes created are each either live or in the pool, never both and
    never twice in the pool; the container holds exactly the live nodes,
    each once; a live node has the markup of a panel and is in exactly one
    of the phases typing, held and dissolving, a pooled node in none; and
    no more than [CONFIG.maxCapsules] nodes are ever created, so the live
    panels never exceed the cap. *)
Theorem manager_invariant (evs : list (Event T)) (t : Tape T) :
  match fst (run cfg page host evs constructor t) with
  | Some w =>
      wf (maxCapsules cfg) w
      /\ Z.of_nat (size (active (cm w))) <= Z.max 0 (maxCapsules cfg)
      /\ Z.of_nat (length (pool (cm w))) <= Z.max 0 (maxCapsules cfg)
  | None => True
  end.
Proof.
  pose proof (run_wf evs constructor (wf_constructor _) t) as Hrun.
  cbv beta in Hrun.
  destruct (fst (run cfg page host evs constructor t)) as [w |]; [| exact I].
  split; [exact Hrun |].
  destruct Hrun as ((_ & _ & Hcount & _ & _ & _ & _ & _ & _ & Hcap) & _).
  lia.
Qed.

End Invariant.

(** *** Typewriter *)

Lemma string_app_nil_r (s : string) : (s ++ EmptyString)%string = s.
Proof.
  induction s as [| c s IH]; [reflexivity |].
  change (String c (s ++ EmptyString) = String c s). f_equal. exact IH.
Qed.

Lemma string_app_assoc (a b c : string) :
  ((a ++ b) ++ c)%string = (a ++ (b ++ c))%string.
Proof.
  induction a as [| x a IH]; [reflexivity |].
  change (String x ((a ++ b) ++ c) = String x (a ++ (b ++ c)))%string.
  f_equal. exact IH.
Qed.

Lemma string_of_list_app (a b : list ascii) :
  string_of_list_ascii (a ++ b)
  = (string_of_list_ascii a ++ string_of_list_ascii b)%string.
Proof.
  induction a as [| x a IH]; [reflexivity |].
  change (String x (string_of_list_ascii (a ++ b))
          = String x (string_of_list_ascii a ++ string_of_list_ascii b)%string).
  f_equal. exact IH.
Qed.

Lemma run_bind {T A B} (m : Rand T A) (k : A -> Rand T B) (t : Tape T) :
  bind m k t = k (fst (m t)) (snd (m t)).
Proof. unfold bind. destruct (m t); reflexivity. Qed.

Section Typewriter.
Context {T : Type} `{JsNum T}.
Variable cfg : Config T.
Variable page : Page.
Variable host : Host T.
Import CapsuleManager.

Lemma takeOf_pos (spc : T) : (1 <= takeOf spc)%nat.
Proof. unfold takeOf. lia. Qed.

Lemma contentText_append (s : string) (nd : Node T) :
  is_Some (children nd !! 1%nat) ->
  contentText (appendContent s nd) = (contentText nd ++ s)%string
  /\ is_Some (children (appendContent s nd) !! 1%nat).
Proof.
  intros [c Hc]. unfold contentText, appendContent. cbn [children].
  rewrite list_lookup_alter_eq, Hc. cbn. split; [reflexivity | eauto].
Qed.

(** One step of the typewriter that does not exhaust the text. *)
Lemma typeStep_more (n : nat) (cs : list ascii) (spc : T) (w : World T)
  (t : Tape T) :
  is_Some (children (getNodeOf (doc w) n) !! 1%nat) ->
  (takeOf spc < length cs)%nat ->
  exists w1,
    typeStep n (mkTypeJob cs spc) w t = (w1, t)
    /\ typing (pending w1) !! n
       = Some (mkTypeJob (skipn (takeOf spc) cs) spc)
    /\ contentText (getNodeOf (doc w1) n)
       = (contentText (getNodeOf (doc w) n)
          ++ string_of_list_ascii (firstn (takeOf spc) cs))%string
    /\ is_Some (children (getNodeOf (doc w1) n) !! 1%nat)
    /\ cm w1 = cm w /\ holds (pending w1) = holds (pending w)
    /\ dissolving (pending w1) = dissolving (pending w)
    /\ style (getNodeOf (doc w1) n) = style (getNodeOf (doc w) n).
Proof.
  intros Hc Hlen. unfold typeStep. cbn [chars secondsPerChar].
  fold (takeOf spc).
  destruct (skipn (takeOf spc) cs) as [| c rest] eqn:Hrest.
  { pose proof (length_skipn (takeOf spc) cs) as Hl.
    rewrite Hrest in Hl. cbn [length] in Hl. lia. }
  eexists. split; [reflexivity |].
  cbn [doc pending typing holds dissolving cm].
  rewrite lookup_insert_eq, getNodeOf_setNode.
  destruct (contentText_append
              (string_of_list_ascii (firstn (takeOf spc) cs)) _ Hc)
    as [Htext Hchild].
  repeat split; assumption.
Qed.

Lemma type_steps (n : nat) (spc : T) (j : nat) :
  forall (cs : list ascii) (w : World T) (t : Tape T),
    typing (pending w) !! n = Some (mkTypeJob cs spc) ->
    is_Some (children (getNodeOf (doc w) n) !! 1%nat) ->
    (j * takeOf spc < length cs)%nat ->
    exists wj,
      run cfg page host (repeat (EvTypeTimer n) j) w t = (Some wj, t)
      /\ typing (pending wj) !! n
         = Some (mkTypeJob (skipn (j * takeOf spc) cs) spc)
      /\ contentText (getNodeOf (doc wj) n)
         = (contentText (getNodeOf (doc w) n)
            ++ string_of_list_ascii (firstn (j * takeOf spc) cs))%string
      /\ is_Some (children (getNodeOf (doc wj) n) !! 1%nat)
      /\ cm wj = cm w /\ holds (pending wj) = holds (pending w)
      /\ dissolving (pending wj) = dissolving (pending w)
      /\ style (getNodeOf (doc wj) n) = style (getNodeOf (doc w) n).
Proof.
  induction j as [| j IH]; intros cs w t Hjob Hc Hlen.
  - exists w. cbn [repeat run Nat.mul firstn skipn string_of_list_ascii].
    rewrite string_app_nil_r. repeat split; assumption.
  - cbn [repeat run]. rewrite run_bind. cbn [step]. rewrite Hjob.
    rewrite run_bind.
    destruct (typeStep_more n cs spc w t Hc) as (w1 & Hstep & Hjob1 & Htext1
      & Hc1 & Hcm1 & Hh1 & Hd1 & Hs1); [lia |].
    rewrite Hstep. cbn [fst snd ret].
    destruct (IH (skipn (takeOf spc) cs) w1 t Hjob1 Hc1)
      as (wj & Hrun & Hjobj & Htextj & Hcj & Hcmj & Hhj & Hdj & Hsj).
    { rewrite length_skipn. lia. }
    exists wj. split; [exact Hrun |].
    replace (S j * takeOf spc)%nat with (takeOf spc + j * takeOf spc)%nat
      by lia.
    rewrite <- take_take_drop, string_of_list_app, <- string_app_assoc.
    rewrite <- Htext1, <- Htextj.
    rewrite drop_drop in Hjobj.
    repeat split; try assumption; congruence.
Qed.

(** The step of the typewriter that exhausts the text. *)
Lemma typeStep_last (n : nat) (cs : list ascii) (spc : T) (w : World T)
  (t : Tape T) :
  is_Some (children (getNodeOf (doc w) n) !! 1%nat) ->
  (length cs <= takeOf spc)%nat ->
  let wd := fst (typeStep n (mkTypeJob cs spc) w t) in
  contentText (getNodeOf (doc wd) n)
  = (contentText (getNodeOf (doc w) n) ++ string_of_list_ascii cs)%string
  /\ typing (pending wd) !! n = None
  /\ is_Some (holds (pending wd) !! n)
  /\ Css.opacity (style (getNodeOf (doc wd) n)) = Some (ofZ 1).
Proof.
  intros Hc Hlen wd. subst wd. unfold typeStep.
  cbn [chars secondsPerChar]. fold (takeOf spc).
  rewrite (skipn_all2 cs) by exact Hlen.
  rewrite (firstn_all2 cs) by exact Hlen.
  unfold typeDone. rewrite run_bind. cbn [fst ret doc pending typing holds].
  rewrite !getNodeOf_setNode, lookup_delete_eq, lookup_insert_eq.
  destruct (contentText_append (string_of_list_ascii cs) _ Hc)
    as [Htext Hchild].
  split; [| split; [reflexivity | split; [eauto | reflexivity]]].
  rewrite <- Htext. unfold contentText.
  destruct (String.eqb _ _); reflexivity.
Qed.

Lemma run_app_any (evs1 evs2 : list (Event T)) (w : World T) (t : Tape T) :
  run cfg page host (evs1 ++ evs2) w t
  = match fst (run cfg page host evs1 w t) with
    | Some w1 =>
        run cfg page host evs2 w1 (snd (run cfg page host evs1 w t))
    | None => (None, snd (run cfg page host evs1 w t))
    end.
Proof.
  revert w t. induction evs1 as [| ev evs1 IH]; intros w t.
  - reflexivity.
  - cbn [app run]. rewrite !run_bind.
    destruct (fst (step cfg page host ev w t)) as [w1 |].
    + apply IH.
    + reflexivity.
Qed.

(** Property X13.
    The typewriter of a panel shows the text in order, [take] characters
    per timer step, touching neither the manager nor the style of the
    panel nor the tape; the step that shows the last character sets the
    opacity to 1, leaves the hold timer in place of the typewriter, and no
    further typewriter step is scheduled. *)
Theorem typewriter_reveals_text_in_order (n : nat) (job : TypeJob T)
  (w : World T) (t : Tape T) :
  typing (pending w) !! n = Some job ->
  is_Some (children (getNodeOf (doc w) n) !! 1%nat) ->
  let take := takeOf (secondsPerChar job) in
  let before := contentText (getNodeOf (doc w) n) in
  (forall j, (j * take < length (chars job))%nat ->
     exists wj,
       run cfg page host (repeat (EvTypeTimer n) j) w t = (Some wj, t)
       /\ contentText (getNodeOf (doc wj) n)
          = (before
             ++ string_of_list_ascii (firstn (j * take) (chars job)))%string
       /\ typing (pending wj) !! n
          = Some (mkTypeJob (skipn (j * take) (chars job))
                    (secondsPerChar job))
       /\ cm wj = cm w /\ holds (pending wj) = holds (pending w)
       /\ style (getNodeOf (doc wj) n) = style (getNodeOf (doc w) n))
  /\ (forall j,
        (j * take < length (chars job) <= S j * take)%nat ->
        exists wd,
          fst (run cfg page host (repeat (EvTypeTimer n) (S j)) w t)
          = Some wd
          /\ contentText (getNodeOf (doc wd) n)
             = (before ++ string_of_list_ascii (chars job))%string
          /\ typing (pending wd) !! n = None
          /\ is_Some (holds (pending wd) !! n)
          /\ Css.opacity (style (getNodeOf (doc wd) n)) = Some (ofZ 1)
          /\ forall t', fst (step cfg page host (EvTypeTimer n) wd t') = None).
Proof.
  intros Hjob Hc take before. destruct job as [cs spc].
  cbn [chars secondsPerChar] in *. split.
  - intros j Hj.
    destruct (type_steps n spc j cs w t Hjob Hc Hj)
      as (wj & Hrun & Hjobj & Htextj & _ & Hcmj & Hhj & _ & Hsj).
    exists wj. repeat split; assumption.
  - intros j [Hj Hlast].
    destruct (type_steps n spc j cs w t Hjob Hc Hj)
      as (wj & Hrun & Hjobj & Htextj & Hcj & Hcmj & Hhj & _ & Hsj).
    replace (S j) with (j + 1)%nat by lia.
    rewrite repeat_app, run_app_any, Hrun. cbn [fst snd repeat run].
    rewrite run_bind. cbn [step]. rewrite Hjobj, !run_bind.
    cbn [fst snd ret].
    destruct (typeStep_last n (skipn (j * takeOf spc) cs) spc wj t Hcj)
      as (Htextd & Hnone & Hhold & Hop).
    { rewrite length_skipn. subst take. lia. }
    eexists. split; [reflexivity |].
    split.
    { rewrite Htextd, Htextj, string_app_assoc, <- string_of_list_app,
        firstn_skipn. reflexivity. }
    split; [exact Hnone |]. split; [exact Hhold |]. split; [exact Hop |].
    intros t'. cbn [step]. rewrite Hnone. reflexivity.
Qed.

End Typewriter.

(** *** Delays and positions *)


Section Timing.
Import CapsuleManager.
Variable cfg : Config Q.
Variable page : Page.
Variable host : Host Q.














End Timing.

(** *** Rain *)


Lemma Exact_ltb_lt (a b : Q) : Exact.ltb a b = true <-> (a < b)%Q.
Proof.
  unfold Exact.ltb. rewrite Bool.negb_true_iff. split.
  - intros Hle. apply Qnot_le_lt. intros Hc.
    apply Qle_bool_iff in Hc. congruence.
  - intros Hlt. destruct (Qle_bool b a) eqn:Hle; [| reflexivity].
    apply Qle_bool_iff in Hle. lra.
Qed.

Section Rain.
Variable cfg : Config Q.
Variable page : Page.














End Rain.

(** *** The page *)




Section Page.
Variable cfg : Config Q.
Variable page : Page.
Variable host : Host Q.







End Page.

(** *** Glyph sheet *)

Lemma Math_ceil_upper (q : Q) : (q <= inject_Z (Math_ceil q))%Q.
Proof.
  unfold Math_ceil. cbn [floor sub ofZ Q_JsNum].
  rewrite inject_Z_opp.
  pose proof (Qfloor_le (inject_Z 0 - q)) as Hf.
  change (inject_Z 0) with 0%Q in *. lra.
Qed.

(** Property X18.
    The source rectangle [draw] cuts for a column whose first glyph index
    is [gi], the index of one of the characters: it lies within the
    sheet [buildGlyphSheet] painted, and it is the cell in whose centre
    that character was drawn. *)
Theorem draw_cuts_the_cell_of_its_glyph (page : Page)
  (this : MatrixRain.Rain Q) (glow : Q) (col : MatrixRain.Column Q)
  (i : Z) (gi : nat) :
  let size := MatrixRain.glyphSize this in
  let chars := MatrixRain.characters this in
  let p := GlyphSheet.buildGlyphSheet (T:=Q) size chars in
  0 < size -> MatrixRain.sheet this = GlyphSheet.sheet p -> 0 <= i ->
  MatrixRain.glyphIndices col !! 0%nat = Some (Z.of_nat gi) ->
  (gi < length chars)%nat ->
  exists alpha blur color sx sy dx dy ch,
    MatrixRain.drawGlyph page this glow col i
    = MatrixRain.DrawImage alpha blur color sx sy size size dx dy size size
    /\ 0 <= sx /\ sx + size <= GlyphSheet.sheetWidth p
    /\ 0 <= sy /\ sy + size <= GlyphSheet.sheetHeight p
    /\ chars !! gi = Some ch
    /\ GlyphSheet.texts p !! gi
       = Some (ch, (inject_Z sx + inject_Z size / 2)%Q,
                   (inject_Z sy + inject_Z size / 2)%Q).
Proof.
  intros size chars p Hsize Hsheet Hi Hgi Hlt.
  unfold MatrixRain.drawGlyph. rewrite Hsheet.
  cbn [GlyphSheet.sheet GlyphSheet.buildGlyphSheet p MatrixRain.cols
       MatrixRain.size]. fold size.
  assert (Hlen : 0 < Z.of_nat (length (MatrixRain.glyphIndices col))).
  { apply lookup_lt_Some in Hgi. lia. }
  rewrite (glyphSlot_zero i _ Hi Hlen). cbn [Z.to_nat].
  assert (Hnth : nth 0 (MatrixRain.glyphIndices col) 0 = Z.of_nat gi).
  { destruct (MatrixRain.glyphIndices col) as [| g rest]; [discriminate |].
    cbn in Hgi. injection Hgi as ->. reflexivity. }
  change (Z.to_nat 0) with 0%nat. rewrite Hnth.
  destruct (lookup_lt_is_Some_2 chars gi Hlt) as [ch Hch].
  eexists _, _, _, _, _, _, _, ch. split; [reflexivity |].
  rewrite Z.rem_mod_nonneg by lia.
  pose proof (Z.mod_pos_bound (Z.of_nat gi) 32 ltac:(lia)) as Hmod.
  pose proof (Z.div_pos (Z.of_nat gi) 32 ltac:(lia) ltac:(lia)) as Hdiv.
  split; [nia |].
  split;
    [unfold p; cbn [GlyphSheet.sheetWidth GlyphSheet.buildGlyphSheet]; nia |].
  split; [nia |].
  split.
  { unfold p. cbn [GlyphSheet.sheetHeight GlyphSheet.buildGlyphSheet].
    fold chars.
    set (rows := Math_ceil (div (ofZ (Z.of_nat (length chars))) (ofZ 32) : Q)).
    pose proof (Math_ceil_upper
                  (div (ofZ (Z.of_nat (length chars))) (ofZ 32) : Q)) as Hup.
    fold rows in Hup. cbn [div ofZ Q_JsNum] in Hup.
    assert (Hrows : Z.of_nat (length chars) <= rows * 32).
    { rewrite Zle_Qle, inject_Z_mult. change (inject_Z 32) with 32%Q in *.
      set (a := inject_Z (Z.of_nat (length chars))) in *.
      assert (Ha : (a == a / 32 * 32)%Q) by field. lra. }
    assert (Hgr : Z.of_nat gi / 32 < rows).
    { apply Z.div_lt_upper_bound; lia. }
    nia. }
  split; [exact Hch |].
  unfold p. cbn [GlyphSheet.texts GlyphSheet.buildGlyphSheet]. fold chars.
  rewrite list_lookup_imap, Hch. cbn [fmap option_fmap option_map].
  rewrite Z.rem_mod_nonneg by lia. reflexivity.
Qed.

(** *** Trails *)

Lemma drawColumn_lookup (page : Page) (this : MatrixRain.Rain Q) (glow : Q)
  (col : MatrixRain.Column Q) (i : nat) (c : MatrixRain.Command Q) :
  MatrixRain.drawColumn page this glow col !! i = Some c ->
  c = MatrixRain.drawGlyph page this glow col (Z.of_nat i)
  /\ Z.of_nat i < MatrixRain.streamLength col.
Proof.
  unfold MatrixRain.drawColumn. intros Hc.
  rewrite list_lookup_fmap in Hc.
  destruct (seq 0 (Z.to_nat (MatrixRain.streamLength col)) !! i)
    as [j |] eqn:Hj; [| discriminate].
  apply lookup_seq in Hj. destruct Hj as [-> Hlt].
  cbn in Hc. injection Hc as <-. split; [reflexivity | lia].
Qed.

(** Property X19.
    The trail of a column: [draw] paints [streamLength] glyphs, the
    head at the column's [y] with alpha 0.95 and glyph [i] one cell
    higher per step, [i * glyphSize] above the head, with alpha
    [0.65 * (1 - i / streamLength)]: positive, below 0.65 and falling
    along the trail. *)
Theorem trail_fades_from_head (page : Page) (this : MatrixRain.Rain Q)
  (glow : Q) (col : MatrixRain.Column Q) (i j : nat)
  (ci cj : MatrixRain.Command Q) :
  MatrixRain.drawColumn page this glow col !! i = Some ci ->
  MatrixRain.drawColumn page this glow col !! j = Some cj ->
  (i < j)%nat ->
  length (MatrixRain.drawColumn page this glow col)
  = Z.to_nat (MatrixRain.streamLength col)
  /\ match ci, cj with
     | MatrixRain.DrawImage ai _ _ _ _ _ _ xi yi _ _,
       MatrixRain.DrawImage aj _ _ _ _ _ _ xj yj _ _ =>
         (0 < aj /\ aj < ai /\ aj < 65 # 100 /\ ai <= 95 # 100)%Q
         /\ (i = 0%nat -> (ai == 95 # 100)%Q)
         /\ xi = MatrixRain.x col /\ xj = MatrixRain.x col
         /\ (yi == MatrixRain.y col
                   - inject_Z (Z.of_nat i * MatrixRain.glyphSize this))%Q
         /\ (yj == MatrixRain.y col
                   - inject_Z (Z.of_nat j * MatrixRain.glyphSize this))%Q
     | _, _ => False
     end.
Proof.
  intros Hi Hj Hij.
  split; [unfold MatrixRain.drawColumn; rewrite length_map, length_seq;
          reflexivity |].
  apply drawColumn_lookup in Hi, Hj.
  destruct Hi as [-> Hilen]. destruct Hj as [-> Hjlen].
  unfold MatrixRain.drawGlyph.
  set (len := MatrixRain.streamLength col) in *.
  assert (Hlen : (0 < inject_Z len)%Q)
    by (change 0%Q with (inject_Z 0); rewrite <- Zlt_Qlt; lia).
  assert (Hjq : (inject_Z (Z.of_nat j) < inject_Z len)%Q)
    by (rewrite <- Zlt_Qlt; lia).
  assert (Hiq : (inject_Z (Z.of_nat i) < inject_Z (Z.of_nat j))%Q)
    by (rewrite <- Zlt_Qlt; lia).
  assert (Hi0 : (0 <= inject_Z (Z.of_nat i))%Q)
    by (change 0%Q with (inject_Z 0); rewrite <- Zle_Qle; lia).
  assert (Hji : (inject_Z (Z.of_nat j) / inject_Z len < 1)%Q).
  { apply Qlt_shift_div_r; lra. }
  assert (Hdiv : (inject_Z (Z.of_nat i) / inject_Z len
                  < inject_Z (Z.of_nat j) / inject_Z len)%Q).
  { unfold Qdiv. apply Qmult_lt_compat_r; [| exact Hiq].
    apply Qinv_lt_0_compat. exact Hlen. }
  assert (Hi0' : (0 <= inject_Z (Z.of_nat i) / inject_Z len)%Q).
  { apply Qle_shift_div_l; lra. }
  assert (H95 : (dec 95 100 == 95 # 100)%Q) by reflexivity.
  assert (H65 : (dec 65 100 == 65 # 100)%Q) by reflexivity.
  destruct (Z.eqb_spec (Z.of_nat j) 0) as [Hj0 | _]; [lia |].
  cbn [mul sub div ofZ Q_JsNum]. change (inject_Z 1) with 1%Q.
  split.
  { destruct (Z.eqb_spec (Z.of_nat i) 0) as [Hi00 | Hine].
    - rewrite H95, H65. repeat split; try nra; lra.
    - rewrite H65. repeat split; nra. }
  split.
  { intros ->. cbn [Z.of_nat Z.eqb]. exact H95. }
  repeat split; reflexivity.
Qed.

Lemma clamp_unit (v : Q) :
  (0 <= clamp ltb v (ofZ 0) (ofZ 1) /\ clamp ltb v (ofZ 0) (ofZ 1) <= 1)%Q.
Proof.
  unfold clamp. change (@ltb Q _) with Exact.ltb.
  cbn [ofZ Q_JsNum]. change (inject_Z 0) with 0%Q.
  change (inject_Z 1) with 1%Q.
  destruct (Exact.ltb v 0) eqn:H0; [lra |].
  destruct (Exact.ltb 1 v) eqn:H1; [lra |].
  assert (~ (v < 0)%Q) by (intros Hc; apply Exact_ltb_lt in Hc; congruence).
  assert (~ (1 < v)%Q) by (intros Hc; apply Exact_ltb_lt in Hc; congruence).
  lra.
Qed.

(** Property X20.
    What [draw()] paints: first the fading rectangle over the whole
    canvas, then the trails of the columns in order, each glyph in the
    active colour with a shadow blur of [8 + 14 * glow] in [8, 22] for
    the glow clamped to [0, 1], then at most one line of code noise,
    which is one of the five snippets and is left out when
    [CONFIG.showCode] is off. *)
Theorem draw_paints_fade_trails_noise (cfg : Config Q) (page : Page)
  (this : MatrixRain.Rain Q) (t : Tape Q) :
  unit_tape t ->
  let w := clientWidth page in
  let h := clientHeight page in
  exists glow noise,
    fst (MatrixRain.draw cfg page this t)
    = MatrixRain.FillRect "rgba(0,0,0,0.18)" 0 0 w h
      :: concat (map (MatrixRain.drawColumn page this glow)
                     (MatrixRain.columns this)) ++ noise
    /\ (0 <= glow /\ glow <= 1)%Q
    /\ Forall (fun c =>
                 match c with
                 | MatrixRain.DrawImage _ blur color _ _ _ _ _ _ _ _ =>
                     (8 <= blur /\ blur <= 22)%Q /\ color = activeColor page
                 | _ => False
                 end)
              (concat (map (MatrixRain.drawColumn page this glow)
                           (MatrixRain.columns this)))
    /\ (showCode cfg = false -> noise = [])
    /\ (noise = []
        \/ exists s tx ty,
            In s MatrixRain.snippets
            /\ noise = [MatrixRain.FillText (dec 9 10)
                          "12px ui-monospace, monospace" (activeColor page)
                          s tx ty]
            /\ (240 < w -> 0 <= tx < w - 240)
            /\ (0 < h -> 0 <= ty < h)).
Proof.
  intros Ht w h.
  set (glow := clamp ltb (glowIntensity cfg) (ofZ 0) (ofZ 1)).
  pose proof (clamp_unit (glowIntensity cfg)) as Hglow. fold glow in Hglow.
  assert (Hpost :
    post (MatrixRain.draw cfg page this)
         (fun cmds =>
            exists noise,
              cmds = MatrixRain.FillRect "rgba(0,0,0,0.18)" 0 0 w h
                     :: concat (map (MatrixRain.drawColumn page this glow)
                                    (MatrixRain.columns this)) ++ noise
              /\ (showCode cfg = false -> noise = [])
              /\ (noise = []
                  \/ exists s tx ty,
                      In s MatrixRain.snippets
                      /\ noise = [MatrixRain.FillText (dec 9 10)
                                    "12px ui-monospace, monospace"
                                    (activeColor page) s tx ty]
                      /\ (240 < w -> 0 <= tx < w - 240)
                      /\ (0 < h -> 0 <= ty < h)))).
  { unfold MatrixRain.draw. fold glow w h.
    eapply (post_bind _ _
              (fun noise =>
                 (showCode cfg = false -> noise = [])
                 /\ (noise = []
                     \/ exists s tx ty,
                         In s MatrixRain.snippets
                         /\ noise = [MatrixRain.FillText (dec 9 10)
                                       "12px ui-monospace, monospace"
                                       (activeColor page) s tx ty]
                         /\ (240 < w -> 0 <= tx < w - 240)
                         /\ (0 < h -> 0 <= ty < h)))).
    - destruct (showCode cfg); [| apply post_ret; auto].
      eapply post_bind; [apply post_random | intros u _].
      destruct (ltb u (dec 6 100));
        [| apply post_ret; split; [discriminate | auto]].
      eapply post_bind; [apply post_choice; discriminate | intros s Hs].
      cbv beta in Hs.
      eapply post_bind; [apply (randi_range 0 (w - 240)) | intros tx Htx].
      cbv beta in Htx.
      eapply post_bind; [apply (randi_range 0 h) | intros ty Hty].
      cbv beta in Hty.
      apply post_ret. split; [discriminate |]. right.
      exists s, tx, ty. split; [exact Hs |]. split; [reflexivity |].
      split; [intros Hw; apply Htx; lia | intros Hh; apply Hty; exact Hh].
    - intros noise Hnoise. apply post_ret. exists noise.
      split; [reflexivity | exact Hnoise]. }
  destruct (Hpost t Ht) as [(noise & Hcmds & Hoff & Hshape) _].
  exists glow, noise. split; [exact Hcmds |]. split; [exact Hglow |].
  split; [| split; assumption].
  apply Forall_concat. apply Forall_map. apply Forall_forall. intros col _.
  unfold MatrixRain.drawColumn. apply Forall_map. apply Forall_forall.
  intros i _. cbn [MatrixRain.drawGlyph].
  unfold MatrixRain.drawGlyph. split; [| reflexivity].
  cbn [add mul ofZ Q_JsNum]. change (inject_Z 8) with 8%Q.
  change (inject_Z 14) with 14%Q. lra.
Qed.

(** *** Theme and canvas *)

Lemma filter_snoc_out {A} (P : A -> Prop) `{forall x, Decision (P x)}
  (l : list A) (x : A) :
  ~ P x -> base.filter P (l ++ [x]) = base.filter P l.
Proof.
  intros Hx. rewrite filter_app. cbn. rewrite decide_False by exact Hx.
  apply app_nil_r.
Qed.

Lemma filter_snoc_in {A} (P : A -> Prop) `{forall x, Decision (P x)}
  (l : list A) (x : A) :
  P x -> base.filter P (l ++ [x]) = base.filter P l ++ [x].
Proof.
  intros Hx. rewrite filter_app. cbn. rewrite decide_True by exact Hx.
  reflexivity.
Qed.

Lemma filter_filter_not {A} (P : A -> Prop) `{forall x, Decision (P x)}
  (l : list A) :
  base.filter P (base.filter (fun x => ~ P x) l) = [].
Proof.
  induction l as [| a l IH]; [reflexivity |].
  rewrite (filter_cons (fun x => ~ P x)).
  destruct (decide (~ P a)) as [Hn | Hp]; [| exact IH].
  rewrite filter_cons, decide_False by exact Hn. exact IH.
Qed.

Lemma filter_idem {A} (P : A -> Prop) `{forall x, Decision (P x)}
  (l : list A) :
  base.filter P (base.filter P l) = base.filter P l.
Proof.
  induction l as [| a l IH]; [reflexivity |].
  rewrite filter_cons. destruct (decide (P a)) as [Hp | Hn]; [| exact IH].
  rewrite filter_cons, decide_True by exact Hp. f_equal. exact IH.
Qed.

Lemma applyTheme_appends (theme : string) (classList : list string) :
  exists cls,
    cls ∈ Theme.themeClasses
    /\ Theme.applyTheme theme classList
       = base.filter (fun c => c ∉ Theme.themeClasses) classList ++ [cls]
    /\ (theme = "cyan"%string -> cls = "theme-cyan"%string)
    /\ (theme = "magenta"%string -> cls = "theme-magenta"%string)
    /\ (theme <> "cyan"%string -> theme <> "magenta"%string ->
        cls = "theme-green"%string).
Proof.
  set (cls := if String.eqb theme "cyan" then "theme-cyan"%string
              else if String.eqb theme "magenta" then "theme-magenta"%string
              else "theme-green"%string).
  assert (Hcls : cls ∈ Theme.themeClasses).
  { apply list_elem_of_In. unfold cls, Theme.themeClasses.
    destruct (String.eqb theme "cyan"); [cbn; auto |].
    destruct (String.eqb theme "magenta"); cbn; auto. }
  exists cls. split; [exact Hcls |]. split.
  { unfold Theme.applyTheme, Theme.classList_add, Theme.classList_remove.
    fold cls. rewrite decide_False; [reflexivity |].
    intros Hin. apply list_elem_of_filter in Hin.
    destruct Hin as [Hn _]. exact (Hn Hcls). }
  split; [intros ->; reflexivity |].
  split; [intros ->; reflexivity |].
  intros Hc Hm. unfold cls.
  destruct (String.eqb_spec theme "cyan"); [contradiction |].
  destruct (String.eqb_spec theme "magenta"); [contradiction |].
  reflexivity.
Qed.

Lemma applyTheme_theme_classes (theme : string) (classList : list string)
  (cls : string) :
  cls ∈ Theme.themeClasses ->
  Theme.applyTheme theme classList
  = base.filter (fun c => c ∉ Theme.themeClasses) classList ++ [cls] ->
  base.filter (fun c => c ∈ Theme.themeClasses)
              (Theme.applyTheme theme classList) = [cls]
  /\ base.filter (fun c => c ∉ Theme.themeClasses)
                 (Theme.applyTheme theme classList)
     = base.filter (fun c => c ∉ Theme.themeClasses) classList.
Proof.
  intros Hcls Hres. rewrite Hres. split.
  - rewrite filter_snoc_in by exact Hcls.
    assert (Hnil : base.filter (fun c => c ∈ Theme.themeClasses)
                     (base.filter (fun c => c ∉ Theme.themeClasses) classList)
                   = []) by apply filter_filter_not.
    rewrite Hnil. reflexivity.
  - rewrite filter_snoc_out by (intros Hn; exact (Hn Hcls)).
    apply filter_idem.
Qed.

Lemma applyTheme_idempotent (theme : string) (classList : list string) :
  Theme.applyTheme theme (Theme.applyTheme theme classList)
  = Theme.applyTheme theme classList.
Proof.
  destruct (applyTheme_appends theme classList)
    as (cls & Hcls & Hres & Hc & Hm & Hg).
  destruct (applyTheme_appends theme (Theme.applyTheme theme classList))
    as (cls' & Hcls' & Hres' & Hc' & Hm' & Hg').
  destruct (applyTheme_theme_classes theme classList cls Hcls Hres)
    as [_ Hothers].
  assert (Heq : cls' = cls).
  { destruct (String.eqb_spec theme "cyan") as [He | Hne];
      [rewrite (Hc He), (Hc' He); reflexivity |].
    destruct (String.eqb_spec theme "magenta") as [He | Hne'];
      [rewrite (Hm He), (Hm' He); reflexivity |].
    rewrite (Hg Hne Hne'), (Hg' Hne Hne'). reflexivity. }
  rewrite Hres', Hothers, Heq. symmetry. exact Hres.
Qed.

(** Property X21.
    [applyTheme] leaves the body with exactly one of the three theme
    classes, the last token of its class list: theme-cyan for cyan,
    theme-magenta for magenta, theme-green for anything else; the other
    classes stay, in their order; applying the same theme again changes
    nothing. *)
Theorem applyTheme_sets_one_theme_class (theme : string)
  (classList : list string) :
  let result := Theme.applyTheme theme classList in
  let others l := base.filter (fun c => c ∉ Theme.themeClasses) l in
  exists cls,
    result = others classList ++ [cls]
    /\ base.filter (fun c => c ∈ Theme.themeClasses) result = [cls]
    /\ others result = others classList
    /\ (theme = "cyan"%string -> cls = "theme-cyan"%string)
    /\ (theme = "magenta"%string -> cls = "theme-magenta"%string)
    /\ (theme <> "cyan"%string -> theme <> "magenta"%string ->
        cls = "theme-green"%string)
    /\ Theme.applyTheme theme result = result.
Proof.
  intros result others.
  destruct (applyTheme_appends theme classList)
    as (cls & Hcls & Hres & Hc & Hm & Hg).
  destruct (applyTheme_theme_classes theme classList cls Hcls Hres)
    as [Hone Hothers].
  exists cls. split; [exact Hres |]. split; [exact Hone |].
  split; [exact Hothers |]. split; [exact Hc |]. split; [exact Hm |].
  split; [exact Hg |]. apply applyTheme_idempotent.
Qed.

Lemma Math_max_Q (a b : Q) :
  (a <= Math_max a b /\ b <= Math_max a b
   /\ (Math_max a b = a \/ Math_max a b = b))%Q.
Proof.
  unfold Math_max. change (ltb a b) with (Exact.ltb a b).
  destruct (Exact.ltb a b) eqn:Hlt.
  - apply Exact_ltb_lt in Hlt. repeat split; try lra. right. reflexivity.
  - assert (~ (a < b)%Q) by (intros Hc; apply Exact_ltb_lt in Hc; congruence).
    repeat split; try lra. left. reflexivity.
Qed.

Lemma Math_min_Q (a b : Q) :
  (Math_min a b <= a /\ Math_min a b <= b
   /\ (Math_min a b = a \/ Math_min a b = b))%Q.
Proof.
  unfold Math_min. change (ltb b a) with (Exact.ltb b a).
  destruct (Exact.ltb b a) eqn:Hlt.
  - apply Exact_ltb_lt in Hlt. repeat split; try lra. right. reflexivity.
  - assert (~ (b < a)%Q) by (intros Hc; apply Exact_ltb_lt in Hc; congruence).
    repeat split; try lra. left. reflexivity.
Qed.

(** Property X22.
    [resizeCanvas()] scales the backing store of the canvas by the device
    pixel ratio clamped to [1, 2], and by 1 where the ratio is missing or
    zero: the backing store of a window [w] by [h] px is between [w] and
    [2 w] px wide and between [h] and [2 h] px high, the CSS size is the
    window's, and a ratio within [1, 2] is used as it is. *)
Theorem resizeCanvas_scale_between_1_and_2 (devicePixelRatio : option Q)
  (w h : Z) :
  let c := Canvas.resizeCanvas devicePixelRatio w h in
  (1 <= Canvas.scale c /\ Canvas.scale c <= 2)%Q
  /\ Canvas.styleWidth c = w /\ Canvas.styleHeight c = h
  /\ (0 <= w -> w <= Canvas.width c <= 2 * w)
  /\ (0 <= h -> h <= Canvas.height c <= 2 * h)
  /\ (devicePixelRatio = None \/ devicePixelRatio = Some 0%Q ->
      Canvas.scale c = 1%Q /\ Canvas.width c = w /\ Canvas.height c = h)
  /\ (forall r, devicePixelRatio = Some r -> (1 <= r /\ r <= 2)%Q ->
                (Canvas.scale c == r)%Q).
Proof.
  intros c. subst c. unfold Canvas.resizeCanvas.
  cbn [Canvas.scale Canvas.styleWidth Canvas.styleHeight Canvas.width
       Canvas.height].
  set (r0 := Canvas.ratioOrOne devicePixelRatio).
  set (dpr := Math_max (ofZ 1) (Math_min (ofZ 2) r0)).
  destruct (Math_max_Q (ofZ 1) (Math_min (ofZ 2) r0))
    as (Hmax1 & Hmax2 & Hmaxc).
  destruct (Math_min_Q (ofZ 2) r0) as (Hmin1 & Hmin2 & Hminc).
  fold dpr in Hmax1, Hmax2, Hmaxc.
  assert (Hdpr : (1 <= dpr /\ dpr <= 2)%Q).
  { split; [exact Hmax1 |].
    destruct Hmaxc as [Hm | Hm]; rewrite Hm;
      [vm_compute; discriminate | exact Hmin1]. }
  assert (Hside : forall x, 0 <= x ->
            x <= floor (mul (inject_Z x) dpr) <= 2 * x).
  { revert Hdpr. generalize dpr. intros d Hd x Hx. cbn [floor mul Q_JsNum].
    assert (Hxq : (0 <= inject_Z x)%Q)
      by (change 0%Q with (inject_Z 0); rewrite <- Zle_Qle; exact Hx).
    split.
    - apply Qfloor_lower. destruct Hd as [Hd1 Hd2].
      assert (0 <= inject_Z x * (d - 1))%Q
        by (apply Qmult_le_0_compat; lra).
      lra.
    - apply Qfloor_upper. rewrite inject_Z_mult. destruct Hd as [Hd1 Hd2].
      assert (0 <= inject_Z x * (2 - d))%Q
        by (apply Qmult_le_0_compat; lra).
      change (inject_Z 2) with 2%Q. lra. }
  split; [exact Hdpr |]. split; [reflexivity |]. split; [reflexivity |].
  split; [apply Hside |]. split; [apply Hside |].
  split.
  - intros Hnone.
    assert (Hr0 : r0 = 1%Q).
    { unfold r0, Canvas.ratioOrOne. destruct Hnone as [-> | ->]; reflexivity. }
    assert (Hone : dpr = 1%Q).
    { unfold dpr. rewrite Hr0. reflexivity. }
    rewrite Hone. cbn [floor mul Q_JsNum].
    split; [reflexivity |].
    assert (Hx : forall x, Qfloor (inject_Z x * 1) = x).
    { intros x. rewrite <- (Qfloor_Z x) at 2. apply Qfloor_comp. ring. }
    split; apply Hx.
  - intros r -> [Hr1 Hr2].
    assert (Hr0 : r0 = r).
    { unfold r0, Canvas.ratioOrOne.
      change (leb r (ofZ 0)) with (Qle_bool r 0).
      destruct (Qle_bool r 0) eqn:Hle; [| reflexivity].
      apply Qle_bool_iff in Hle. lra. }
    set (m := Math_min (ofZ 2) r0) in *.
    assert (Hm2 : (m <= 2)%Q) by exact Hmin1.
    assert (Hmr : (m <= r)%Q) by (rewrite <- Hr0; exact Hmin2).
    assert (Hmc : (m == 2 \/ m == r)%Q).
    { destruct Hminc as [Hn | Hn]; [left | right]; rewrite Hn;
        [reflexivity | rewrite Hr0; reflexivity]. }
    assert (Hdc : (dpr == 1 \/ dpr == m)%Q).
    { destruct Hmaxc as [Hn | Hn]; [left | right]; rewrite Hn; reflexivity. }
    assert (Hd1 : (1 <= dpr)%Q) by exact Hmax1.
    assert (Hd2 : (m <= dpr)%Q) by exact Hmax2.
    clear - Hm2 Hmr Hmc Hdc Hd1 Hd2 Hr1 Hr2. clearbody dpr m.
    destruct Hmc, Hdc; lra.
Qed.

(** *** Profiles *)



Lemma round_mono (a b : Q) : (a <= b)%Q -> Exact.round a <= Exact.round b.
Proof.
  intros Hab. unfold Exact.round. apply Qfloor_resp_le. lra.
Qed.

Lemma clamp_mono (a b lo hi : Z) :
  a <= b -> lo <= hi -> clamp Z.ltb a lo hi <= clamp Z.ltb b lo hi.
Proof.
  intros Hab Hlh. unfold clamp.
  destruct (Z.ltb_spec a lo); destruct (Z.ltb_spec b lo);
    destruct (Z.ltb_spec hi a); destruct (Z.ltb_spec hi b); lia.
Qed.

(** Property X24.
    The bias of the risk score: with the same draw of [Math.random()],
    a higher income never gives a higher score, and a mood with a higher
    bias never gives a lower one; burnout gives the highest scores and
    flow the lowest. *)
Theorem risk_falls_with_income_rises_with_mood (income1 income2 : Z)
  (mood1 mood2 : string) (t : Tape Q) :
  income1 <= income2 ->
  ProfileFactory.moodBiasOf mood1 <= ProfileFactory.moodBiasOf mood2 ->
  fst (ProfileFactory.riskFromIncomeAndMood income2 mood1 t)
  <= fst (ProfileFactory.riskFromIncomeAndMood income1 mood2 t)
  /\ (forall mood,
        ProfileFactory.moodBiasOf "flow" <= ProfileFactory.moodBiasOf mood
        <= ProfileFactory.moodBiasOf "burnout").
Proof.
  intros Hinc Hmood. split.
  - rewrite !risk_refines. unfold Spec.riskScore.
    apply clamp_mono; [| lia]. apply round_mono.
    rewrite <- !moodBiasOf_spec.
    assert (Hi : Spec.incomeAdjustment income2
                 <= Spec.incomeAdjustment income1).
    { unfold Spec.incomeAdjustment.
      destruct (Z.ltb_spec 150000 income2);
        destruct (Z.ltb_spec 150000 income1);
        destruct (Z.ltb_spec income2 40000);
        destruct (Z.ltb_spec income1 40000); lia. }
    rewrite Zle_Qle in Hi, Hmood. lra.
  - intros mood.
    change (ProfileFactory.moodBiasOf "flow") with (-8).
    change (ProfileFactory.moodBiasOf "burnout") with 15.
    unfold ProfileFactory.moodBiasOf, ProfileFactory.moodBias, property.
    repeat match goal with
           | |- context [String.eqb ?a ?b] => destruct (String.eqb a b)
           end; cbn; lia.
Qed.

(** *** The controls *)

Section Controls.
Variable page : Page.
Variable host : Host Q.








End Controls.

(** *** Identifiers *)

Lemma length_substring (s : string) :
  forall n m,
    String.length (substring n m s) = Nat.min m (String.length s - n).
Proof.
  induction s as [| c s IH]; intros n m.
  - destruct n, m; reflexivity.
  - destruct n as [| n].
    + destruct m as [| m]; [reflexivity |].
      cbn [substring String.length]. rewrite IH. cbn. lia.
    + cbn [substring String.length]. rewrite IH. reflexivity.
Qed.

(** Property X26.
    The id of a profile is at most 6 characters of the base-36 text of
    [Math.random()] after its first two, a dash, and at most the last 4
    characters of the base-36 text of [Date.now()]: 11 characters at
    most, and fewer whenever the random number has fewer than 6 base-36
    digits after [0.]. *)
Theorem makeId_at_most_11_characters {T} `{JsNum T} (host : Host T)
  (dateNow : Z) (t : Tape T) :
  let id := fst (ProfileFactory.makeId host dateNow t) in
  let random36 := toString36 host (t 0%nat) in
  let clock36 := toString36 host (ofZ dateNow) in
  id = (substring 2 6 random36 ++ "-" ++ slice_last 4 clock36)%string
  /\ String.length id
     = (Nat.min 6 (String.length random36 - 2) + 1
        + Nat.min 4 (String.length clock36))%nat
  /\ (String.length id <= 11)%nat
  /\ (String.length id = 11%nat
      <-> (8 <= String.length random36 /\ 4 <= String.length clock36)%nat).
Proof.
  intros id random36 clock36.
  assert (Hid : id = (substring 2 6 random36 ++ "-"
                      ++ slice_last 4 clock36)%string) by reflexivity.
  assert (Hlen : String.length id
                 = (Nat.min 6 (String.length random36 - 2) + 1
                    + Nat.min 4 (String.length clock36))%nat).
  { rewrite Hid, !string_length_app. unfold slice_last.
    rewrite !length_substring. cbn [String.length]. lia. }
  split; [exact Hid |]. split; [exact Hlen |]. rewrite Hlen.
  split; lia.
Qed.

(** *** Instances *)

Lemma choice_index_witness :
  exists i : nat,
    (i < 3)%nat
    /\ ProfileFactory.genders !! i
       = Some (fst (choice "undefined"%string ProfileFactory.genders demoTape)).
Proof.
  destruct (choice_index "undefined"%string ProfileFactory.genders demoTape
              demoTape_unit) as [_ Hne].
  destruct (Hne ltac:(discriminate)) as (i & Hi & Hl & _).
  exists i. split; assumption.
Defined.

Lemma weightedChoice_interval_witness :
  exists pre v w rest,
    ProfileFactory.emotional = pre ++ (v, w) :: rest
    /\ fst (weightedChoice "undefined"%string ProfileFactory.emotional
              demoTape) = v.
Proof.
  assert (Hw : Forall (fun p : string * Z => 0 <= snd p)
                 ProfileFactory.emotional).
  { repeat constructor; cbn; lia. }
  destruct (weightedChoice_interval "undefined"%string
              ProfileFactory.emotional demoTape demoTape_unit
              ltac:(discriminate) Hw) as (pre & v & w & rest & Hp & Hv & _).
  exists pre, v, w, rest. split; assumption.
Defined.

Lemma typewriter_reveals_text_in_order_witness :
  CapsuleManager.typing (CapsuleManager.pending typingWorld) !! 0%nat
  = Some typingJob
  /\ exists wj,
      CapsuleManager.run sessionConfig demoPage demoHost
        (repeat (CapsuleManager.EvTypeTimer 0) 1) typingWorld demoTape
      = (Some wj, demoTape)
      /\ CapsuleManager.cm wj = CapsuleManager.cm typingWorld.
Proof.
  assert (Hjob : CapsuleManager.typing (CapsuleManager.pending typingWorld)
                   !! 0%nat = Some typingJob) by (vm_compute; reflexivity).
  assert (Hchild : is_Some (CapsuleManager.children
                              (CapsuleManager.getNodeOf
                                 (CapsuleManager.doc typingWorld) 0)
                            !! 1%nat)).
  { apply lookup_lt_is_Some. vm_compute. lia. }
  split; [exact Hjob |].
  destruct (typewriter_reveals_text_in_order sessionConfig demoPage demoHost
              0 typingJob typingWorld demoTape Hjob Hchild) as [Hsteps _].
  destruct (Hsteps 1%nat) as (wj & Hrun & _ & _ & Hcm & _).
  { apply Nat.ltb_lt. vm_compute. reflexivity. }
  exists wj. split; assumption.
Defined.






Lemma draw_cuts_the_cell_of_its_glyph_witness :
  exists alpha blur color sx sy dx dy,
    MatrixRain.drawGlyph demoPage demoRain (6 # 10) demoColumn 3
    = MatrixRain.DrawImage alpha blur color sx sy 16 16 dx dy 16 16
    /\ 0 <= sx /\ sx + 16 <= 512 /\ 0 <= sy /\ sy + 16 <= 80.
Proof.
  assert (Hsheet : MatrixRain.sheet demoRain
                   = GlyphSheet.sheet
                       (GlyphSheet.buildGlyphSheet (T:=Q)
                          (MatrixRain.glyphSize demoRain)
                          (MatrixRain.characters demoRain)))
    by reflexivity.
  assert (Hgi : MatrixRain.glyphIndices demoColumn !! 0%nat
                = Some (Z.of_nat 5)) by reflexivity.
  assert (Hlt : (5 < length (MatrixRain.characters demoRain))%nat)
    by (vm_compute; lia).
  destruct (draw_cuts_the_cell_of_its_glyph demoPage demoRain (6 # 10)
              demoColumn 3 5 ltac:(cbn; lia) Hsheet ltac:(lia) Hgi Hlt)
    as (alpha & blur & color & sx & sy & dx & dy & ch & Hcmd & Hx0 & Hx1
        & Hy0 & Hy1 & _).
  exists alpha, blur, color, sx, sy, dx, dy.
  split; [exact Hcmd |].
  change (GlyphSheet.sheetWidth _) with 512 in Hx1.
  change (GlyphSheet.sheetHeight _) with 80 in Hy1.
  change (MatrixRain.glyphSize demoRain) with 16 in Hx1, Hy1.
  repeat split; assumption.
Defined.

Lemma trail_fades_from_head_witness :
  match MatrixRain.drawGlyph demoPage demoRain (6 # 10) demoColumn 0,
        MatrixRain.drawGlyph demoPage demoRain (6 # 10) demoColumn 1 with
  | MatrixRain.DrawImage a0 _ _ _ _ _ _ _ _ _ _,
    MatrixRain.DrawImage a1 _ _ _ _ _ _ _ _ _ _ => (0 < a1 /\ a1 < a0)%Q
  | _, _ => False
  end.
Proof.
  destruct (trail_fades_from_head demoPage demoRain (6 # 10) demoColumn
              0 1 _ _ eq_refl eq_refl ltac:(lia)) as [_ H].
  cbv beta iota in H. destruct H as ((H0 & H1 & _) & _).
  split; assumption.
Defined.

Lemma draw_paints_fade_trails_noise_witness :
  exists glow noise,
    fst (MatrixRain.draw CONFIG demoPage demoRain demoTape)
    = MatrixRain.FillRect "rgba(0,0,0,0.18)" 0 0 800 600
      :: concat (map (MatrixRain.drawColumn demoPage demoRain glow)
                     (MatrixRain.columns demoRain)) ++ noise.
Proof.
  destruct (draw_paints_fade_trails_noise CONFIG demoPage demoRain demoTape
              demoTape_unit) as (glow & noise & Hcmds & _).
  exists glow, noise. exact Hcmds.
Defined.


Lemma risk_falls_with_income_rises_with_mood_witness :
  fst (ProfileFactory.riskFromIncomeAndMood 200000 "flow" halfTape)
  <= fst (ProfileFactory.riskFromIncomeAndMood 30000 "burnout" halfTape).
Proof.
  apply (risk_falls_with_income_rises_with_mood 30000 200000 "flow"
           "burnout" halfTape); [lia | vm_compute; discriminate].
Defined.


